(* ===== verification/_CoqProject ===== *)
-Q . S2P
Prelude.v
JsString.v
JsValue.v
Weather.v
JsonPrint.v
JsonParse.v
JsonRoundtrip.v
JsonValueRoundtrip.v
Tools.v
Chat.v
Loop2.v
LoopJs.v
Protocol.v
ProtocolRuns.v
