(* ===== verification/Prelude.v ===== *)
(** * A verification library for XYZ_Karamchari, a command-line LLM agent

    ** The program

    The repository has two variants of one program, [src/index.js] and
    [src/index2.js].  Each reads a line at the prompt, wraps it as the
    JSON envelope [{type: 'user', user: line}], appends it to a log of
    role-tagged messages and then loops: it sends the log to a hosted
    chat-completion endpoint, appends the answer, parses it with
    [JSON.parse] and dispatches on its [type] field.  An [output] is
    printed and ends the exchange.  An [action] looks up [call.function]
    in the object [tools], calls it on [call.input] and appends the
    result as an [observation] envelope.  Anything else goes round again.
    The one tool, [getWeatherDetails], compares [city.toLowerCase()] with
    five city names.  [index2.js] catches every error, reports it and
    returns from [main], and cuts the log back to the system prompt after
    each exchange.  [index.js] catches nothing and never cuts the log.

    ** Files and what they model

    - [Prelude] (this file): UTF-16 strings as [list N], literals
      [‹"..."›], the completion type [outcome] of an operation that may
      throw (a value or a [js_error]), with stdpp's monad notation, the
      boolean string equality [str_eqb], the hint databases and tactics.
    - [JsString]: UTF-16 decoding and encoding and
      [String.prototype.toLowerCase], with the Final_Sigma context rule
      ([lower_code_points]).  The Unicode tables (lowercase mapping,
      Cased, Case_Ignorable) are the class [CaseMapping]; its laws
      [CaseMappingLaws] say that ASCII
      letters map to their lowercase and that a non-ASCII code point never
      maps to a plain ASCII word.  [basic_case_mapping] is a lawful table
      used to run the theorems on concrete inputs.
    - [JsValue]: the values the program handles: [json] (results of
      [JSON.parse]), [jsval] (results of [tools[...]] and of a call), the
      property reads [call.type], [call.output], [call.function],
      [call.input] ([get_field], a TypeError on [null]), ToString of
      template literals ([value_to_string]), [==] and [===] against a
      string literal.  Number::toString is the class [NumberOps].
    - [Weather]: [getWeatherDetails] of both files ([IndexJs],
      [Index2Js]) and a reference table lookup ([table_lookup]).
    - [JsonPrint]: [JSON.stringify] of the program's object literals
      and of parsed values (QuoteJSONString, property order).
    - [JsonParse]: [JSON.parse] as a recursive descent over code units
      with fuel; [JSON_parse] gives it [2 * length + 1].
    - [JsonRoundtrip]: [JSON.parse] after [JSON.stringify] on records of
      strings.
    - [JsonValueRoundtrip]: the same for the nested values without
      numbers ([json_ok]) that an observation of [constructor] carries,
      with the fuel the parser uses ([json_size]).
    - [Tools]: the object [tools] with its prototype [Object.prototype]
      ([tools_get]) and the call [fn(call.input)] ([call_value]), the
      inherited methods running with [this] undefined as ECMA-262 says.
    - [Chat]: the log ([state]: messages, number of requests, console
      output as [event]s), the request bodies, the endpoint (the class
      [ChatEndpoint], answering the [n]-th request body; its contract
      [EndpointContract] is taken from spec section 6), the inner loop
      [exchange] and the outer loop [repl], both parameterised by the body
      of a pass.
    - [Loop2]: [main] of [src/index2.js]: [Loop2.dispatch] (lines 93-106),
      [Loop2.iteration] (lines 73-110, every [console.error] and
      [return]; a parse error writes two lines, the error and the raw
      answer), [Loop2.reset] (line 112), [Loop2.main] (lines 59-114) and
      [Loop2.program], the call [main().catch(...)] of line 116.  The log
      grows by [Chat.appends]: a suffix whose messages all satisfy a
      predicate.
    - [LoopJs]: the loops of [src/index.js] (lines 54-88), where an
      exception is the [ICrash] result and ends the run.
    - [Protocol]: the abstract specification.  [Protocol.envelope] is the
      envelope union of spec section 3 and [Protocol.decode] its typed
      decode step (section 9); [Protocol.step] is the exchange machine of
      sections 4.3 and 7 as a labelled step relation on the phases
      [Calling], [Interpreting], [Done] and [Failed], parameterised by the
      registry and by the role of observation messages.  [pass_refines]
      relates one pass of a loop to a run of the machine on the same log.
    - [ProtocolRuns]: the step from [Interpreting] computed
      ([interpret], equal to the relation by [interpret_step]), one pass
      of a loop as a run of the machine ([one_pass]), the answers a run
      receives ([replies]) and an endpoint that gives them ([answers],
      [replay]).

    ** Theorems

    - Tool: both tools are the case-insensitive table lookup
      ([Weather.index2_weather_string], [Weather.index_weather_string])
      (their tables spell one city [banglore] and [bangalore]).
    - Envelopes: the user envelope parses back to the typed line for every
      string of code units ([JsonRoundtrip.user_envelope_roundtrip]).
    - Registry: twelve names resolve to a callable value of [tools], not
      one ([Tools.tools_get_callable]); the inherited ones pass the guard
      of [index2.js], and [constructor] sends the model's input back
      unchanged ([Loop2.constructor_echoes_input]).
    - Loops of [index2.js]: the scenario of spec section 8
      ([Loop2.scenario_patiala]); no exception escapes, so the top-level
      [main().catch] never runs, and the log keeps its system prompt
      ([Loop2.main_safe]); the log never holds more than [2 + 2 * fuel]
      messages ([Loop2.index2_log_bound]); an exchange only appends to
      the log ([Loop2.exchange_append_only]); the error paths for an
      unknown tool, a non-JSON answer, a missing or non-string tool input
      and an output that is not a string ([Loop2.tool_not_found],
      [Loop2.non_json_stops], [Loop2.tool_input_boundary],
      [Loop2.output_value_printing]); the loop has no bound
      ([Loop2.plans_forever_diverge]) and ends as soon as the model
      answers an output ([Loop2.output_ends_exchange]); each pass sends
      exactly one request ([Loop2.requests_per_exchange]); every exchange
      starts on the system prompt and the line just typed
      ([Loop2.index2_turn_log]); every message of the log has the
      type of spec section 3 ([Loop2.index2_log_typed]).
    - Loops of [index.js]: the request names the log [message], so an
      endpoint keeping the contract refuses it and the program crashes
      ([LoopJs.index_js_request_refused]); [==] against [===]: a [type]
      that is an array converting to ["output"] prints in [index.js] and
      is ignored by [index2.js] ([LoopJs.loose_output_divergence]); the observation of an unknown
      city has no value ([LoopJs.unknown_city_observation]); an unknown
      tool crashes ([LoopJs.unknown_tool_crashes]), and so does a tool
      input that is not a string ([LoopJs.tool_input_boundary_js]); the
      user turns of the log, never cut, are the typed lines in order
      ([LoopJs.index_js_user_turns]); a choice without content is logged
      as [null] and crashes the program ([LoopJs.null_content_crashes]).

    - Refinement: on answers that are envelopes or not JSON, every
      exchange of [index2.js] that ends is a run of the machine with the
      weather table as registry and prints what the run's labels say
      ([Protocol.exchange2_refines_protocol]); the same holds for
      [index.js] with its own table and role
      ([Protocol.exchange_js_refines_protocol]).  Each proof shows that one pass refines the machine, and lifts it to
      the exchange with the generic [exchange_refines_passes].  Conversely,
      every run of the machine that ends is the exchange of the loop under
      an endpoint that gives the run's answers in order
      ([ProtocolRuns.exchange2_realizes_run],
      [ProtocolRuns.exchange_js_realizes_run], lifted from one pass by
      [exchange_realizes_passes]): the loops and the machine have the
      same terminal runs, up to empty answers and inherited names.

    ** Fuel

    [exchange] takes the number of passes of the inner [while (true)] as
    fuel and answers [None] when it runs out, so the divergence theorem
    is a statement on every fuel, and the theorems on exchanges that
    terminate give the number of passes that is enough (three for the
    scenario, [k - calls + 1] for [output_ends_exchange]).  [repl] takes
    the typed lines as a list and stops at its end ([Idle]).  The parser
    consumes at least one code unit every two nested calls, so
    [2 * length + 1] is enough fuel ([JsonParse.parse_total]): the model
    of [JSON.parse] never reports a syntax error for lack of fuel.  On a
    serialized value it needs only [json_size], which is at most the
    length of the text.  A run of the machine with [n] labels is realised
    within [n] passes.

    ** Not modelled

    - Number values: a JSON number keeps its literal, and Number::toString
      and finiteness are the class [NumberOps]; binary64 arithmetic is
      never used by the program.  For that reason the round trip of
      nested values leaves numbers out.
    - The Unicode tables themselves (class [CaseMapping]): the theorems
      hold for every table that satisfies [CaseMappingLaws].
    - The HTTP transport, the credentials ([dotenv], the client
      constructors) and the text of [error.message] in the console
      output; the endpoint is the class [ChatEndpoint].
    - The commented-out code at the end of both files
      ([src/index.js:91-107], [src/index2.js:119-234]), and the imports
      and client construction at the top of both: everything else of the
      two files is in the map of the development. *)

From stdpp Require Import base list numbers decidable.
From Stdlib Require Import NArith Ascii String Lia.
Export Stdlib.Strings.String.StringSyntax.

Declare Scope js_scope.
Delimit Scope js_scope with js.

(** ** JavaScript strings

    A JavaScript string is a sequence of UTF-16 code units.  We keep the
    code units as [N]; well-formed code units are below [2^16]. *)

Abbreviation jsstr := (list N) (only parsing).

(** The code of an ASCII character, built from its bits with the
    constructors of [N] only, so that [cbn] computes with it. *)
Definition ascii_code (a : ascii) : N :=
  match a with
  | Ascii b0 b1 b2 b3 b4 b5 b6 b7 =>
      fold_right (fun (b : bool) (acc : N) =>
                    match acc with
                    | N0 => if b then Npos xH else N0
                    | Npos p => Npos (if b then xI p else xO p)
                    end) N0 [b0; b1; b2; b3; b4; b5; b6; b7]
  end.

(** ASCII literals of the source, as code units. *)
Fixpoint lit (s : string) : list N :=
  match s with
  | EmptyString => []
  | String a s' => ascii_code a :: lit s'
  end.

Notation "‹ s ›" := (lit s%string) (format "‹ s ›") : js_scope.
Open Scope js_scope.

(** ** Completions of JavaScript evaluation

    An evaluation either completes normally with a value or throws.  The
    thrown values of this program are the engine's [TypeError] (a property
    read on [null], a call of a non-function), the [SyntaxError] of
    [JSON.parse], and the rejection of the HTTP client. *)

Inductive js_error :=
  | TypeError
  | SyntaxError
  | ApiError.

Inductive outcome (A : Type) : Type :=
  | Normal (a : A)
  | Throw (e : js_error).
Arguments Normal {A} a.
Arguments Throw {A} e.

#[export] Instance outcome_ret : MRet outcome := @Normal.
#[export] Instance outcome_bind : MBind outcome :=
  fun A B f c => match c with Normal a => f a | Throw e => Throw e end.

#[export] Instance js_error_eq_dec : EqDecision js_error.
Proof. solve_decision. Defined.

Create HintDb js discriminated.
Create Rewrite HintDb js_simpl.

Lemma bind_Normal {A B} (a : A) (f : A -> outcome B) :
  (Normal a ≫= f) = f a.
Proof. reflexivity. Qed.

Lemma bind_Throw {A B} (e : js_error) (f : A -> outcome B) :
  (Throw e ≫= f) = Throw e.
Proof. reflexivity. Qed.

#[export] Hint Rewrite @bind_Normal @bind_Throw : js_simpl.

Lemma bind_eq_Normal {A B} (c : outcome A) (f : A -> outcome B) (b : B) :
  (c ≫= f) = Normal b <-> exists a, c = Normal a /\ f a = Normal b.
Proof.
  destruct c as [a|e]; simpl; split.
  - eauto.
  - intros (a' & Ha & Hf). by injection Ha as ->.
  - discriminate.
  - intros (? & ? & _). discriminate.
Qed.

(** [outcome_inv] splits every hypothesis [c ≫= f = Normal b] into the
    completion of [c] and that of the continuation. *)
Ltac outcome_inv :=
  repeat match goal with
  | H : (_ ≫= _) = Normal _ |- _ =>
      apply bind_eq_Normal in H; destruct H as (? & ? & H)
  | H : Normal _ = Normal _ |- _ => injection H as H
  | H : Normal _ = Throw _ |- _ => discriminate H
  | H : Throw _ = Normal _ |- _ => discriminate H
  end.

(** ** Generic lemmas on lists of code units *)

Lemma flat_map_singleton {A B} (f : A -> B) (l : list A) :
  flat_map (fun x => [f x]) l = map f l.
Proof. induction l as [|x l IH]; simpl; [done | by rewrite IH]. Qed.

Lemma lit_app (s t : string) : lit (s ++ t) = lit s ++ lit t.
Proof. induction s as [|a s IH]; simpl; [done | by rewrite IH]. Qed.

Lemma ascii_code_N a : ascii_code a = N_of_ascii a.
Proof. destruct a as [[] [] [] [] [] [] [] []]; reflexivity. Qed.

Lemma lit_ascii_bound (s : string) : Forall (fun c => (c < 256)%N) (lit s).
Proof.
  induction s as [|a s IH]; simpl; constructor; [|exact IH].
  rewrite ascii_code_N. pose proof (N_ascii_bounded a). lia.
Qed.

#[export] Hint Rewrite @flat_map_singleton lit_app : js_simpl.

(** [N_cases] case-splits every comparison of [N] in the goal on its
    specification, so that [lia] can finish. *)
Ltac N_cases :=
  repeat match goal with
  | |- context [(?a <=? ?b)%N] => destruct (N.leb_spec a b)
  | |- context [(?a <? ?b)%N] => destruct (N.ltb_spec a b)
  | |- context [(?a =? ?b)%N] => destruct (N.eqb_spec a b)
  end.

Lemma Forall_mono {A} (P Q : A -> Prop) (l : list A) :
  Forall P l -> (forall x, P x -> Q x) -> Forall Q l.
Proof. induction 1; constructor; auto. Qed.

(** ** Equality of strings

    [===] on two strings compares their code units; [str_eqb] is that
    comparison as a boolean that computes. *)
Fixpoint str_eqb (s t : list N) : bool :=
  match s, t with
  | [], [] => true
  | a :: s', b :: t' => N.eqb a b && str_eqb s' t'
  | _, _ => false
  end.

Lemma str_eqb_eq s t : str_eqb s t = true <-> s = t.
Proof.
  revert t. induction s as [|a s IH]; intros [|b t]; simpl; try done.
  rewrite andb_true_iff, N.eqb_eq, IH. split; [intros [-> ->]; done | intros [= -> ->]; done].
Qed.

Lemma str_eqb_bool_decide s t : str_eqb s t = bool_decide (s = t).
Proof.
  destruct (str_eqb s t) eqn:E; symmetry.
  - apply bool_decide_eq_true. by apply str_eqb_eq.
  - apply bool_decide_eq_false. intros H%str_eqb_eq. congruence.
Qed.

Lemma str_eqb_refl s : str_eqb s s = true.
Proof. by apply str_eqb_eq. Qed.

Lemma str_eqb_neq s t : s <> t -> str_eqb s t = false.
Proof. intros H. apply not_true_is_false. by rewrite str_eqb_eq. Qed.

Lemma str_eqb_false s t : str_eqb s t = false -> s <> t.
Proof. intros H ->. by rewrite str_eqb_refl in H. Qed.

(** [case_str_eqb] splits on a string comparison of the goal and leaves
    its outcome as an equation or a disequation. *)
Ltac case_str_eqb :=
  match goal with
  | |- context [str_eqb ?a ?b] =>
      let E := fresh "E" in
      destruct (str_eqb a b) eqn:E; [apply str_eqb_eq in E | apply str_eqb_false in E]
  end.
