(* ===== verification/JsString.v ===== *)
(** * JavaScript strings: UTF-16 code points and [String.prototype.toLowerCase]

    [toLowerCase] (ECMA-262, 22.1.3.28) reads its string as code points
    ([StringToCodePoints]: a leading surrogate followed by a trailing one
    is one code point, a lone surrogate stands for itself), lowers them by
    the Unicode Default Case Conversion and writes the result back as
    UTF-16 ([CodePointsToString]).  The conversion maps each code point by
    its full lowercase mapping, except that a capital sigma U+03A3 in the
    Final_Sigma context (Unicode, Table 3-17: after a cased letter and
    case-ignorable characters, and not before case-ignorable characters
    and a cased letter) becomes the final sigma U+03C2.  The Unicode
    tables (the mapping and the properties Cased and Case_Ignorable) are
    the class [CaseMapping]; its laws [CaseMappingLaws] are the two facts
    about the mapping the program depends on. *)

From stdpp Require Import base list numbers.
From Stdlib Require Import NArith Lia.
From S2P Require Import Prelude.

Local Open Scope N_scope.

(** ** UTF-16 *)

Definition is_high_surrogate (c : N) : bool := (0xD800 <=? c) && (c <=? 0xDBFF).
Definition is_low_surrogate (c : N) : bool := (0xDC00 <=? c) && (c <=? 0xDFFF).

(** UTF16SurrogatePairToCodePoint *)
Definition surrogate_pair_to_code_point (lead trail : N) : N :=
  (lead - 0xD800) * 0x400 + (trail - 0xDC00) + 0x10000.

(** StringToCodePoints, through CodePointAt. *)
Fixpoint to_code_points (s : list N) : list N :=
  match s with
  | [] => []
  | c :: rest =>
      if is_high_surrogate c then
        match rest with
        | d :: rest' =>
            if is_low_surrogate d
            then surrogate_pair_to_code_point c d :: to_code_points rest'
            else c :: to_code_points rest
        | [] => [c]
        end
      else c :: to_code_points rest
  end.

(** UTF16EncodeCodePoint *)
Definition utf16_encode (cp : N) : list N :=
  if cp <=? 0xFFFF then [cp]
  else [(cp - 0x10000) / 0x400 + 0xD800; (cp - 0x10000) mod 0x400 + 0xDC00].

(** CodePointsToString *)
Definition code_points_to_string (cps : list N) : list N :=
  flat_map utf16_encode cps.

(** ** The Unicode lowercase table *)

Class CaseMapping := {
  to_lower_cp : N -> list N;
  is_cased : N -> bool;
  is_case_ignorable : N -> bool
}.

Definition ascii_lower (c : N) : N :=
  if (65 <=? c) && (c <=? 90) then c + 32 else c.

(** The table lowercases the ASCII capitals and fixes the other ASCII
    code points; a non-ASCII code point is lowered either to the ASCII
    letter [k] (U+212A KELVIN SIGN is the one such code point) or to a
    sequence that contains a non-ASCII code point (U+0130 gives
    [i] followed by U+0307). *)
Class CaseMappingLaws (cm : CaseMapping) : Prop := {
  lower_ascii : forall c, c < 128 -> to_lower_cp c = [ascii_lower c];
  lower_non_ascii : forall c, 128 <= c ->
    to_lower_cp c = [0x6B] \/ Exists (fun d => 128 <= d) (to_lower_cp c)
}.

Section Context.
Context `{CaseMapping}.

(** The code points before a position, nearest first, end with a cased
    letter followed by case-ignorable characters only. *)
Fixpoint preceded_by_cased (before : list N) : bool :=
  match before with
  | [] => false
  | c :: r => if is_cased c then true else if is_case_ignorable c then preceded_by_cased r else false
  end.

(** The code points after a position start with case-ignorable
    characters and then a cased letter. *)
Fixpoint followed_by_cased (after : list N) : bool :=
  match after with
  | [] => false
  | c :: r => if is_cased c then true else if is_case_ignorable c then followed_by_cased r else false
  end.

Definition final_sigma (before after : list N) : bool :=
  preceded_by_cased before && negb (followed_by_cased after).

(** The Default Case Conversion toLowercase of a sequence of code points;
    [before] holds the code points already converted, nearest first. *)
Fixpoint lower_code_points (before cps : list N) : list N :=
  match cps with
  | [] => []
  | c :: rest =>
      (if (c =? 0x3A3) && final_sigma before rest then [0x3C2] else to_lower_cp c)
      ++ lower_code_points (c :: before) rest
  end.

(** String.prototype.toLowerCase *)
Definition toLowerCase (s : list N) : list N :=
  code_points_to_string (lower_code_points [] (to_code_points s)).
End Context.

(** A table that satisfies the laws: ASCII and the Kelvin sign as Unicode
    has them, every other code point fixed.  It is used to run the model
    on concrete inputs. *)
Definition basic_case_mapping : CaseMapping := {|
  to_lower_cp c := if c =? 0x212A then [0x6B] else [ascii_lower c];
  is_cased c := ((65 <=? c) && (c <=? 90)) || ((97 <=? c) && (c <=? 122));
  is_case_ignorable c := bool_decide (c ∈ [0x27; 0x2E; 0x3A; 0x5E; 0x60])
|}.

(** [s] is an ASCII spelling of [w] up to letter case. *)
Definition ascii_case_variant (s w : list N) : Prop :=
  Forall (fun c => c < 128) s /\ map ascii_lower s = w.

#[export] Instance ascii_case_variant_dec s w : Decision (ascii_case_variant s w).
Proof. unfold ascii_case_variant. apply _. Defined.

(** A word of lowercase ASCII letters other than [k]. *)
Definition plain_lower_word (w : list N) : Prop :=
  Forall (fun c => 97 <= c <= 122 /\ c <> 0x6B) w.

#[export] Instance plain_lower_word_dec w : Decision (plain_lower_word w).
Proof. unfold plain_lower_word. apply _. Defined.

(** ** Lemmas *)

Lemma basic_case_mapping_laws : CaseMappingLaws basic_case_mapping.
Proof.
  split; intros c Hc; cbn [to_lower_cp basic_case_mapping].
  - destruct (N.eqb_spec c 0x212A); [lia | done].
  - destruct (N.eqb_spec c 0x212A); [by left | right].
    constructor. unfold ascii_lower. N_cases; simpl; lia.
Qed.

Lemma ascii_lower_bound c : c < 128 -> ascii_lower c < 128.
Proof.
  intros Hc. unfold ascii_lower. N_cases; simpl; lia.
Qed.

Lemma utf16_encode_small cp : cp <= 0xFFFF -> utf16_encode cp = [cp].
Proof. intros Hcp. unfold utf16_encode. destruct (N.leb_spec cp 0xFFFF); [done | lia]. Qed.

Lemma code_points_to_string_small cps :
  Forall (fun c => c <= 0xFFFF) cps -> code_points_to_string cps = cps.
Proof.
  induction 1 as [|c cps Hc _ IH]; [done|].
  unfold code_points_to_string in *; simpl. by rewrite utf16_encode_small, IH.
Qed.

(** The pair of surrogates of a supplementary code point encodes back to
    the two code units it was decoded from. *)
Lemma utf16_encode_pair c d :
  is_high_surrogate c = true -> is_low_surrogate d = true ->
  utf16_encode (surrogate_pair_to_code_point c d) = [c; d].
Proof.
  unfold is_high_surrogate, is_low_surrogate, utf16_encode,
    surrogate_pair_to_code_point.
  intros Hc Hd. apply andb_prop in Hc as [Hc1 Hc2]. apply andb_prop in Hd as [Hd1 Hd2].
  apply N.leb_le in Hc1, Hc2, Hd1, Hd2.
  destruct (N.leb_spec ((c - 0xD800) * 0x400 + (d - 0xDC00) + 0x10000) 0xFFFF); [exfalso; lia|].
  rewrite N.add_sub.
  assert (Hsmall : d - 0xDC00 < 0x400) by lia.
  rewrite N.div_add_l, N.div_small by lia.
  rewrite (N.add_comm ((c - 0xD800) * 0x400)), N.Div0.mod_add, N.mod_small by lia.
  f_equal; [|f_equal]; lia.
Qed.

(** Strong induction on the length of a string, for the two-code-unit
    steps of [to_code_points]. *)
Lemma list_len_ind (P : list N -> Prop) :
  (forall s, (forall t, (length t < length s)%nat -> P t) -> P s) -> forall s, P s.
Proof.
  intros Hstep s. remember (length s) as n eqn:Hn. revert s Hn.
  induction (lt_wf n) as [n _ IH]; intros s ->.
  apply Hstep. intros t Ht. by apply (IH (length t)).
Qed.

(** The two equations of [to_code_points]: a surrogate pair is one code
    point, any other code unit is a code point of its own. *)
Lemma to_code_points_pair c d r :
  is_high_surrogate c = true -> is_low_surrogate d = true ->
  to_code_points (c :: d :: r) = surrogate_pair_to_code_point c d :: to_code_points r.
Proof. intros Hc Hd. simpl. by rewrite Hc, Hd. Qed.

Lemma to_code_points_single c r :
  is_high_surrogate c = false \/ (exists d r', r = d :: r' /\ is_low_surrogate d = false)
  \/ r = [] ->
  to_code_points (c :: r) = c :: to_code_points r.
Proof.
  intros [Hc | [(d & r' & -> & Hd) | ->]]; simpl.
  - by rewrite Hc.
  - by destruct (is_high_surrogate c); rewrite ?Hd.
  - by destruct (is_high_surrogate c).
Qed.

(** UTF-16 round trip: decoding into code points and encoding back gives
    the original code units, lone surrogates included. *)
Lemma code_points_roundtrip s :
  Forall (fun c => c <= 0xFFFF) s -> code_points_to_string (to_code_points s) = s.
Proof.
  induction s as [s IH] using list_len_ind. intros Hs.
  destruct s as [|c rest]; [done|]. inversion Hs as [|? ? Hc Hrest]; subst.
  unfold code_points_to_string in *.
  destruct (is_high_surrogate c) eqn:Hhi;
    [destruct rest as [|d rest']; [|destruct (is_low_surrogate d) eqn:Hlo]|].
  - rewrite to_code_points_single by auto. simpl. by rewrite utf16_encode_small.
  - inversion Hrest as [|? ? Hd Hrest']; subst.
    rewrite to_code_points_pair by done. simpl. rewrite utf16_encode_pair by done.
    simpl. rewrite (IH rest'); [done | simpl; lia | done].
  - rewrite to_code_points_single by eauto 6. cbn [flat_map].
    rewrite utf16_encode_small, (IH (d :: rest')) by (simpl; lia || done). done.
  - rewrite to_code_points_single by auto. cbn [flat_map].
    rewrite utf16_encode_small, (IH rest) by (simpl; lia || done). done.
Qed.

Lemma to_code_points_no_surrogate s :
  Forall (fun c => c < 0xD800) s -> to_code_points s = s.
Proof.
  induction 1 as [|c s Hc _ IH]; [done|]. simpl.
  unfold is_high_surrogate. destruct (N.leb_spec 0xD800 c); [lia|]. simpl. by rewrite IH.
Qed.

(** If every decoded code point is below the surrogate range, the string
    had no surrogate and decodes to itself. *)
Lemma to_code_points_below_surrogates s :
  Forall (fun p => p < 0xD800) (to_code_points s) -> to_code_points s = s.
Proof.
  induction s as [s IH] using list_len_ind. intros Hs.
  destruct s as [|c rest]; [done|]. simpl in *.
  destruct (is_high_surrogate c) eqn:Hhi.
  - exfalso. unfold is_high_surrogate in Hhi. apply andb_prop in Hhi as [H1 _].
    apply N.leb_le in H1.
    destruct rest as [|d rest']; [inversion Hs; exfalso; lia|].
    destruct (is_low_surrogate d); inversion Hs as [|? ? Hp]; subst;
      unfold surrogate_pair_to_code_point in *; exfalso; lia.
  - inversion Hs as [|? ? Hc Hrest]; subst. f_equal. apply IH; [simpl; lia | done].
Qed.

Lemma code_points_to_string_ascii cps w :
  code_points_to_string cps = w -> Forall (fun c => c < 128) w -> cps = w.
Proof.
  revert w. induction cps as [|p cps IH]; intros w Hw Hascii; [done|].
  unfold code_points_to_string in Hw; simpl in Hw. unfold utf16_encode in Hw.
  destruct (N.leb_spec p 0xFFFF).
  - subst w. inversion Hascii; subst. f_equal. by apply IH.
  - subst w. inversion Hascii as [|? ? Hbad]; subst. exfalso. revert Hbad. generalize ((p - 0x10000) / 0x400). intros. lia.
Qed.

Section WithCaseMapping.
Context `{cm : CaseMapping} `{!CaseMappingLaws cm}.

Lemma lower_code_points_ascii before cps :
  Forall (fun c => c < 128) cps -> lower_code_points before cps = map ascii_lower cps.
Proof.
  intros Hcps. revert before. induction Hcps as [|c cps Hc _ IH]; intros before; [done|].
  simpl. destruct (N.eqb_spec c 0x3A3); [lia|]. simpl. by rewrite lower_ascii, IH.
Qed.

(** On ASCII input, [toLowerCase] is the ASCII lowercase map. *)
Lemma toLowerCase_ascii s :
  Forall (fun c => c < 128) s -> toLowerCase s = map ascii_lower s.
Proof.
  intros Hs. unfold toLowerCase.
  rewrite to_code_points_no_surrogate by (eapply Forall_mono; [eassumption|]; simpl; lia).
  rewrite lower_code_points_ascii by done.
  apply code_points_to_string_small. apply Forall_map.
  eapply Forall_mono; [eassumption|]. intros c Hc. pose proof (ascii_lower_bound c Hc). lia.
Qed.

(** Lowering code points to a plain lowercase word is only possible from
    ASCII code points. *)
Lemma lower_code_points_word before cps w :
  plain_lower_word w -> lower_code_points before cps = w ->
  Forall (fun c => c < 128) cps /\ map ascii_lower cps = w.
Proof.
  revert before w. induction cps as [|p cps IH]; intros before w Hw Heq; simpl in *.
  - by subst.
  - destruct (N.lt_ge_cases p 128) as [Hp|Hp].
    + destruct (N.eqb_spec p 0x3A3); [lia|]. simpl in Heq.
      rewrite lower_ascii in Heq by done. simpl in Heq. subst w.
      inversion Hw as [|? ? _ Hw']; subst.
      destruct (IH _ _ Hw' eq_refl) as [H1 H2]. split; [by constructor | by rewrite H2].
    + exfalso. subst w. apply Forall_app in Hw as [Hw _].
      destruct (_ && _).
      { inversion Hw as [|? ? [Hsig _]]; subst. lia. }
      destruct (lower_non_ascii p Hp) as [Hk | Hex].
      * rewrite Hk in Hw. inversion Hw as [|? ? [_ Hne]]; subst. by apply Hne.
      * apply Exists_exists in Hex as (d & Hd & Hd').
        rewrite Forall_forall in Hw.
        specialize (Hw d Hd). lia.
Qed.

(** The strings that [toLowerCase] maps to a plain lowercase ASCII word
    are exactly its ASCII spellings up to case: no non-ASCII spelling
    (and no surrogate) lowers to such a word. *)
Lemma toLowerCase_eq_word s w :
  plain_lower_word w -> toLowerCase s = w <-> ascii_case_variant s w.
Proof.
  intros Hw. split.
  - intros Heq. unfold toLowerCase in Heq.
    assert (Hascii : Forall (fun c => c < 128) w).
    { eapply Forall_mono; [exact Hw|]. simpl. lia. }
    pose proof (code_points_to_string_ascii _ _ Heq Hascii) as Hcps.
    destruct (lower_code_points_word _ _ _ Hw Hcps) as [Hlt Hmap].
    assert (Hs : to_code_points s = s).
    { apply to_code_points_below_surrogates.
      eapply Forall_mono; [exact Hlt|]; simpl; lia. }
    rewrite Hs in Hlt, Hmap. by split.
  - intros [Hs Hmap]. by rewrite toLowerCase_ascii.
Qed.
End WithCaseMapping.

