(* ===== verification/JsValue.v ===== *)
(** * JavaScript values as the agent loop sees them

    The loop handles three kinds of values: the result [call] of
    [JSON.parse] (type [json]), the values read from it with [call.type],
    [call.output], [call.function] and [call.input] ([option json], where
    [None] is [undefined]), and the values a tool call returns or the
    registry lookup [tools[...]] yields ([jsval]).  This file gives the
    value types and the engine operations the source applies to them:
    property reads (OrdinaryGet on the object and [Object.prototype]), the
    template-literal conversion [ToString] (through [ToPrimitive]), and the
    comparisons [==] and [===] with a string literal.

    Numbers are kept as the literal [JSON.parse] read; the engine's
    conversion of a Number to a string and its finiteness test are the
    class [NumberOps] (the binary64 arithmetic is not modelled). *)

From stdpp Require Import base list numbers.
From Stdlib Require Import NArith Lia.
From S2P Require Import Prelude.

(** ** JSON values *)

Record jsnum := JsNum { num_literal : list N }.

#[warnings="-register-all"]
Inductive json : Type :=
  | JNull
  | JBool (b : bool)
  | JNumber (n : jsnum)
  | JString (s : list N)
  | JArray (xs : list json)
  | JObject (props : list (list N * json)).

(** Induction on [json] that reaches the elements of arrays and the values
    of objects. *)
Section JsonInd.
Variable P : json -> Prop.
Hypothesis HNull : P JNull.
Hypothesis HBool : forall b, P (JBool b).
Hypothesis HNumber : forall n, P (JNumber n).
Hypothesis HString : forall s, P (JString s).
Hypothesis HArray : forall xs, Forall P xs -> P (JArray xs).
Hypothesis HObject : forall ps, Forall (fun kv => P kv.2) ps -> P (JObject ps).

Fixpoint json_ind' (j : json) : P j :=
  match j with
  | JNull => HNull
  | JBool b => HBool b
  | JNumber n => HNumber n
  | JString s => HString s
  | JArray xs =>
      HArray xs ((fix go (l : list json) : Forall P l :=
                    match l with
                    | [] => Forall_nil _
                    | x :: r => Forall_cons _ x r (json_ind' x) (go r)
                    end) xs)
  | JObject ps =>
      HObject ps ((fix go (l : list (list N * json)) : Forall (fun kv => P kv.2) l :=
                     match l with
                     | [] => Forall_nil _
                     | kv :: r => Forall_cons _ kv r (json_ind' kv.2) (go r)
                     end) ps)
  end.
End JsonInd.

(** ** Engine number primitives *)

Class NumberOps := {
  number_to_string : jsnum -> list N;   (** Number::toString *)
  number_is_finite : jsnum -> bool      (** the value is not NaN or an infinity *)
}.

(** Primitives that print a number as its literal: right for the integer
    literals in canonical form, and enough to run the model on examples. *)
Definition literal_number_ops : NumberOps :=
  {| number_to_string := num_literal; number_is_finite := fun _ => true |}.

(** ** Runtime values *)

(** The functions reachable from [tools[name]]: the tool itself and the
    methods [tools] inherits from [Object.prototype] (ECMA-262, 20.1.3 and
    B.2.2).  [BObject] is the [Object] constructor, the value of the
    inherited [constructor] property. *)
Inductive builtin :=
  | BGetWeatherDetails
  | BObject
  | BDefineGetter
  | BDefineSetter
  | BHasOwnProperty
  | BLookupGetter
  | BLookupSetter
  | BIsPrototypeOf
  | BPropertyIsEnumerable
  | BToString
  | BValueOf
  | BToLocaleString.

#[export] Instance builtin_eq_dec : EqDecision builtin.
Proof. solve_decision. Defined.

(** [VBoxed j] is the wrapper object [Object(j)] of a primitive [j];
    [VObjectPrototype] is [Object.prototype] itself, the value of
    [tools.__proto__]. *)
Inductive jsval :=
  | VUndefined
  | VJson (j : json)
  | VBoxed (j : json)
  | VFunction (f : builtin)
  | VObjectPrototype.

(** typeof v === "function" *)
Definition is_callable (v : jsval) : bool :=
  match v with VFunction _ => true | _ => false end.

(** ** Own properties of parsed objects *)

Fixpoint assoc_lookup (k : list N) (ps : list (list N * json)) : option json :=
  match ps with
  | [] => None
  | (k', v) :: r => if str_eqb k k' then Some v else assoc_lookup k r
  end.

Definition has_own (k : list N) (ps : list (list N * json)) : bool :=
  match assoc_lookup k ps with Some _ => true | None => false end.

(** The four property names the loop reads from [call]. *)
Inductive field := FType | FOutput | FFunction | FInput.

Definition field_name (f : field) : list N :=
  match f with
  | FType => ‹"type"›
  | FOutput => ‹"output"›
  | FFunction => ‹"function"›
  | FInput => ‹"input"›
  end.

(** [call.f]: a read on [null] throws; an object yields its own property
    (no prototype of the engine has a property of these four names); a
    primitive or an array has no property of these names. *)
Definition get_field (v : json) (f : field) : outcome (option json) :=
  match v with
  | JNull => Throw TypeError
  | JObject ps => Normal (assoc_lookup (field_name f) ps)
  | _ => Normal None
  end.

(** ** ToString *)

Fixpoint join_with (sep : list N) (l : list (list N)) : list N :=
  match l with
  | [] => []
  | [x] => x
  | x :: r => x ++ sep ++ join_with sep r
  end.

Section WithNumbers.
Context `{NumberOps}.

(** ToString (ToPrimitive with hint string) of a parsed value.  An array
    converts through [Array.prototype.join] with the separator [","],
    where [null] elements give the empty string.  An object converts
    through [Object.prototype.toString] unless it has an own property
    [toString]: that property, read from JSON, is not callable, and the
    fallback [valueOf] returns the object itself, so the conversion
    throws a TypeError. *)
Fixpoint json_to_string (j : json) : outcome (list N) :=
  match j with
  | JNull => Normal ‹"null"›
  | JBool b => Normal (if b then ‹"true"› else ‹"false"›)
  | JNumber n => Normal (number_to_string n)
  | JString s => Normal s
  | JArray xs =>
      strs ← (fix go (l : list json) : outcome (list (list N)) :=
                match l with
                | [] => Normal []
                | x :: r =>
                    s ← (match x with JNull => Normal [] | _ => json_to_string x end);
                    ss ← go r;
                    Normal (s :: ss)
                end) xs;
      Normal (join_with ‹","› strs)
  | JObject ps =>
      if has_own ‹"toString"› ps then Throw TypeError
      else Normal ‹"[object Object]"›
  end.

(** The template-literal conversion of a property value. *)
Definition value_to_string (v : option json) : outcome (list N) :=
  match v with
  | None => Normal ‹"undefined"›
  | Some j => json_to_string j
  end.

(** [v == w] for a string literal [w] that does not read as a number
    (the two literals compared are ["output"] and ["action"]): with
    [undefined] or [null] the comparison is false; a number or a boolean
    is compared with ToNumber(w), which is NaN, so it is false; an object
    or array is first converted by ToPrimitive (hint default), which on a
    parsed value is [json_to_string]. *)
Definition loose_eq_word (v : option json) (w : list N) : outcome bool :=
  match v with
  | None | Some JNull | Some (JNumber _) | Some (JBool _) => Normal false
  | Some (JString s) => Normal (str_eqb s w)
  | Some j => s ← json_to_string j; Normal (str_eqb s w)
  end.
End WithNumbers.

(** [v === w] for a string [w]. *)
Definition strict_eq_word (v : option json) (w : list N) : bool :=
  match v with
  | Some (JString s) => str_eqb s w
  | _ => false
  end.

(** ** Lemmas *)

