(* ===== verification/Weather.v ===== *)
(** * The weather tool [getWeatherDetails] of both variants

    [src/index.js:13-19] and [src/index2.js:9-16] define the one tool of
    the registry.  It takes [city = ''] (the default applies when the
    model's [input] field is missing), compares [city.toLowerCase()] with
    five city names in turn and returns a constant temperature string.
    In [index.js] all five answers are ["10°C"], the third name is spelled
    ["banglore"], and an unknown city falls off the end of the function
    ([undefined]); in [index2.js] the answers differ per city and an
    unknown city gets the sentence ["Weather data not available for this
    city."].  A non-string [input] (a number, [null], an object) has no
    callable [toLowerCase], so the call throws a TypeError.

    The main theorems show that each if-chain, written with the Unicode
    [toLowerCase], is a lookup of the ASCII case-folded argument in a
    five-entry table. *)

From stdpp Require Import base list numbers.
From Stdlib Require Import NArith Lia.
From S2P Require Import Prelude JsString JsValue.

(** The degree sign U+00B0 of the answers is one UTF-16 code unit. *)
Definition degrees (n : list N) : list N := n ++ [176%N] ++ ‹"C"›.

(** [city = ''] then [city.toLowerCase]: the string the comparisons see. *)
Definition city_string (city : option json) : outcome (list N) :=
  match city with
  | None => Normal []
  | Some (JString s) => Normal s
  | Some _ => Throw TypeError
  end.

Definition answer (s : list N) : outcome jsval := Normal (VJson (JString s)).

Module IndexJs.
(** [src/index.js:13-19] *)
Definition getWeatherDetails `{CaseMapping} (city : option json) : outcome jsval :=
  c ← city_string city;
  if str_eqb (toLowerCase c) ‹"patiala"› then answer (degrees ‹"10"›) else
  if str_eqb (toLowerCase c) ‹"mohali"› then answer (degrees ‹"10"›) else
  if str_eqb (toLowerCase c) ‹"banglore"› then answer (degrees ‹"10"›) else
  if str_eqb (toLowerCase c) ‹"chandigarh"› then answer (degrees ‹"10"›) else
  if str_eqb (toLowerCase c) ‹"delhi"› then answer (degrees ‹"10"›) else
  Normal VUndefined.
End IndexJs.

Module Index2Js.
Definition not_available : list N := ‹"Weather data not available for this city."›.

(** [src/index2.js:9-16] *)
Definition getWeatherDetails `{CaseMapping} (city : option json) : outcome jsval :=
  c ← city_string city;
  if str_eqb (toLowerCase c) ‹"patiala"› then answer (degrees ‹"10"›) else
  if str_eqb (toLowerCase c) ‹"mohali"› then answer (degrees ‹"12"›) else
  if str_eqb (toLowerCase c) ‹"bangalore"› then answer (degrees ‹"15"›) else
  if str_eqb (toLowerCase c) ‹"chandigarh"› then answer (degrees ‹"11"›) else
  if str_eqb (toLowerCase c) ‹"delhi"› then answer (degrees ‹"13"›) else
  answer not_available.
End Index2Js.

(** ** Reference specification: a case-insensitive table lookup *)

Definition table_lookup (tbl : list (list N * list N)) (s : list N) : option (list N) :=
  snd <$> find (fun e => bool_decide (ascii_case_variant s e.1)) tbl.

Definition table_js : list (list N * list N) :=
  [(‹"patiala"›, degrees ‹"10"›); (‹"mohali"›, degrees ‹"10"›);
   (‹"banglore"›, degrees ‹"10"›); (‹"chandigarh"›, degrees ‹"10"›);
   (‹"delhi"›, degrees ‹"10"›)].

Definition table_2 : list (list N * list N) :=
  [(‹"patiala"›, degrees ‹"10"›); (‹"mohali"›, degrees ‹"12"›);
   (‹"bangalore"›, degrees ‹"15"›); (‹"chandigarh"›, degrees ‹"11"›);
   (‹"delhi"›, degrees ‹"13"›)].

(** ** Lemmas *)

Section WithCaseMapping.
Context `{cm : CaseMapping} `{!CaseMappingLaws cm}.

(** Comparing the lowercased city with a plain lowercase name is
    deciding whether the city is an ASCII spelling of the name. *)
Lemma bool_decide_lower_word s w :
  plain_lower_word w ->
  str_eqb (toLowerCase s) w = bool_decide (ascii_case_variant s w).
Proof.
  intros Hw. rewrite str_eqb_bool_decide. apply bool_decide_ext. by apply toLowerCase_eq_word.
Qed.

Ltac rewrite_city_tests :=
  repeat (rewrite bool_decide_lower_word; [|by apply (bool_decide_unpack _); vm_compute]).

(** [weather_chain] proves that an if-chain of a tool is a table lookup:
    each comparison becomes a case-variant test, and the cases agree. *)
Ltac weather_chain :=
  unfold IndexJs.getWeatherDetails, Index2Js.getWeatherDetails, table_lookup;
  cbn -[lit toLowerCase degrees];
  rewrite_city_tests; by repeat case_bool_decide.

(** The two if-chains as table lookups; the theorems below and the
    refinement of the protocol use them. *)
Lemma index2_weather_table s :
  Index2Js.getWeatherDetails (Some (JString s)) =
  answer (default Index2Js.not_available (table_lookup table_2 s)).
Proof. weather_chain. Qed.

Lemma index_weather_table s :
  IndexJs.getWeatherDetails (Some (JString s)) =
  match table_lookup table_js s with
  | Some t => answer t
  | None => Normal VUndefined
  end.
Proof. weather_chain. Qed.

(** C6: the [index2.js] tool on a string is the case-insensitive lookup
    of the string in its five-city table, with the "not available"
    sentence for any other string. *)
Theorem index2_weather_string s :
  Index2Js.getWeatherDetails (Some (JString s)) =
  answer (default Index2Js.not_available (table_lookup table_2 s)).
Proof. weather_chain. Qed.

(** C7: the [index.js] tool on a string is the case-insensitive lookup of
    the string in its table, and [undefined] for any other string. *)
Theorem index_weather_string s :
  IndexJs.getWeatherDetails (Some (JString s)) =
  match table_lookup table_js s with
  | Some t => answer t
  | None => Normal VUndefined
  end.
Proof. weather_chain. Qed.

(** On ASCII input every lawful table behaves as [basic_case_mapping],
    so the tool can be run on a concrete ASCII argument. *)
Lemma index2_weather_ascii s :
  Forall (fun c => (c < 128)%N) s ->
  Index2Js.getWeatherDetails (Some (JString s)) =
  @Index2Js.getWeatherDetails basic_case_mapping (Some (JString s)).
Proof.
  intros Hs. unfold Index2Js.getWeatherDetails. cbn -[toLowerCase lit degrees].
  rewrite toLowerCase_ascii by done.
  rewrite (@toLowerCase_ascii basic_case_mapping basic_case_mapping_laws) by done.
  done.
Qed.

(** [index.js] falls off the end of the function for a city it does not
    know. *)
Lemma index_weather_unknown s :
  table_lookup table_js s = None -> IndexJs.getWeatherDetails (Some (JString s)) = Normal VUndefined.
Proof. intros Hs. by rewrite index_weather_table, Hs. Qed.
End WithCaseMapping.

(** Witnesses: the theorems at the table [basic_case_mapping]. *)
Lemma index2_weather_string_witness :
  @Index2Js.getWeatherDetails basic_case_mapping (Some (JString ‹"MoHaLi"›)) =
  answer (degrees ‹"12"›).
Proof.
  rewrite (@index2_weather_string basic_case_mapping basic_case_mapping_laws).
  reflexivity.
Defined.

Lemma index_weather_string_witness :
  @IndexJs.getWeatherDetails basic_case_mapping (Some (JString ‹"Delhi"›)) =
  answer (degrees ‹"10"›).
Proof.
  rewrite (@index_weather_string basic_case_mapping basic_case_mapping_laws).
  reflexivity.
Defined.

