(* ===== verification/JsonPrint.v ===== *)
(** * [JSON.stringify] without replacer or indentation

    ECMA-262, 25.5.2: SerializeJSONProperty, QuoteJSONString,
    SerializeJSONObject and SerializeJSONArray.  The program stringifies
    two kinds of objects it builds itself, [{type: 'user', user: query}]
    ([src/index.js:60-64], [src/index2.js:66-70]) and
    [{type: 'observation', observation}] ([src/index.js:84-85],
    [src/index2.js:104-105]); the observation can be any value a tool
    call returns, so the whole serializer of parsed values is modelled.
    A property whose value serializes to [undefined] (an [undefined] or a
    function) is left out of its object. *)

From stdpp Require Import base list numbers.
From Stdlib Require Import NArith Lia.
From S2P Require Import Prelude JsString JsValue.

Local Open Scope N_scope.

(** ** QuoteJSONString *)

Definition hex_digit (n : N) : N := if n <? 10 then 48 + n else 87 + n.

(** UnicodeEscape: [\u] and four lowercase hexadecimal digits. *)
Definition unicode_escape (c : N) : list N :=
  [92; 117; hex_digit (c / 4096 mod 16); hex_digit (c / 256 mod 16);
   hex_digit (c / 16 mod 16); hex_digit (c mod 16)].

Definition is_surrogate (c : N) : bool := (0xD800 <=? c) && (c <=? 0xDFFF).

(** One code point of the string (Table 75 of ECMA-262 for the short
    escapes: backspace, tab, line feed, form feed, carriage return, the
    quotation mark and the backslash). *)
Definition quote_code_point (c : N) : list N :=
  if c =? 8 then [92; 98]
  else if c =? 9 then [92; 116]
  else if c =? 10 then [92; 110]
  else if c =? 12 then [92; 102]
  else if c =? 13 then [92; 114]
  else if c =? 34 then [92; 34]
  else if c =? 92 then [92; 92]
  else if (c <? 32) || is_surrogate c then unicode_escape c
  else utf16_encode c.

Definition quote_body (s : list N) : list N :=
  flat_map quote_code_point (to_code_points s).

Definition quote_json_string (s : list N) : list N := [34] ++ quote_body s ++ [34].

(** ** Property order of parsed objects

    [JSON.parse] creates the properties of an object in text order, but
    OrdinaryOwnPropertyKeys lists the array-index keys (canonical numerals
    below [2^32 - 1]) first, in ascending numeric order. *)

Definition is_digit (c : N) : bool := (48 <=? c) && (c <=? 57).

Fixpoint digits_value (acc : N) (s : list N) : option N :=
  match s with
  | [] => Some acc
  | c :: r => if is_digit c then digits_value (acc * 10 + (c - 48)) r else None
  end.

Definition array_index (k : list N) : option N :=
  match k with
  | [] => None
  | [48] => Some 0
  | c :: _ =>
      if c =? 48 then None
      else match digits_value 0 k with
           | Some n => if n <? 4294967295 then Some n else None
           | None => None
           end
  end.

Fixpoint insert_index {A} (n : N) (kv : list N * A)
    (l : list (N * (list N * A))) : list (N * (list N * A)) :=
  match l with
  | [] => [(n, kv)]
  | (m, kv') :: r => if n <? m then (n, kv) :: l else (m, kv') :: insert_index n kv r
  end.

Definition own_property_order {A} (ps : list (list N * A)) : list (list N * A) :=
  let idx := fold_left (fun acc kv =>
               match array_index kv.1 with
               | Some n => insert_index n kv acc
               | None => acc
               end) ps [] in
  map snd idx ++ List.filter (fun kv => match array_index kv.1 with None => true | Some _ => false end) ps.

(** ** SerializeJSONProperty *)

Section WithNumbers.
Context `{NumberOps}.

Fixpoint serialize_json (j : json) : list N :=
  match j with
  | JNull => ‹"null"›
  | JBool b => if b then ‹"true"› else ‹"false"›
  | JNumber n => if number_is_finite n then number_to_string n else ‹"null"›
  | JString s => quote_json_string s
  | JArray xs => [91] ++ join_with [44] (map serialize_json xs) ++ [93]
  | JObject ps =>
      [123] ++ join_with [44]
        (map (fun kv => quote_json_string kv.1 ++ [58] ++ kv.2)
             (own_property_order (map (fun kv => (kv.1, serialize_json kv.2)) ps)))
      ++ [125]
  end.

(** [None] is the [undefined] of SerializeJSONProperty.  A wrapper
    object [Object(j)] of a primitive serializes as the primitive;
    [Object.prototype] has no enumerable own property. *)
Definition serialize_value (v : jsval) : option (list N) :=
  match v with
  | VUndefined | VFunction _ => None
  | VJson j | VBoxed j => Some (serialize_json j)
  | VObjectPrototype => Some ‹"{}"›
  end.

(** An object literal of the program, its keys in creation order (none
    of them is an array index). *)
Definition serialize_record (ps : list (list N * jsval)) : list N :=
  [123] ++ join_with [44]
    (omap (fun kv => (fun s => quote_json_string kv.1 ++ [58] ++ s) <$> serialize_value kv.2) ps)
  ++ [125].
End WithNumbers.

(** [JSON.stringify({type: 'user', user: query})] *)
Definition user_envelope `{NumberOps} (query : list N) : list N :=
  serialize_record [(‹"type"›, VJson (JString ‹"user"›)); (‹"user"›, VJson (JString query))].

(** [JSON.stringify({type: "observation", observation})] *)
Definition observation_envelope `{NumberOps} (observation : jsval) : list N :=
  serialize_record [(‹"type"›, VJson (JString ‹"observation"›)); (‹"observation"›, observation)].
