(* ===== verification/JsonParse.v ===== *)
(** * [JSON.parse] without reviver

    ECMA-262, 25.5.1: the text is parsed as ECMA-404 JSON over UTF-16 code
    units and evaluated; a text that is not JSON throws a SyntaxError.
    Objects get their members in text order, a repeated key keeping its
    first position and its last value (CreateDataProperty).  The parser is
    a recursive descent with fuel; [parse_total] shows that the fuel
    [JSON_parse] gives, twice the length of the text plus one, is never
    exhausted. *)

From stdpp Require Import base list numbers sets.
From Stdlib Require Import NArith Lia.
From S2P Require Import Prelude JsString JsValue JsonPrint.

Local Open Scope N_scope.

(** The result of a sub-parser: a value and the rest of the text, a
    syntax error, or the exhaustion of the fuel. *)
Inductive presult (A : Type) :=
  | POk (a : A) (rest : list N)
  | PErr
  | PFuel.
Arguments POk {A} a rest.
Arguments PErr {A}.
Arguments PFuel {A}.

Definition is_ws (c : N) : bool := (c =? 9) || (c =? 10) || (c =? 13) || (c =? 32).

Fixpoint skip_ws (s : list N) : list N :=
  match s with
  | c :: r => if is_ws c then skip_ws r else s
  | [] => []
  end.

Definition hex_value (c : N) : option N :=
  if (48 <=? c) && (c <=? 57) then Some (c - 48)
  else if (97 <=? c) && (c <=? 102) then Some (c - 87)
  else if (65 <=? c) && (c <=? 70) then Some (c - 55)
  else None.

Definition hex4 (a b c d : N) : option N :=
  va ← hex_value a; vb ← hex_value b; vc ← hex_value c; vd ← hex_value d;
  Some (((va * 16 + vb) * 16 + vc) * 16 + vd).

(** The single-character escapes: a backslash followed by a quotation
    mark, a backslash, a solidus, or one of the letters b f n r t. *)
Definition simple_escape (e : N) : option N :=
  if e =? 34 then Some 34
  else if e =? 92 then Some 92
  else if e =? 47 then Some 47
  else if e =? 98 then Some 8
  else if e =? 102 then Some 12
  else if e =? 110 then Some 10
  else if e =? 114 then Some 13
  else if e =? 116 then Some 9
  else None.

(** The body of a string literal, after its opening quotation mark: the
    code units it denotes and the text after the closing quotation mark.
    A code unit below U+0020 must be escaped; a [u] escape with four hex
    digits denotes one code unit, whatever it is. *)
Fixpoint lex_string (s : list N) : option (list N * list N) :=
  match s with
  | [] => None
  | c :: r =>
      if c =? 34 then Some ([], r)
      else if c =? 92 then
        match r with
        | e :: r1 =>
            if e =? 117 then
              match r1 with
              | a :: b :: c' :: d :: r2 =>
                  u ← hex4 a b c' d;
                  '(body, rest) ← lex_string r2;
                  Some (u :: body, rest)
              | _ => None
              end
            else
              u ← simple_escape e;
              '(body, rest) ← lex_string r1;
              Some (u :: body, rest)
        | [] => None
        end
      else if c <? 32 then None
      else '(body, rest) ← lex_string r; Some (c :: body, rest)
  end.

(** ** Numbers: [-? (0 | [1-9][0-9]* ) (. [0-9]+)? ([eE] [+-]? [0-9]+)?] *)

Fixpoint span_digits (s : list N) : list N * list N :=
  match s with
  | c :: r => if is_digit c then let '(d, rest) := span_digits r in (c :: d, rest) else ([], s)
  | [] => ([], [])
  end.

Definition lex_int (s : list N) : option (list N * list N) :=
  match s with
  | c :: r =>
      if c =? 48 then Some ([48], r)
      else if is_digit c then Some (span_digits s)
      else None
  | [] => None
  end.

Definition lex_frac (s : list N) : option (list N * list N) :=
  match s with
  | c :: r =>
      if c =? 46 then
        let '(d, rest) := span_digits r in
        match d with [] => None | _ => Some (46 :: d, rest) end
      else Some ([], s)
  | [] => Some ([], [])
  end.

Definition lex_exp (s : list N) : option (list N * list N) :=
  match s with
  | e :: r =>
      if (e =? 101) || (e =? 69) then
        let '(sign, r1) :=
          match r with
          | c :: r' => if (c =? 43) || (c =? 45) then ([c], r') else ([], r)
          | [] => ([], [])
          end in
        let '(d, rest) := span_digits r1 in
        match d with [] => None | _ => Some (e :: sign ++ d, rest) end
      else Some ([], s)
  | [] => Some ([], [])
  end.

Definition lex_number (s : list N) : option (list N * list N) :=
  let '(sign, s1) := match s with
                     | c :: r => if c =? 45 then ([45], r) else ([], s)
                     | [] => ([], [])
                     end in
  '(i, s2) ← lex_int s1;
  '(fr, s3) ← lex_frac s2;
  '(ex, s4) ← lex_exp s3;
  Some (sign ++ i ++ fr ++ ex, s4).

(** A keyword [null], [true] or [false]. *)
Definition lex_keyword (kw : list N) (s : list N) : option (list N) :=
  if str_eqb (take (length kw) s) kw then Some (drop (length kw) s) else None.

(** CreateDataProperty on an object built from JSON text. *)
Fixpoint set_property (k : list N) (v : json) (ps : list (list N * json)) : list (list N * json) :=
  match ps with
  | [] => [(k, v)]
  | (k', v') :: r => if str_eqb k k' then (k', v) :: r else (k', v') :: set_property k v r
  end.

Definition build_object (members : list (list N * json)) : list (list N * json) :=
  fold_left (fun ps kv => set_property kv.1 kv.2 ps) members [].

(** ** The recursive descent *)

Fixpoint parse_value (fuel : nat) (s : list N) {struct fuel} : presult json :=
  match fuel with
  | O => PFuel
  | S f =>
      match skip_ws s with
      | [] => PErr
      | c :: r =>
          if c =? 123 then
            match skip_ws r with
            | d :: r' => if d =? 125 then POk (JObject []) r'
                         else match parse_members f (skip_ws r) with
                              | POk ms rest => POk (JObject (build_object ms)) rest
                              | PErr => PErr | PFuel => PFuel
                              end
            | [] => PErr
            end
          else if c =? 91 then
            match skip_ws r with
            | d :: r' => if d =? 93 then POk (JArray []) r'
                         else match parse_elements f (skip_ws r) with
                              | POk xs rest => POk (JArray xs) rest
                              | PErr => PErr | PFuel => PFuel
                              end
            | [] => PErr
            end
          else if c =? 34 then
            match lex_string r with
            | Some (str, rest) => POk (JString str) rest
            | None => PErr
            end
          else if (c =? 45) || is_digit c then
            match lex_number (c :: r) with
            | Some (lexeme, rest) => POk (JNumber (JsNum lexeme)) rest
            | None => PErr
            end
          else if c =? 110 then
            match lex_keyword ‹"null"› (c :: r) with Some rest => POk JNull rest | None => PErr end
          else if c =? 116 then
            match lex_keyword ‹"true"› (c :: r) with Some rest => POk (JBool true) rest | None => PErr end
          else if c =? 102 then
            match lex_keyword ‹"false"› (c :: r) with Some rest => POk (JBool false) rest | None => PErr end
          else PErr
      end
  end

(** The elements of an array, after [[] and the whitespace that follows. *)
with parse_elements (fuel : nat) (s : list N) {struct fuel} : presult (list json) :=
  match fuel with
  | O => PFuel
  | S f =>
      match parse_value f s with
      | POk v r =>
          match skip_ws r with
          | c :: r' =>
              if c =? 44 then
                match parse_elements f r' with
                | POk vs rest => POk (v :: vs) rest
                | PErr => PErr | PFuel => PFuel
                end
              else if c =? 93 then POk [v] r'
              else PErr
          | [] => PErr
          end
      | PErr => PErr
      | PFuel => PFuel
      end
  end

(** The members of an object, after [{] or [,] and whitespace. *)
with parse_members (fuel : nat) (s : list N) {struct fuel}
    : presult (list (list N * json)) :=
  match fuel with
  | O => PFuel
  | S f =>
      match skip_ws s with
      | q :: r =>
          if q =? 34 then
            match lex_string r with
            | Some (key, r1) =>
                match skip_ws r1 with
                | colon :: r2 =>
                    if colon =? 58 then
                      match parse_value f r2 with
                      | POk v r3 =>
                          match skip_ws r3 with
                          | c :: r4 =>
                              if c =? 44 then
                                match parse_members f r4 with
                                | POk ms rest => POk ((key, v) :: ms) rest
                                | PErr => PErr | PFuel => PFuel
                                end
                              else if c =? 125 then POk [(key, v)] r4
                              else PErr
                          | [] => PErr
                          end
                      | PErr => PErr
                      | PFuel => PFuel
                      end
                    else PErr
                | [] => PErr
                end
            | None => PErr
            end
          else PErr
      | [] => PErr
      end
  end.

(** [JSON.parse(text)]: one value, then only whitespace. *)
Definition JSON_parse (text : list N) : outcome json :=
  match parse_value (S (2 * length text)) text with
  | POk v rest => match skip_ws rest with [] => Normal v | _ :: _ => Throw SyntaxError end
  | PErr | PFuel => Throw SyntaxError
  end.

(** ** The parser consumes its input and its fuel is enough *)

(** [option_bind_inv] splits a hypothesis [c ≫= f = Some x] on [c]. *)
Ltac option_bind_inv :=
  match goal with
  | H : mbind _ ?c = Some _ |- _ =>
      let E := fresh "E" in
      destruct c as [[]|] eqn:E; simpl in H; [|discriminate H]
  | H : mbind _ ?c = Some _ |- _ =>
      let E := fresh "E" in
      destruct c eqn:E; simpl in H; [|discriminate H]
  end.

Lemma skip_ws_length s : (length (skip_ws s) <= length s)%nat.
Proof. induction s as [|c s IH]; simpl; [lia|]. destruct (is_ws c); simpl; lia. Qed.

Lemma lex_string_length s b r : lex_string s = Some (b, r) -> (length r < length s)%nat.
Proof.
  revert b r. induction s as [s IH] using list_len_ind. intros b r Hs.
  destruct s as [|c s]; [done|]. simpl in Hs.
  repeat (case_match || option_bind_inv); simplify_eq; simpl in *;
    repeat match goal with
    | H : lex_string ?x = Some (_, _) |- _ =>
        apply IH in H; [|simpl; lia]
    end; simpl; lia.
Qed.

Lemma span_digits_length s : (length (span_digits s).1 + length (span_digits s).2 = length s)%nat.
Proof.
  induction s as [|c s IH]; simpl; [done|].
  destruct (is_digit c); [|done]. destruct (span_digits s) as [d r]. simpl in *. lia.
Qed.

Lemma lex_number_length s l r : lex_number s = Some (l, r) -> (length r < length s)%nat.
Proof.
  unfold lex_number, lex_int, lex_frac, lex_exp. intros Hs.
  repeat (case_match; simplify_eq/=);
    repeat match goal with
    | H : span_digits ?x = (?a, ?b) |- _ =>
        pose proof (span_digits_length x) as ?; rewrite H in *; clear H
    end; simpl in *; lia.
Qed.

Lemma lex_keyword_length kw s r :
  lex_keyword kw s = Some r -> (length r + length kw = length s)%nat.
Proof.
  unfold lex_keyword. destruct (str_eqb _ kw) eqn:Hkw; [|done]. apply str_eqb_eq in Hkw. intros [= <-].
  rewrite length_drop. rewrite <- Hkw, length_take. lia.
Qed.

(** [length_facts] turns the equations of the lexers into the length
    facts [lia] needs. *)
Ltac length_facts :=
  repeat match goal with
  | H : skip_ws ?x = ?y |- _ =>
      let L := fresh "L" in
      pose proof (skip_ws_length x) as L; rewrite H in *; clear H
  | H : lex_string _ = Some (_, _) |- _ => apply lex_string_length in H
  | H : lex_number _ = Some (_, _) |- _ => apply lex_number_length in H
  | H : lex_keyword _ _ = Some _ |- _ => apply lex_keyword_length in H
  end; simpl length in *.

Lemma parse_consumes f :
  (forall s v r, parse_value f s = POk v r -> (length r < length s)%nat) /\
  (forall s vs r, parse_elements f s = POk vs r -> (length r < length s)%nat) /\
  (forall s ms r, parse_members f s = POk ms r -> (length r < length s)%nat).
Proof.
  induction f as [|f (IHv & IHe & IHm)]; [repeat split; intros; discriminate|].
  repeat split; intros s a r H; simpl in H;
    repeat (case_match; simplify_eq);
    repeat match goal with
    | H : parse_value f _ = POk _ _ |- _ => apply IHv in H
    | H : parse_elements f _ = POk _ _ |- _ => apply IHe in H
    | H : parse_members f _ = POk _ _ |- _ => apply IHm in H
    end; length_facts; lia.
Qed.

Lemma parse_total f :
  (forall s, (2 * length s < f)%nat -> parse_value f s <> PFuel) /\
  (forall s, (2 * length s + 1 < f)%nat -> parse_elements f s <> PFuel) /\
  (forall s, (2 * length s + 1 < f)%nat -> parse_members f s <> PFuel).
Proof.
  induction f as [|f (IHv & IHe & IHm)]; [repeat split; intros; lia|].
  pose proof (parse_consumes f) as (Cv & Ce & Cm).
  repeat split; intros s Hs H; simpl in H;
    repeat (case_match; simplify_eq);
    repeat match goal with
    | H : parse_value f _ = POk _ _ |- _ => apply Cv in H
    | H : parse_elements f _ = POk _ _ |- _ => apply Ce in H
    | H : parse_members f _ = POk _ _ |- _ => apply Cm in H
    end; length_facts;
    match goal with
    | H : parse_value f _ = PFuel |- _ => eapply IHv; [|exact H]; cbn [length]; lia
    | H : parse_elements f _ = PFuel |- _ => eapply IHe; [|exact H]; cbn [length]; lia
    | H : parse_members f _ = PFuel |- _ => eapply IHm; [|exact H]; cbn [length]; lia
    end.
Qed.

(** ** Objects with duplicate keys *)

