(* ===== verification/JsonRoundtrip.v ===== *)
(** * [JSON.parse] reads back what [JSON.stringify] writes

    The string a user types is sent to the model inside
    [JSON.stringify({type: 'user', user: query})], and the tool's answer
    inside [JSON.stringify({type: 'observation', observation})].  This
    file shows that [JSON.parse] recovers such an object exactly: every
    string of well-formed code units, lone surrogates and control
    characters included, survives the escaping of [QuoteJSONString] and
    the unescaping of the parser. *)

From stdpp Require Import base list numbers sets.
From Stdlib Require Import NArith Lia.
From S2P Require Import Prelude JsString JsValue JsonPrint JsonParse.

Local Open Scope N_scope.

(** ** Strings *)

Lemma hex_value_digit n : n < 16 -> hex_value (hex_digit n) = Some n.
Proof.
  intros Hn. unfold hex_digit, hex_value.
  destruct (N.ltb_spec n 10); N_cases; simpl; try (f_equal; lia); exfalso; lia.
Qed.

Lemma hex4_unicode_escape c :
  c < 65536 ->
  hex4 (hex_digit (c / 4096 mod 16)) (hex_digit (c / 256 mod 16))
       (hex_digit (c / 16 mod 16)) (hex_digit (c mod 16)) = Some c.
Proof.
  intros Hc. unfold hex4.
  rewrite !hex_value_digit by (apply N.mod_lt; lia). simpl. f_equal.
  pose proof (N.div_mod c 16 ltac:(lia)).
  pose proof (N.div_mod (c / 16) 16 ltac:(lia)).
  pose proof (N.div_mod (c / 256) 16 ltac:(lia)).
  rewrite (N.Div0.div_div c 16 16) in *. rewrite (N.Div0.div_div c 256 16) in *.
  change (16 * 16) with 256 in *. change (256 * 16) with 4096 in *.
  rewrite (N.mod_small (c / 4096) 16) by (apply N.Div0.div_lt_upper_bound; lia).
  lia.
Qed.

(** A code unit that needs no escape is copied by the lexer. *)
Lemma lex_string_raw u t :
  u <> 34 -> u <> 92 -> 32 <= u ->
  lex_string (u :: t) = (fun '(b, r) => (u :: b, r)) <$> lex_string t.
Proof.
  intros H1 H2 H3. simpl.
  destruct (N.eqb_spec u 34); [done|]. destruct (N.eqb_spec u 92); [done|].
  destruct (N.ltb_spec u 32); [lia|]. by destruct (lex_string t) as [[]|].
Qed.

(** One quoted code point is lexed back to its UTF-16 encoding. *)
Lemma lex_string_quote_code_point c t :
  lex_string (quote_code_point c ++ t) =
  (fun '(b, r) => (utf16_encode c ++ b, r)) <$> lex_string t.
Proof.
  unfold quote_code_point.
  repeat match goal with
  | |- context [if (c =? ?k) then _ else _] =>
      destruct (N.eqb_spec c k) as [->|]; [cbn; by destruct (lex_string t) as [[]|]|]
  end.
  destruct ((c <? 32) || is_surrogate c) eqn:Hesc.
  - assert (Hc : c < 65536).
    { unfold is_surrogate in Hesc. apply orb_true_iff in Hesc as [H|H].
      - apply N.ltb_lt in H. lia.
      - apply andb_prop in H as [_ H]. apply N.leb_le in H. lia. }
    unfold unicode_escape. cbn [app lex_string].
    rewrite hex4_unicode_escape by done. simpl.
    rewrite utf16_encode_small by lia. by destruct (lex_string t) as [[]|].
  - apply orb_false_iff in Hesc as [Hlt _]. apply N.ltb_ge in Hlt.
    unfold utf16_encode. destruct (N.leb_spec c 0xFFFF).
    + simpl app. by rewrite lex_string_raw.
    + simpl app.
      remember ((c - 0x10000) / 0x400) as hi. remember ((c - 0x10000) mod 0x400) as lo.
      rewrite !lex_string_raw by lia.
      by destruct (lex_string t) as [[]|].
Qed.

Lemma lex_string_quote_code_points cps t :
  lex_string (flat_map quote_code_point cps ++ 34 :: t) =
  Some (code_points_to_string cps, t).
Proof.
  induction cps as [|c cps IH]; [done|].
  simpl. rewrite <- app_assoc, lex_string_quote_code_point, IH. done.
Qed.

(** String round trip: the body of a quoted string lexes back to the
    string, for any code units below [2^16]. *)
Lemma lex_string_quote s t :
  Forall (fun c => c <= 0xFFFF) s ->
  lex_string (quote_body s ++ 34 :: t) = Some (s, t).
Proof.
  intros Hs. unfold quote_body.
  by rewrite lex_string_quote_code_points, code_points_roundtrip.
Qed.

Definition well_formed_string (s : list N) : Prop := Forall (fun c => c <= 0xFFFF) s.

Lemma lit_ascii_bound_wf s : well_formed_string (lit s).
Proof. eapply Forall_mono; [apply lit_ascii_bound|]. simpl. lia. Qed.

Lemma quote_json_string_app s t :
  quote_json_string s ++ t = 34 :: quote_body s ++ 34 :: t.
Proof. unfold quote_json_string. simpl. by rewrite <- app_assoc. Qed.

Lemma parse_value_string f s t :
  well_formed_string s ->
  parse_value (S f) (quote_json_string s ++ t) = POk (JString s) t.
Proof.
  intros Hs. rewrite quote_json_string_app. cbn -[lex_string].
  by rewrite lex_string_quote.
Qed.

(** ** Objects whose values are strings *)

Definition string_member (kv : list N * list N) : list N :=
  quote_json_string kv.1 ++ [58] ++ quote_json_string kv.2.

Definition string_props (ps : list (list N * list N)) : list (list N * json) :=
  map (fun kv => (kv.1, JString kv.2)) ps.

Definition string_record (ps : list (list N * list N)) : list (list N * jsval) :=
  map (fun kv => (kv.1, VJson (JString kv.2))) ps.

Definition well_formed_members (ps : list (list N * list N)) : Prop :=
  Forall (fun kv => well_formed_string kv.1 /\ well_formed_string kv.2) ps.

Lemma serialize_string_record `{NumberOps} ps :
  serialize_record (string_record ps) = [123] ++ join_with [44] (map string_member ps) ++ [125].
Proof.
  unfold serialize_record. do 3 f_equal. unfold string_record.
  induction ps as [|kv ps IH]; [done|]. simpl. by f_equal.
Qed.

Lemma parse_members_strings f ps t :
  ps <> [] -> (length ps <= f)%nat -> well_formed_members ps ->
  parse_members (S f) (join_with [44] (map string_member ps) ++ 125 :: t) =
  POk (string_props ps) t.
Proof.
  revert f. induction ps as [|[k v] ps IH]; intros f Hne Hlen Hwf; [done|].
  inversion Hwf as [|? ? [Hk Hv] Hwf']; subst.
  destruct f as [|f]; [simpl in Hlen; lia|].
  remember (S f) as g eqn:Hg.
  destruct ps as [|kv' ps'].
  - simpl join_with. unfold string_member. simpl fst; simpl snd.
    rewrite <- !app_assoc, quote_json_string_app.
    cbn -[lex_string parse_value quote_json_string quote_body].
    rewrite lex_string_quote by done. cbn -[parse_value quote_json_string quote_body].
    subst g. rewrite parse_value_string by done. done.
  - change (join_with [44] (map string_member ((k, v) :: kv' :: ps')))
      with (string_member (k, v) ++ [44] ++ join_with [44] (map string_member (kv' :: ps'))).
    unfold string_member at 1. simpl fst; simpl snd.
    rewrite <- !app_assoc, quote_json_string_app.
    cbn -[lex_string parse_value quote_json_string quote_body join_with].
    rewrite lex_string_quote by done.
    cbn -[parse_value parse_members quote_json_string quote_body join_with].
    subst g. rewrite parse_value_string by done.
    cbn -[parse_members quote_json_string quote_body join_with].
    rewrite IH by (simpl in *; try done; lia). done.
Qed.

Lemma set_property_fresh k v ps :
  k ∉ map fst ps -> set_property k v ps = ps ++ [(k, v)].
Proof.
  induction ps as [|[k' v'] ps IH]; intros Hk; [done|]. simpl in *.
  rewrite str_eqb_neq by set_solver. rewrite IH by set_solver. done.
Qed.

Lemma fold_set_property acc ms :
  NoDup (map fst (acc ++ ms)) ->
  fold_left (fun ps kv => set_property kv.1 kv.2 ps) ms acc = acc ++ ms.
Proof.
  revert acc. induction ms as [|[k v] ms IH]; intros acc Hnd; simpl; [by rewrite app_nil_r|].
  rewrite set_property_fresh.
  - rewrite IH; [by rewrite <- app_assoc|]. by rewrite <- app_assoc.
  - rewrite map_app in Hnd. simpl in Hnd. apply NoDup_app in Hnd as (_ & Hdis & _).
    intros Hin. apply (Hdis k Hin). by left.
Qed.

(** Parsing an object whose keys are distinct keeps its members in
    order. *)
Lemma build_object_nodup ms : NoDup (map fst ms) -> build_object ms = ms.
Proof. intros Hnd. apply (fold_set_property [] ms Hnd). Qed.

Lemma string_props_keys ps : map fst (string_props ps) = map fst ps.
Proof. unfold string_props. rewrite map_map. done. Qed.

Lemma join_members_head kv ps :
  exists rest, join_with [44] (map string_member (kv :: ps)) = 34 :: rest.
Proof. destruct ps; simpl; unfold string_member, quote_json_string; eexists; reflexivity. Qed.

Lemma join_with_length sep (l : list (list N)) :
  Forall (fun x => x <> []) l -> (length l <= length (join_with sep l))%nat.
Proof.
  induction 1 as [|x l Hx Hl IH]; [simpl; lia|].
  destruct x as [|c x]; [done|]. destruct l as [|y l]; simpl in *; [lia|].
  rewrite !length_app in *. simpl in *. lia.
Qed.

Lemma parse_value_string_record F ps t :
  ps <> [] -> (S (length ps) <= F)%nat -> well_formed_members ps -> NoDup (map fst ps) ->
  parse_value (S F) ([123] ++ join_with [44] (map string_member ps) ++ 125 :: t) =
  POk (JObject (string_props ps)) t.
Proof.
  intros Hne HF Hwf Hnd. destruct ps as [|kv ps]; [done|].
  destruct (join_members_head kv ps) as [J HJ].
  destruct F as [|F]; [lia|].
  rewrite HJ. cbn -[parse_members string_props].
  change (34 :: J ++ 125 :: t) with ((34 :: J) ++ 125 :: t). rewrite <- HJ.
  rewrite parse_members_strings by (done || simpl in *; lia).
  rewrite build_object_nodup; [done|]. by rewrite string_props_keys.
Qed.

(** An object literal whose values are strings is read back by
    [JSON.parse] as the same object, members in the same order, for any
    well-formed strings and distinct keys. *)
Lemma parse_string_record `{NumberOps} ps :
  NoDup (map fst ps) -> well_formed_members ps ->
  JSON_parse (serialize_record (string_record ps)) = Normal (JObject (string_props ps)).
Proof.
  intros Hnd Hwf. rewrite serialize_string_record.
  destruct ps as [|kv ps]; [reflexivity|].
  assert (Hlen : (length (kv :: ps) <= length (join_with [44%N] (map string_member (kv :: ps))))%nat).
  { rewrite <- (length_map string_member). apply join_with_length.
    apply Forall_map, Forall_forall. intros kv' _. unfold string_member, quote_json_string. done. }
  unfold JSON_parse.
  rewrite parse_value_string_record; try done.
  rewrite !length_app. cbn [length] in *. lia.
Qed.

Lemma serialize_record_not_nil `{NumberOps} ps : serialize_record ps <> [].
Proof. unfold serialize_record. done. Qed.

(** C13: the envelope [JSON.stringify({type: 'user', user: query})] that
    the loop appends for a line typed at the prompt parses back to the
    object [{type: "user", user: query}] with exactly the typed text, for
    every string of UTF-16 code units. *)
Theorem user_envelope_roundtrip `{NumberOps} q :
  well_formed_string q ->
  JSON_parse (user_envelope q) = Normal (JObject [(‹"type"›, JString ‹"user"›); (‹"user"›, JString q)]).
Proof.
  intros Hq. apply (parse_string_record [(‹"type"›, ‹"user"›); (‹"user"›, q)]).
  - by apply (bool_decide_unpack _); vm_compute.
  - repeat constructor; try done; apply lit_ascii_bound_wf.
Qed.

(** Witness: a line with a character outside the BMP (a surrogate pair). *)
Lemma user_envelope_roundtrip_witness :
  well_formed_string [104%N; 0xD83D%N; 0xDE00%N] /\
  JSON_parse (@user_envelope literal_number_ops [104%N; 0xD83D%N; 0xDE00%N]) =
  Normal (JObject [(‹"type"›, JString ‹"user"›); (‹"user"›, JString [104%N; 0xD83D%N; 0xDE00%N])]).
Proof.
  assert (Hq : well_formed_string [104%N; 0xD83D%N; 0xDE00%N])
    by (apply (bool_decide_unpack _); vm_compute; reflexivity).
  split; [exact Hq | exact (@user_envelope_roundtrip literal_number_ops _ Hq)].
Defined.
