(* ===== verification/JsonValueRoundtrip.v ===== *)
(** * [JSON.parse] reads back [JSON.stringify] of every parsed value

    [JsonRoundtrip] covers the records of strings the program writes.  A
    value the model sends can be nested: an array, an object, [null] or a
    boolean, and [index2.js] sends such a value back inside an
    observation when the model calls the inherited [constructor] of
    [tools] (see [Loop2.constructor_echoes_input]).  This file shows
    [JSON.parse (serialize_json j) = j] for every value [j] that
    [json_ok] accepts: strings of UTF-16 code units, objects with
    distinct keys none of which is an array index (OrdinaryOwnPropertyKeys
    would list those first), and no numbers (their text is the engine's
    [Number::toString], the class [NumberOps]).  The parser's fuel,
    [2 * length + 1], is more than [json_size], the number of values and
    members it reads. *)

From stdpp Require Import base list numbers sets.
From Stdlib Require Import NArith Lia.
From S2P Require Import Prelude JsString JsValue JsonPrint JsonParse JsonRoundtrip.

(** ** The values that survive a round trip *)

Definition string_ok (s : list N) : bool := forallb (fun c => (c <=? 0xFFFF)%N) s.

Definition key_ok (k : list N) : bool :=
  string_ok k && match array_index k with None => true | Some _ => false end.

Fixpoint json_ok (j : json) : bool :=
  match j with
  | JNull | JBool _ => true
  | JNumber _ => false
  | JString s => string_ok s
  | JArray xs => forallb json_ok xs
  | JObject ps =>
      bool_decide (NoDup (map fst ps)) && forallb (fun kv => key_ok kv.1 && json_ok kv.2) ps
  end.

(** The number of values and members the parser reads, each with one
    unit of fuel. *)
Fixpoint json_size (j : json) : nat :=
  match j with
  | JArray xs => S (sum_list_with (fun x => S (json_size x)) xs)
  | JObject ps => S (sum_list_with (fun kv => S (json_size kv.2)) ps)
  | _ => 1
  end.

(** ** Lemmas *)

Lemma string_ok_wf s : string_ok s = true -> well_formed_string s.
Proof.
  unfold string_ok, well_formed_string. rewrite forallb_forall, Forall_forall.
  intros H c Hc. apply N.leb_le, H, list_elem_of_In, Hc.
Qed.

Lemma forallb_Forall {A} (f : A -> bool) l : forallb f l = true -> Forall (fun x => f x = true) l.
Proof. induction l as [|x l IH]; simpl; [constructor|]. intros [? ?]%andb_prop. by constructor; [|apply IH]. Qed.

Lemma skip_ws_cons c r : is_ws c = false -> skip_ws (c :: r) = c :: r.
Proof. intros Hc. simpl. by rewrite Hc. Qed.

Lemma join_with_cons sep x l :
  join_with sep (x :: l) = x ++ match l with [] => [] | _ :: _ => sep ++ join_with sep l end.
Proof. destruct l; simpl; [by rewrite app_nil_r | done]. Qed.

Lemma join_with_cons_ne sep x l :
  l <> [] -> join_with sep (x :: l) = x ++ sep ++ join_with sep l.
Proof. by destruct l. Qed.

(** The first code unit of a serialized value that [json_ok] accepts is
    a letter, a quote, or a bracket: never whitespace, []] or [}]. *)
Lemma serialize_json_head `{NumberOps} j :
  json_ok j = true ->
  exists c r, serialize_json j = c :: r /\ is_ws c = false /\ c <> 93%N /\ c <> 125%N.
Proof.
  destruct j as [|[]| | | |]; intros Hok; try discriminate;
    cbn [serialize_json]; rewrite ?quote_json_string_app; eexists _, _;
    (split; [reflexivity|]); split_and!; done.
Qed.

Lemma own_property_order_no_index {A} (ps : list (list N * A)) :
  Forall (fun kv => array_index kv.1 = None) ps -> own_property_order ps = ps.
Proof.
  intros Hps. unfold own_property_order.
  assert (Hfold : forall acc : list (N * (list N * A)),
    fold_left (fun acc kv => match array_index kv.1 with
                             | Some n => insert_index n kv acc | None => acc end) ps acc = acc).
  { induction Hps as [|kv ps Hkv _ IH]; intros acc; [done|]. simpl. rewrite Hkv. apply IH. }
  rewrite Hfold. simpl. clear Hfold.
  induction Hps as [|kv ps Hkv _ IH]; [done|]. simpl. rewrite Hkv. cbv iota. by rewrite IH.
Qed.

Lemma sum_list_with_le {A} (f g : A -> nat) l :
  Forall (fun x => f x <= g x)%nat l -> (sum_list_with f l <= sum_list_with g l)%nat.
Proof. induction 1; simpl; lia. Qed.

Section Roundtrip.
Context `{NumberOps}.

Definition member_text (kv : list N * json) : list N :=
  quote_json_string kv.1 ++ [58%N] ++ serialize_json kv.2.

Lemma serialize_object ps :
  Forall (fun kv => array_index kv.1 = None) ps ->
  serialize_json (JObject ps) = [123%N] ++ join_with [44%N] (map member_text ps) ++ [125%N].
Proof.
  intros Hk. cbn [serialize_json]. rewrite own_property_order_no_index.
  - by rewrite map_map.
  - rewrite Forall_map. exact Hk.
Qed.

(** The value a parse of [serialize_json x ++ t] reads, at every fuel
    above the value's size. *)
Definition parses_back (x : json) : Prop :=
  forall F t, (json_size x <= F)%nat -> parse_value F (serialize_json x ++ t) = POk x t.

Lemma parse_elements_back F xs t :
  xs <> [] -> Forall (fun x => json_ok x = true /\ parses_back x) xs ->
  (sum_list_with (fun x => S (json_size x)) xs <= F)%nat ->
  parse_elements F (join_with [44%N] (map serialize_json xs) ++ 93%N :: t) = POk xs t.
Proof.
  revert F. induction xs as [|x xs IH]; intros F Hne Hxs HF; [done|].
  apply Forall_cons_1 in Hxs as [[Hok Hx] Hxs].
  destruct F as [|F]; [simpl in HF; lia|]. cbn [sum_list_with] in HF.
  rewrite map_cons. cbn [parse_elements].
  destruct xs as [|x' xs].
  - cbn [map join_with]. rewrite Hx by lia. reflexivity.
  - rewrite join_with_cons_ne by done.
    rewrite <- app_assoc, Hx by lia. cbn -[parse_elements join_with serialize_json map].
    rewrite IH by (done || lia). reflexivity.
Qed.

Lemma parse_members_back F ps t :
  ps <> [] -> Forall (fun kv => key_ok kv.1 = true /\ json_ok kv.2 = true /\ parses_back kv.2) ps ->
  (sum_list_with (fun kv => S (json_size kv.2)) ps <= F)%nat ->
  parse_members F (join_with [44%N] (map member_text ps) ++ 125%N :: t) = POk ps t.
Proof.
  revert F. induction ps as [|[k v] ps IH]; intros F Hne Hps HF; [done|].
  apply Forall_cons_1 in Hps as [(Hk & Hok & Hv) Hps]. cbn [fst snd] in Hk, Hok, Hv.
  destruct F as [|F]; [simpl in HF; lia|]. cbn [sum_list_with fst snd] in HF.
  apply andb_prop in Hk as [Hk _]. apply string_ok_wf in Hk.
  rewrite map_cons.
  destruct ps as [|kv' ps].
  - cbn [map join_with]. unfold member_text. cbn [fst snd].
    rewrite <- !app_assoc, quote_json_string_app. cbn -[lex_string parse_value quote_body serialize_json].
    rewrite lex_string_quote by exact Hk. cbn -[parse_value parse_members].
    rewrite Hv by lia. reflexivity.
  - rewrite join_with_cons_ne by done. unfold member_text at 1. cbn [fst snd].
    rewrite <- !app_assoc, quote_json_string_app. cbn -[lex_string parse_value join_with member_text map quote_body serialize_json].
    rewrite lex_string_quote by exact Hk. cbn -[parse_value parse_members join_with member_text map].
    rewrite Hv by lia. cbn -[parse_members join_with member_text map].
    rewrite IH by (done || lia). reflexivity.
Qed.

Lemma parse_value_array F c r :
  is_ws c = false -> c <> 93%N ->
  parse_value (S F) (91%N :: c :: r) =
  match parse_elements F (c :: r) with
  | POk xs rest => POk (JArray xs) rest | PErr => PErr | PFuel => PFuel
  end.
Proof.
  intros Hws H93. cbn [parse_value]. rewrite (skip_ws_cons 91%N) by reflexivity.
  change (91 =? 123)%N with false. change (91 =? 91)%N with true. cbv iota beta.
  by rewrite (skip_ws_cons c r Hws), (proj2 (N.eqb_neq c 93%N) H93).
Qed.

(** The members of an object that [json_ok] accepts, with what the
    induction hypothesis says of their values. *)
Lemma json_ok_object ps :
  json_ok (JObject ps) = true ->
  NoDup (map fst ps) /\ Forall (fun kv => key_ok kv.1 = true /\ json_ok kv.2 = true) ps.
Proof.
  cbn [json_ok]. intros [Hnd Hall]%andb_prop. split; [by apply bool_decide_eq_true in Hnd|].
  eapply Forall_impl; [exact (forallb_Forall _ _ Hall)|]. intros kv. apply andb_prop.
Qed.

Lemma key_ok_no_index ps :
  Forall (fun kv => key_ok kv.1 = true /\ json_ok kv.2 = true) ps ->
  Forall (fun kv => array_index kv.1 = None) ps.
Proof.
  intros Hps. eapply Forall_impl; [exact Hps|]. intros kv [Hk _].
  apply andb_prop in Hk as [_ Hk]. by destruct (array_index kv.1).
Qed.

Lemma json_ok_parses_back j : json_ok j = true -> parses_back j.
Proof.
  induction j as [| b | n | s | xs IH | ps IH] using json_ind'; intros Hok F t HF;
    destruct F as [|F]; try (simpl in HF; lia).
  - reflexivity.
  - by destruct b.
  - discriminate.
  - apply parse_value_string, string_ok_wf, Hok.
  - destruct xs as [|x xs]; [reflexivity|]. cbn [json_ok] in Hok.
    assert (Hxs : Forall (fun x => json_ok x = true /\ parses_back x) (x :: xs)).
    { apply forallb_Forall in Hok. apply Forall_and; split; [exact Hok|].
      apply Forall_forall. intros y Hy.
      apply (proj1 (Forall_forall _ _) IH y Hy), (proj1 (Forall_forall _ _) Hok y Hy). }
    destruct (serialize_json_head x) as (c & r & Hc & Hws & H93 & _); [by apply andb_prop in Hok as []|].
    cbn [serialize_json json_size] in *.
    assert (Hs : exists r', join_with [44%N] (map serialize_json (x :: xs)) ++ 93%N :: t = c :: r').
    { rewrite map_cons, join_with_cons, Hc. by eexists. }
    destruct Hs as [r' Hs].
    replace (([91%N] ++ join_with [44%N] (map serialize_json (x :: xs)) ++ [93%N]) ++ t)
      with (91%N :: c :: r') by (rewrite <- Hs; cbn [app]; by rewrite <- app_assoc).
    rewrite parse_value_array by done.
    rewrite <- Hs, parse_elements_back by (done || lia); done.
  - apply json_ok_object in Hok as [Hnd Hps].
    destruct ps as [|[k v] ps]; [reflexivity|].
    rewrite serialize_object by (by apply key_ok_no_index).
    assert (Hps' : Forall (fun kv => key_ok kv.1 = true /\ json_ok kv.2 = true /\ parses_back kv.2)
                     ((k, v) :: ps)).
    { apply Forall_forall. intros kv Hkv. pose proof (proj1 (Forall_forall _ _) Hps kv Hkv) as [? ?].
      split_and!; [done | done |]. by apply (proj1 (Forall_forall _ _) IH). }
    assert (Hs : exists r', join_with [44%N] (map member_text ((k, v) :: ps)) ++ 125%N :: t = 34%N :: r').
    { rewrite map_cons, join_with_cons. unfold member_text at 1. cbn [fst]. by eexists. }
    destruct Hs as [r' Hs]. cbn [json_size] in HF.
    replace (([123%N] ++ join_with [44%N] (map member_text ((k, v) :: ps)) ++ [125%N]) ++ t)
      with (123%N :: 34%N :: r') by (rewrite <- Hs; cbn [app]; by rewrite <- app_assoc).
    simpl. rewrite <- Hs, parse_members_back by (done || lia).
    by rewrite build_object_nodup.
Qed.

Lemma sum_join_length {A} (f : A -> list N) l c :
  (sum_list_with (fun x => S (length (f x))) l <= S (length (join_with [c] (map f l))))%nat.
Proof.
  induction l as [|x l IH]; [simpl; lia|]. rewrite map_cons, join_with_cons.
  destruct l as [|y l]; simpl; rewrite ?length_app; simpl in *; lia.
Qed.

(** The parser needs less fuel than the text has code units. *)
Lemma json_size_le_length j : json_ok j = true -> (json_size j <= length (serialize_json j))%nat.
Proof.
  induction j as [| b | n | s | xs IH | ps IH] using json_ind'; intros Hok.
  - simpl; lia.
  - destruct b; simpl; lia.
  - discriminate.
  - cbn. rewrite length_app. simpl. lia.
  - cbn [json_ok] in Hok. cbn [json_size serialize_json]. rewrite !length_app. cbn [length].
    pose proof (sum_join_length serialize_json xs 44%N).
    enough (sum_list_with (fun x => S (json_size x)) xs <=
            sum_list_with (fun x => S (length (serialize_json x))) xs)%nat by lia.
    apply sum_list_with_le, Forall_forall. intros x Hx.
    enough (json_size x <= length (serialize_json x))%nat by lia.
    apply (proj1 (Forall_forall _ _) IH x Hx), (proj1 (Forall_forall _ _) (forallb_Forall _ _ Hok) x Hx).
  - apply json_ok_object in Hok as [_ Hps].
    rewrite serialize_object by (by apply key_ok_no_index).
    cbn [json_size]. rewrite !length_app. cbn [length].
    pose proof (sum_join_length member_text ps 44%N).
    enough (sum_list_with (fun kv => S (json_size kv.2)) ps <=
            sum_list_with (fun kv => S (length (member_text kv))) ps)%nat by lia.
    apply sum_list_with_le, Forall_forall. intros kv Hkv.
    assert (json_size kv.2 <= length (serialize_json kv.2))%nat.
    { apply (proj1 (Forall_forall _ _) IH kv Hkv), (proj1 (Forall_forall _ _) Hps kv Hkv). }
    unfold member_text. rewrite !length_app. lia.
Qed.

(** The parse at the fuel [JSON_parse] gives it reads the whole text. *)
Lemma parse_serialize_json j :
  json_ok j = true -> parse_value (S (2 * length (serialize_json j))) (serialize_json j) = POk j [].
Proof.
  intros Hok. pose proof (json_size_le_length j Hok).
  pose proof (json_ok_parses_back j Hok (S (2 * length (serialize_json j))) [] ltac:(lia)) as Hp.
  by rewrite app_nil_r in Hp.
Qed.

(** The observation [{type: "observation", observation}] of a value that
    serializes as [j] is the serialization of that object. *)
Lemma observation_envelope_json v j :
  serialize_value v = Some (serialize_json j) ->
  observation_envelope v = serialize_json (JObject [(‹"type"›, JString ‹"observation"›); (‹"observation"›, j)]).
Proof.
  intros Hv. rewrite serialize_object by (repeat constructor).
  unfold observation_envelope, serialize_record. cbn [omap list_omap snd]. rewrite Hv. reflexivity.
Qed.
End Roundtrip.

Lemma json_ok_observation e :
  json_ok (JObject [(‹"type"›, JString ‹"observation"›); (‹"observation"›, e)]) = json_ok e.
Proof. simpl. by destruct (json_ok e). Qed.

