(* ===== verification/Tools.v ===== *)
(** * The tool registry [tools] and the call [fn(call.input)]

    Both variants declare [const tools = { "getWeatherDetails":
    getWeatherDetails }] ([src/index.js:21-23], [src/index2.js:18-20]) and
    read it with [tools[call.function]] ([src/index.js:82],
    [src/index2.js:97]).  [tools] is an ordinary object: the read converts
    the key with ToPropertyKey and, when [tools] has no own property of
    that name, continues on [Object.prototype].  The eleven methods of
    [Object.prototype] and its [__proto__] accessor are therefore reachable
    by name, and calling one with [this] undefined does what ECMA-262 says
    it does.  The registry is parameterised by the weather function, since
    the two variants have different ones. *)

From stdpp Require Import base list numbers sets.
From Stdlib Require Import NArith Lia.
From S2P Require Import Prelude JsString JsValue.

(** The properties of [Object.prototype] (ECMA-262, 20.1.3, and Annex
    B.2.2 for the legacy accessors and [__proto__]). *)
Definition object_prototype_members : list (list N * jsval) :=
  [(‹"constructor"›, VFunction BObject);
   (‹"__defineGetter__"›, VFunction BDefineGetter);
   (‹"__defineSetter__"›, VFunction BDefineSetter);
   (‹"hasOwnProperty"›, VFunction BHasOwnProperty);
   (‹"__lookupGetter__"›, VFunction BLookupGetter);
   (‹"__lookupSetter__"›, VFunction BLookupSetter);
   (‹"isPrototypeOf"›, VFunction BIsPrototypeOf);
   (‹"propertyIsEnumerable"›, VFunction BPropertyIsEnumerable);
   (‹"toString"›, VFunction BToString);
   (‹"valueOf"›, VFunction BValueOf);
   (‹"__proto__"›, VObjectPrototype);
   (‹"toLocaleString"›, VFunction BToLocaleString)].

(** The own properties of [tools]. *)
Definition tools_own : list (list N * jsval) :=
  [(‹"getWeatherDetails"›, VFunction BGetWeatherDetails)].

Fixpoint lookup_member (k : list N) (ps : list (list N * jsval)) : option jsval :=
  match ps with
  | [] => None
  | (k', v) :: r => if str_eqb k k' then Some v else lookup_member k r
  end.

(** [tools[key]] for a property key: the own property, else the inherited
    one, else [undefined]. *)
Definition tools_get (key : list N) : jsval :=
  match lookup_member key tools_own with
  | Some v => v
  | None => default VUndefined (lookup_member key object_prototype_members)
  end.

(** [tools[v]]: ToPropertyKey(v) is ToString(ToPrimitive(v, string)). *)
Definition tools_index `{NumberOps} (v : option json) : outcome jsval :=
  key ← value_to_string v; Normal (tools_get key).

(** [Object(value)] called as a function: a new empty object for
    [undefined] and [null], the object itself for an object, and a
    wrapper object for a primitive. *)
Definition object_call (arg : option json) : jsval :=
  match arg with
  | None | Some JNull => VJson (JObject [])
  | Some (JObject ps) => VJson (JObject ps)
  | Some (JArray xs) => VJson (JArray xs)
  | Some j => VBoxed j
  end.

Section Call.
Context (getWeatherDetails : option json -> outcome jsval).

(** A built-in called with [this] undefined and one argument.
    [Object.prototype.toString] reports ["[object Undefined]"];
    [isPrototypeOf(V)] returns [false] when [V] is not an object before
    it looks at [this]; every other method starts with ToObject([this])
    (after ToPropertyKey of its argument for [hasOwnProperty] and
    [propertyIsEnumerable], which throws a TypeError or succeeds), and
    ToObject([undefined]) throws a TypeError. *)
Definition call_builtin (f : builtin) (arg : option json) : outcome jsval :=
  match f with
  | BGetWeatherDetails => getWeatherDetails arg
  | BObject => Normal (object_call arg)
  | BToString => Normal (VJson (JString ‹"[object Undefined]"›))
  | BIsPrototypeOf =>
      match arg with
      | Some (JObject _) | Some (JArray _) => Throw TypeError
      | _ => Normal (VJson (JBool false))
      end
  | BDefineGetter | BDefineSetter | BHasOwnProperty | BLookupGetter
  | BLookupSetter | BPropertyIsEnumerable | BValueOf | BToLocaleString =>
      Throw TypeError
  end.

(** [fn(arg)]: calling a value that is not a function throws. *)
Definition call_value (fn : jsval) (arg : option json) : outcome jsval :=
  match fn with
  | VFunction f => call_builtin f arg
  | _ => Throw TypeError
  end.
End Call.

(** ** Lemmas *)

Definition registry_names : list (list N) :=
  ‹"getWeatherDetails"› :: map fst object_prototype_members.

Lemma lookup_member_None k ps :
  lookup_member k ps = None <-> k ∉ map fst ps.
Proof.
  induction ps as [|[k' v'] ps IH]; simpl; [set_solver|].
  case_str_eqb; subst; [set_solver|]. rewrite IH. set_solver.
Qed.

Lemma tools_get_not_registered key :
  key ∉ registry_names -> tools_get key = VUndefined.
Proof.
  intros Hk. unfold registry_names in Hk. apply not_elem_of_cons in Hk as [Hk1 Hk2].
  unfold tools_get.
  rewrite (proj2 (lookup_member_None _ tools_own)) by (simpl; set_solver).
  by rewrite (proj2 (lookup_member_None _ _)).
Qed.

(** C22: [tools[key]] is a function exactly for the tool's own name and
    the eleven method names inherited from [Object.prototype]; for any key
    that is not one of these names or [__proto__] it is [undefined].  The
    registry has one entry in the source, but twelve names resolve to a
    callable value. *)
Theorem tools_get_callable key :
  is_callable (tools_get key) = bool_decide (key ∈ registry_names /\ key <> ‹"__proto__"›) /\
  (tools_get key = VUndefined <-> key ∉ registry_names).
Proof.
  destruct (decide (key ∈ registry_names)) as [Hin | Hout].
  - assert (Hreg : key ∈ registry_names) by done.
    unfold registry_names in Hin; simpl in Hin.
    repeat (apply elem_of_cons in Hin as [-> | Hin]);
      [.. | by apply not_elem_of_nil in Hin];
      (split; [vm_compute; reflexivity | split; [vm_compute; discriminate | done]]).
  - rewrite tools_get_not_registered by done. rewrite bool_decide_eq_false_2 by naive_solver.
    naive_solver.
Qed.
