(* ===== verification/Chat.v ===== *)
(** * The conversation: messages, the completion endpoint, the loops

    What both variants share: the role-tagged message log, the body of a
    completion request, the hosted completion endpoint (external to the
    repository, a class [ChatEndpoint] whose contract [EndpointContract]
    is taken from the spec, section 6), what the program writes to the
    console, and the two nested [while (true)] loops of
    [src/index.js:58-88] and [src/index2.js:64-113], parameterised by the
    body of the inner loop and by what happens to the log after a
    completed exchange. *)

From stdpp Require Import base list numbers.
From Stdlib Require Import NArith Lia.
From S2P Require Import Prelude JsString JsValue JsonPrint JsonParse JsonRoundtrip Tools.

(** The system prompts are template literals of the source.  They are
    written here with an apostrophe for each quotation mark and a tilde
    for each degree sign; [prompt_text] puts the two characters back. *)
Fixpoint prompt_text (s : String.string) : list N :=
  match s with
  | String.EmptyString => []
  | String.String a r =>
      (let c := ascii_code a in
       if (c =? 39)%N then 34%N else if (c =? 126)%N then 176%N else c) :: prompt_text r
  end.

Section Prompts.
Import Stdlib.Strings.String.

Definition SYSTEM_PROMPT_js : list N := prompt_text "
You are an AI Assistant with START, PLAN, ACTION, Observation and Output State.
Wait for the user prompt and first PLAN using available tools.
After Planning, Take the action with appropriate tools and wait for Observation based on Action.
Once you get the observations, return the AI response based on START prompt and observations.

strictly follow the json output format as in examples

Available Tools:
- function getWeatherDetails(city: string): string
getWeatherDetails is a function which takes city name as string and return weather details

EXAMPLE:

START
{ 'type': 'user', 'user': 'What is the sum of weather of Patiala and Mohali?' }
{ 'type': 'plan', 'plan': 'I will call the getWeatherDetails for Patiala' }
{ 'type': 'action', 'function': 'getWeatherDetails', 'input': 'patiala' }
{ 'type': 'observation', 'observation': '10~C' }
{ 'type': 'plan', 'plan': 'I will call getWeatherDetails for Mohali' }
{ 'type': 'action', 'function': 'getWeatherDetails', 'input': 'mohali' }
{ 'type': 'observation', 'observation': '14~C' }
{ 'type': 'output', 'output': 'The sum of weather of Patiala and Mohali is 24~C' }


".

Definition SYSTEM_PROMPT_2 : list N := prompt_text "
You are an AI Assistant with START, PLAN, ACTION, Observation and Output State.
Wait for the user prompt and first PLAN using available tools.
After Planning, Take the action with appropriate tools and wait for Observation based on Action.
Once you get the observations, return the AI response based on START prompt and observations.

Strictly follow the JSON output format as in examples

Available Tools:
- function getWeatherDetails(city: string): string
getWeatherDetails is a function which takes city name as string and return weather details

EXAMPLE:

START
{ 'type': 'user', 'user': 'What is the weather in Patiala and Mohali?' }
{ 'type': 'plan', 'plan': 'I will call getWeatherDetails for Patiala first.' }
{ 'type': 'action', 'function': 'getWeatherDetails', 'input': 'patiala' }
{ 'type': 'observation', 'observation': '10~C' }
{ 'type': 'plan', 'plan': 'I will now call getWeatherDetails for Mohali.' }
{ 'type': 'action', 'function': 'getWeatherDetails', 'input': 'mohali' }
{ 'type': 'observation', 'observation': '12~C' }
{ 'type': 'output', 'output': 'The weather in Patiala is 10~C, and in Mohali is 12~C.' }
".
End Prompts.

(** ** Messages and requests *)

Inductive role := RSystem | RUser | RAssistant | RDeveloper.

#[export] Instance role_eq_dec : EqDecision role.
Proof. solve_decision. Defined.

(** [{role, content}]; the content of an assistant message is [null] when
    the endpoint's choice carries no text. *)
Record message := Msg { msg_role : role; msg_content : option (list N) }.

Inductive body_value :=
  | BVString (s : list N)
  | BVMessages (ms : list message)
  | BVObject (ps : list (list N * list N)).

(** The object passed to [chat.completions.create], its keys in order. *)
Abbreviation body := (list (list N * body_value)).

Fixpoint body_field (k : list N) (b : body) : option body_value :=
  match b with
  | [] => None
  | (k', v) :: r => if str_eqb k k' then Some v else body_field k r
  end.

(** ** The completion endpoint *)

Record choice := Choice { choice_content : option (list N) }.

Inductive api_reply :=
  | ApiFailure                       (** the client's promise rejects *)
  | ApiSuccess (choices : list choice).

(** The endpoint answers the [n]-th request of the run ([n] from 0) with
    body [b]; the number lets it answer the same log differently. *)
Class ChatEndpoint := endpoint_reply : nat -> body -> api_reply.

(** The wire contract of the spec (section 6): a request is an object with
    a [messages] field; a request without one is refused. *)
Class EndpointContract (ep : ChatEndpoint) : Prop :=
  reply_requires_messages :
    forall n b, body_field ‹"messages"› b = None -> endpoint_reply n b = ApiFailure.

(** An endpoint that answers the [n]-th request with the [n]-th text of
    a script, and refuses requests without [messages]. *)
Definition scripted (replies : list (list N)) : ChatEndpoint :=
  fun n b =>
    match body_field ‹"messages"› b, replies !! n with
    | Some _, Some t => ApiSuccess [Choice (Some t)]
    | _, _ => ApiFailure
    end.

(** ** Console and loop state *)

Inductive error_site :=
  | ErrApiCall                   (** "Error in Groq API call:" *)
  | ErrNoContent                 (** "Error: No response content from Groq API." *)
  | ErrParse                     (** "Error parsing JSON response:" *)
  | ErrRawResponse (raw : list N) (** "Raw response:" and the answer *)
  | ErrNotFound (name : list N)  (** "Error: Function <name> not found." *)
  | ErrProcessing                (** "Error during processing:" *)
  | ErrUncaught (e : js_error).  (** "Error:" and the error, [main().catch] *)

Inductive event :=
  | EPrompt                  (** [readlineSync.question('>> ')] writes its prompt *)
  | EPrint (line : list N)   (** [console.log] *)
  | EError (site : error_site).  (** [console.error] *)

(** The log [messages], the number of completion requests made so far and
    the console output. *)
Record state := St { messages : list message; calls : nat; trace : list event }.

Definition push (m : message) (st : state) : state :=
  St (messages st ++ [m]) (calls st) (trace st).
Definition emit (e : event) (st : state) : state :=
  St (messages st) (calls st) (trace st ++ [e]).
Definition count_call (st : state) : state :=
  St (messages st) (S (calls st)) (trace st).

(** How one pass of the inner loop's body ends: [continue], [break],
    [return] from [main], or an exception that escapes to the top level. *)
Inductive iter_result :=
  | IContinue (st : state)
  | IBreak (st : state)
  | IReturn (st : state)
  | ICrash (e : js_error) (st : state).

(** The inner [while (true)], with [fuel] passes at most; [None] when the
    fuel runs out while the loop still continues. *)
Fixpoint exchange (iteration : state -> iter_result) (fuel : nat) (st : state)
    : option iter_result :=
  match fuel with
  | O => None
  | S f =>
      match iteration st with
      | IContinue st' => exchange iteration f st'
      | r => Some r
      end
  end.

(** How a run of the program ends: waiting at the prompt when the given
    input lines are used up, [main] returned, an uncaught exception, or an
    exchange that was still going when its fuel ran out. *)
Inductive run_result :=
  | Idle (st : state)
  | Stopped (st : state)
  | Crashed (e : js_error) (st : state)
  | Diverged (st : state).

(** The outer [while (true)]: prompt, read a line, append it as a user
    envelope, run the exchange; [after_turn] is applied after a [break]. *)
Fixpoint repl `{NumberOps} (iteration : state -> iter_result) (after_turn : state -> state)
    (fuel : nat) (inputs : list (list N)) (st : state) : run_result :=
  match inputs with
  | [] => Idle st
  | q :: qs =>
      let st1 := push (Msg RUser (Some (user_envelope q))) (emit EPrompt st) in
      match exchange iteration fuel st1 with
      | Some (IBreak st2) => repl iteration after_turn fuel qs (after_turn st2)
      | Some (IReturn st2) => Stopped st2
      | Some (ICrash e st2) => Crashed e st2
      | Some (IContinue st2) => Diverged st2
      | None => Diverged st1
      end
  end.

(** The first choice's content: [chat.choices[0]?.message?.content]. *)
Definition first_content (chs : list choice) : option (list N) :=
  match chs with c :: _ => choice_content c | [] => None end.

(** ** Answers of the model in the format the system prompt asks for *)

Definition plan_reply `{NumberOps} (p : list N) : list N :=
  serialize_record (string_record [(‹"type"›, ‹"plan"›); (‹"plan"›, p)]).

Definition action_reply `{NumberOps} (fn input : list N) : list N :=
  serialize_record (string_record
    [(‹"type"›, ‹"action"›); (‹"function"›, fn); (‹"input"›, input)]).

Definition output_reply `{NumberOps} (t : list N) : list N :=
  serialize_record (string_record [(‹"type"›, ‹"output"›); (‹"output"›, t)]).

(** [solve_record] discharges the side conditions of [parse_string_record]
    on a record with literal keys. *)
Ltac solve_record :=
  lazymatch goal with
  | |- NoDup _ => apply (bool_decide_unpack _); vm_compute; reflexivity
  | |- well_formed_members _ =>
      repeat (apply Forall_cons_2;
              [split; [apply lit_ascii_bound_wf | first [assumption | apply lit_ascii_bound_wf]] |]);
      apply Forall_nil_2
  end.

Definition run_state (r : run_result) : state :=
  match r with Idle st | Stopped st | Crashed _ st | Diverged st => st end.

(** An endpoint that answers every request with the same text. *)
Definition constant_reply (text : list N) : ChatEndpoint :=
  fun _ b =>
    match body_field ‹"messages"› b with
    | Some _ => ApiSuccess [Choice (Some text)]
    | None => ApiFailure
    end.

(** An endpoint that answers a plan to the requests before the [k]-th
    and an output from then on. *)
Definition plans_then_output `{NumberOps} (k : nat) (p t : list N) : ChatEndpoint :=
  fun n b =>
    match body_field ‹"messages"› b with
    | Some _ => ApiSuccess [Choice (Some (if Nat.ltb n k then plan_reply p else output_reply t))]
    | None => ApiFailure
    end.

(** The object [{type: "action", function: fname, input}] as parsed. *)
Definition action_call (fname input : list N) : json :=
  JObject (string_props [(‹"type"›, ‹"action"›); (‹"function"›, fname); (‹"input"›, input)]).

Definition iter_state (r : iter_result) : state :=
  match r with IContinue st | IBreak st | IReturn st | ICrash _ st => st end.

Definition is_crash (r : iter_result) : bool :=
  match r with ICrash _ _ => true | _ => false end.

(** [st'] is [st] with messages appended and requests counted. *)
Definition extends (st st' : state) : Prop :=
  messages st `prefix_of` messages st' /\ (calls st <= calls st')%nat.

(** The contents of the user messages of a log, in order. *)
Definition user_lines (ms : list message) : list (option (list N)) :=
  map msg_content (List.filter (fun m => match msg_role m with RUser => true | _ => false end) ms).

(** [st'] is [st] with messages appended, each of which satisfies [P]. *)
Definition appends (P : message -> Prop) (st st' : state) : Prop :=
  exists ms, messages st' = messages st ++ ms /\ Forall P ms.

(** A message that is not a user message. *)
Definition not_user (m : message) : Prop := msg_role m <> RUser.

(** An assistant message with a text. *)
Definition assistant_text (m : message) : Prop := msg_role m = RAssistant /\ is_Some (msg_content m).

(** A message of the type of spec section 3: the role is one of
    [system], [user], [assistant] and the content is a string. *)
Definition spec_message (m : message) : Prop :=
  msg_role m ∈ [RSystem; RUser; RAssistant] /\ is_Some (msg_content m).

(** ** Lemmas on the log *)

Lemma extends_refl st : extends st st.
Proof. split; [reflexivity|lia]. Qed.
Lemma extends_trans st1 st2 st3 : extends st1 st2 -> extends st2 st3 -> extends st1 st3.
Proof. intros [H1 H2] [H3 H4]. split; [by trans (messages st2)|lia]. Qed.
Lemma extends_push m st : extends st (push m st).
Proof. split; [by apply prefix_app_r|simpl; lia]. Qed.
Lemma extends_emit e st : extends st (emit e st).
Proof. split; [reflexivity|simpl; lia]. Qed.
Lemma extends_count_call st : extends st (count_call st).
Proof. split; [reflexivity|simpl; lia]. Qed.

#[export] Hint Resolve extends_refl extends_push extends_emit extends_count_call : js.

(** [extends_tac] proves [extends st st'] when [st'] is [st] under a
    sequence of [push], [emit] and [count_call]. *)
Ltac extends_tac :=
  repeat match goal with
  | |- extends ?s ?s => apply extends_refl
  | |- extends ?s (push _ ?s') => apply (extends_trans _ s'); [|apply extends_push]
  | |- extends ?s (emit _ ?s') => apply (extends_trans _ s'); [|apply extends_emit]
  | |- extends ?s (count_call ?s') => apply (extends_trans _ s'); [|apply extends_count_call]
  end.

(** The inner loop only extends the state, whatever the body does, as
    long as each pass does. *)
Lemma exchange_extends (it : state -> iter_result) fuel st r :
  (forall s, extends s (iter_state (it s))) ->
  exchange it fuel st = Some r -> extends st (iter_state r).
Proof.
  intros Hit. revert st. induction fuel as [|fuel IH]; intros st H; [done|].
  simpl in H. specialize (Hit st). destruct (it st) eqn:E; simplify_eq/=; try done.
  eapply extends_trans; [exact Hit|]. by apply IH.
Qed.

(** If no pass crashes, no exchange does. *)
Lemma exchange_no_crash (it : state -> iter_result) fuel st r :
  (forall s, is_crash (it s) = false) ->
  exchange it fuel st = Some r -> is_crash r = false.
Proof.
  intros Hit. revert st. induction fuel as [|fuel IH]; intros st H; [done|].
  simpl in H. specialize (Hit st). destruct (it st) eqn:E; simplify_eq/=; try done.
  by apply (IH st0).
Qed.

#[export] Instance constant_reply_contract text : EndpointContract (constant_reply text).
Proof. intros n b Hb. unfold endpoint_reply, constant_reply. by rewrite Hb. Qed.


Lemma user_lines_app ms ms' : user_lines (ms ++ ms') = user_lines ms ++ user_lines ms'.
Proof. unfold user_lines. by rewrite filter_app, map_app. Qed.

Lemma user_lines_no_user ms : Forall (fun m => msg_role m <> RUser) ms -> user_lines ms = [].
Proof. induction 1 as [|[[] c] ms Hm _ IH]; simpl in *; done. Qed.

Section Appends.
Context (P : message -> Prop).

Lemma appends_trans st1 st2 st3 : appends P st1 st2 -> appends P st2 st3 -> appends P st1 st3.
Proof.
  intros (ms & H1 & F1) (ms' & H2 & F2). exists (ms ++ ms').
  rewrite H2, H1, app_assoc. split; [done|]. by apply Forall_app.
Qed.

(** The inner loop appends only messages satisfying [P] if every pass
    does. *)
Lemma exchange_appends (it : state -> iter_result) fuel st r :
  (forall s, appends P s (iter_state (it s))) ->
  exchange it fuel st = Some r -> appends P st (iter_state r).
Proof.
  intros Hit. revert st. induction fuel as [|fuel IH]; intros st H; [done|].
  simpl in H. specialize (Hit st). destruct (it st) eqn:E; simplify_eq/=; try done.
  eapply appends_trans; [exact Hit|]. by apply IH.
Qed.
End Appends.

(** [appends_tac] proves [appends P st st'] when [st'] is [st] under
    [emit], [count_call] and at most one [push] of a message that
    satisfies [P] by computation. *)
Ltac appends_tac :=
  first
    [ exists []; split; [simpl; by rewrite app_nil_r | apply Forall_nil_2]
    | eexists [_]; split; [reflexivity | apply Forall_cons_2; [|apply Forall_nil_2]];
      first [unfold not_user; discriminate | unfold assistant_text; split; [reflexivity | by eexists]] ].

(** If every pass makes exactly one request, an exchange that ends
    within [fuel] passes made at least one and at most [fuel] requests. *)
Lemma exchange_calls (it : state -> iter_result) fuel st r :
  (forall s, calls (iter_state (it s)) = S (calls s)) ->
  exchange it fuel st = Some r ->
  (calls st < calls (iter_state r) <= calls st + fuel)%nat.
Proof.
  intros Hit. revert st. induction fuel as [|fuel IH]; intros st H; [done|].
  simpl in H. specialize (Hit st). destruct (it st) eqn:E; simplify_eq/=; try lia.
  apply IH in H. lia.
Qed.

(** If every pass appends at most [k] messages, an exchange that ends
    within [fuel] passes appended at most [k * fuel]. *)
Lemma exchange_length (it : state -> iter_result) k fuel st r :
  (forall s, length (messages (iter_state (it s))) <= length (messages s) + k)%nat ->
  exchange it fuel st = Some r ->
  (length (messages (iter_state r)) <= length (messages st) + k * fuel)%nat.
Proof.
  intros Hit. revert st. induction fuel as [|fuel IH]; intros st H; [done|].
  simpl in H. specialize (Hit st). destruct (it st) eqn:E; simplify_eq/=; try lia.
  apply IH in H. lia.
Qed.
