(* ===== verification/Loop2.v ===== *)
(** * The agent loop of [src/index2.js]

    [main] ([src/index2.js:59-114]) keeps the log [messages], seeded with
    the system prompt.  Each pass of the inner loop asks the endpoint for
    a completion ([getGroqChatCompletion], lines 47-57), refuses an empty
    answer, appends the answer to the log, parses it, and dispatches on
    [call.type] with [===]: ["output"] prints [Bot: <output>] and ends the
    exchange, ["action"] runs the named tool and appends the observation
    as an assistant message, anything else goes round again.  Every error
    is reported on the console and makes [main] return.  After an
    exchange the log is cut back to the system prompt (line 112). *)

From stdpp Require Import base list numbers.
From Stdlib Require Import NArith Lia.
From S2P Require Import Prelude JsString JsValue Weather JsonPrint JsonParse JsonRoundtrip JsonValueRoundtrip Tools Chat.

Module Loop2.
Section Loop2.
Context `{CaseMapping} `{NumberOps} `{ChatEndpoint}.

Definition model_id : list N := ‹"llama-3.3-70b-versatile"›.

(** [{ messages, model }] of [getGroqChatCompletion] *)
Definition request_body (ms : list message) : body :=
  [(‹"messages"›, BVMessages ms); (‹"model"›, BVString model_id)].

Definition initial_state : state :=
  St [Msg RSystem (Some SYSTEM_PROMPT_2)] 0 [].

(** The body of the [try] after [JSON.parse] (lines 93-106). *)
Definition dispatch (call : json) (st : state) : outcome iter_result :=
  ty ← get_field call FType;
  if strict_eq_word ty ‹"output"› then
    out ← get_field call FOutput;
    text ← value_to_string out;
    Normal (IBreak (emit (EPrint (‹"Bot: "› ++ text)) st))
  else if strict_eq_word ty ‹"action"› then
    fname ← get_field call FFunction;
    fn ← tools_index fname;
    if negb (is_callable fn) then
      name ← value_to_string fname;
      Normal (IReturn (emit (EError (ErrNotFound name)) st))
    else
      input ← get_field call FInput;
      observation ← call_value Index2Js.getWeatherDetails fn input;
      Normal (IContinue (push (Msg RAssistant (Some (observation_envelope observation))) st))
  else Normal (IContinue st).

(** One pass of the inner loop (lines 73-110).  A failed request is
    logged by [getGroqChatCompletion], rethrown, and logged again by the
    [catch] of the loop. *)
Definition iteration (st : state) : iter_result :=
  let st1 := count_call st in
  match endpoint_reply (calls st) (request_body (messages st)) with
  | ApiFailure => IReturn (emit (EError ErrProcessing) (emit (EError ErrApiCall) st1))
  | ApiSuccess chs =>
      match first_content chs with
      | None | Some [] => IReturn (emit (EError ErrNoContent) st1)
      | Some result =>
          let st2 := push (Msg RAssistant (Some result)) st1 in
          match JSON_parse result with
          | Throw _ => IReturn (emit (EError (ErrRawResponse result)) (emit (EError ErrParse) st2))
          | Normal call =>
              match dispatch call st2 with
              | Normal r => r
              | Throw _ => IReturn (emit (EError ErrProcessing) st2)
              end
          end
      end
  end.

(** [messages.splice(1, messages.length - 1)] *)
Definition reset (st : state) : state :=
  St (take 1 (messages st)) (calls st) (trace st).

(** [main] on the given input lines, each exchange with [fuel] passes. *)
Definition main (fuel : nat) (inputs : list (list N)) : run_result :=
  repl iteration reset fuel inputs initial_state.

(** [main().catch((error) => console.error("Error:", error))]
    (line 116): a rejection of [main] is reported, and the program ends. *)
Definition program (fuel : nat) (inputs : list (list N)) : run_result :=
  match main fuel inputs with
  | Crashed e st => Stopped (emit (EError (ErrUncaught e)) st)
  | r => r
  end.
End Loop2.
End Loop2.

(** The script of the scenario of spec section 8. *)
Section ScenarioScript.
Context `{nops : NumberOps}.
Definition patiala_script (p t : list N) : ChatEndpoint :=
  scripted [plan_reply p; action_reply ‹"getWeatherDetails"› ‹"patiala"›; output_reply t].

End ScenarioScript.

(** The log starts with the system prompt of [index2.js]. *)
Definition starts_with_system (st : state) : Prop :=
  exists rest, messages st = Msg RSystem (Some SYSTEM_PROMPT_2) :: rest.

(** ** Lemmas on one pass of the loop *)

Section Steps.
Context `{cm : CaseMapping} `{nops : NumberOps} `{ep : ChatEndpoint}.

(** A pass whose answer is a non-empty text that parses. *)
Lemma iteration_parsed st text call :
  endpoint_reply (calls st) (Loop2.request_body (messages st)) = ApiSuccess [Choice (Some text)] ->
  text <> [] -> JSON_parse text = Normal call ->
  Loop2.iteration st =
  let st2 := push (Msg RAssistant (Some text)) (count_call st) in
  match Loop2.dispatch call st2 with
  | Normal r => r
  | Throw _ => IReturn (emit (EError ErrProcessing) st2)
  end.
Proof.
  intros Hrep Hne Hparse. unfold Loop2.iteration. rewrite Hrep. simpl.
  destruct text; [done|]. by rewrite Hparse.
Qed.

Lemma exchange_step st f :
  exchange Loop2.iteration (S f) st =
  match Loop2.iteration st with IContinue st' => exchange Loop2.iteration f st' | r => Some r end.
Proof. reflexivity. Qed.
End Steps.

(** One pass on a parsed string record, computed. *)
Ltac loop2_step text call :=
  rewrite exchange_step, (iteration_parsed _ text call);
  [| reflexivity | apply serialize_record_not_nil | apply parse_string_record; solve_record];
  cbn -[plan_reply action_reply output_reply degrees observation_envelope Loop2.iteration
        Index2Js.getWeatherDetails exchange].

Section Scenario.
Context `{cm : CaseMapping} `{!CaseMappingLaws cm} `{nops : NumberOps}.

Lemma scenario_exchange p t ms tr f :
  well_formed_string p -> well_formed_string t ->
  @exchange (@Loop2.iteration cm nops (patiala_script p t)) (S (S (S f))) (St ms 0 tr) =
  Some (IBreak (St (ms ++ [Msg RAssistant (Some (plan_reply p));
                           Msg RAssistant (Some (action_reply ‹"getWeatherDetails"› ‹"patiala"›));
                           Msg RAssistant (Some (observation_envelope (VJson (JString (degrees ‹"10"›)))));
                           Msg RAssistant (Some (output_reply t))])
                   3 (tr ++ [EPrint (‹"Bot: "› ++ t)]))).
Proof.
  intros Hp Ht.
  loop2_step (plan_reply p) (JObject (string_props [(‹"type"›, ‹"plan"›); (‹"plan"›, p)])).

  loop2_step (action_reply ‹"getWeatherDetails"› ‹"patiala"›)
    (JObject (string_props [(‹"type"›, ‹"action"›); (‹"function"›, ‹"getWeatherDetails"›);
                            (‹"input"›, ‹"patiala"›)])).
  rewrite index2_weather_ascii by (apply (bool_decide_unpack _); vm_compute; reflexivity).
  cbn -[plan_reply action_reply output_reply degrees observation_envelope Loop2.iteration exchange].
  loop2_step (output_reply t) (JObject (string_props [(‹"type"›, ‹"output"›); (‹"output"›, t)])).
  unfold push, emit, count_call. simpl. by rewrite <- !app_assoc.
Qed.

(** C1: the scenario of the spec (section 8) on [index2.js], for every
    line [q] typed at the prompt, every plan text [p] and output text [t]:
    when the model answers a plan, then the action
    [getWeatherDetails("patiala")], then an output, the exchange calls
    the tool once, records one observation whose value is ["10°C"],
    prints exactly [Bot: t], and [main] is back at the prompt with the log
    cut to the system prompt; three passes are enough. *)
Theorem scenario_patiala q p t f :
  well_formed_string p -> well_formed_string t ->
  @exchange (@Loop2.iteration cm nops (patiala_script p t)) (S (S (S f)))
    (St [Msg RSystem (Some SYSTEM_PROMPT_2); Msg RUser (Some (user_envelope q))] 0 [EPrompt]) =
  Some (IBreak (St [Msg RSystem (Some SYSTEM_PROMPT_2); Msg RUser (Some (user_envelope q));
                    Msg RAssistant (Some (plan_reply p));
                    Msg RAssistant (Some (action_reply ‹"getWeatherDetails"› ‹"patiala"›));
                    Msg RAssistant (Some (observation_envelope (VJson (JString (degrees ‹"10"›)))));
                    Msg RAssistant (Some (output_reply t))]
                   3 [EPrompt; EPrint (‹"Bot: "› ++ t)])) /\
  @Loop2.main cm nops (patiala_script p t) (S (S (S f))) [q] =
  Idle (St [Msg RSystem (Some SYSTEM_PROMPT_2)] 3 [EPrompt; EPrint (‹"Bot: "› ++ t)]).
Proof.
  intros Hp Ht. split.
  - rewrite scenario_exchange by done. done.
  - unfold Loop2.main, repl, Loop2.initial_state, push, emit.
    cbn -[exchange user_envelope SYSTEM_PROMPT_2 lit].
    rewrite scenario_exchange by done. done.
Qed.
End Scenario.

(** ** Safety: what a pass does to the state *)

Section Safety.
Context `{cm : CaseMapping} `{nops : NumberOps} `{ep : ChatEndpoint}.

Lemma dispatch_extends call st r :
  Loop2.dispatch call st = Normal r -> is_crash r = false /\ extends st (iter_state r).
Proof.
  unfold Loop2.dispatch. intros H.
  repeat (outcome_inv || case_match); simplify_eq/=; (split; [done|extends_tac]).
Qed.

Lemma iteration_extends st :
  is_crash (Loop2.iteration st) = false /\ extends st (iter_state (Loop2.iteration st)).
Proof.
  unfold Loop2.iteration.
  repeat case_match; simplify_eq/=; try (split; [done|extends_tac]).
  all: match goal with
       | H : Loop2.dispatch _ _ = Normal _ |- _ =>
           apply dispatch_extends in H as [? ?]; split; [done|];
           eapply extends_trans; [|eassumption]; extends_tac
       end.
Qed.
End Safety.

Section Invariants.
Context `{cm : CaseMapping} `{nops : NumberOps} `{ep : ChatEndpoint}.

Lemma starts_with_system_extends st st' :
  starts_with_system st -> extends st st' -> starts_with_system st'.
Proof. intros [rest Hst] [[k Hk] _]. exists (rest ++ k). by rewrite Hk, Hst. Qed.

(** C3: on [index2.js], whatever the endpoint answers and whatever is
    typed, no exception escapes [main] (every error is caught, reported
    and ends [main] by [return]), so the top-level [main().catch] never
    runs and the program is [main]; and the log always starts with the
    system prompt, also after [messages.splice]. *)
Theorem main_safe fuel inputs :
  Loop2.program fuel inputs = Loop2.main fuel inputs /\
  (forall e s, Loop2.main fuel inputs <> Crashed e s) /\
  exists rest, messages (run_state (Loop2.main fuel inputs)) = Msg RSystem (Some SYSTEM_PROMPT_2) :: rest.
Proof.
  cut ((forall e s, Loop2.main fuel inputs <> Crashed e s) /\
       exists rest, messages (run_state (Loop2.main fuel inputs)) = Msg RSystem (Some SYSTEM_PROMPT_2) :: rest).
  { intros [Hnc Hs]. split; [|done]. unfold Loop2.program.
    destruct (Loop2.main fuel inputs) eqn:E; [done | done | by destruct (Hnc e st) | done]. }
  unfold Loop2.main. generalize Loop2.initial_state (ex_intro (fun rest => messages Loop2.initial_state = _ :: rest) [] eq_refl).
  induction inputs as [|q qs IH]; intros st Hst; simpl; [done|].
  set (st1 := push _ (emit EPrompt st)).
  assert (Hst1 : starts_with_system st1).
  { eapply starts_with_system_extends; [exact Hst|]. unfold st1. extends_tac. }
  destruct (exchange Loop2.iteration fuel st1) as [r|] eqn:Hex; [|done].
  pose proof (exchange_extends _ _ _ _ (fun s => proj2 (iteration_extends s)) Hex) as Hext.
  pose proof (exchange_no_crash _ _ _ _ (fun s => proj1 (iteration_extends s)) Hex) as Hnc.
  pose proof (starts_with_system_extends _ _ Hst1 Hext) as Hr.
  destruct r as [st2|st2|st2|e st2]; simpl in *; try done.
  apply IH. destruct Hr as [rest Hrest]. exists []. unfold Loop2.reset. simpl. by rewrite Hrest.
Qed.

(** C14: within an exchange of [index2.js] the log is append-only: the
    log at the end of the exchange extends the log at its start, and the
    exchange does not end by an exception. *)
Theorem exchange_append_only fuel st r :
  exchange Loop2.iteration fuel st = Some r ->
  messages st `prefix_of` messages (iter_state r) /\ is_crash r = false.
Proof.
  intros Hex. split.
  - apply (exchange_extends _ _ _ _ (fun s => proj2 (iteration_extends s)) Hex).
  - apply (exchange_no_crash _ _ _ _ (fun s => proj1 (iteration_extends s)) Hex).
Qed.
End Invariants.

(** ** The log across turns *)

Section Turns.
Context `{cm : CaseMapping} `{nops : NumberOps} `{ep : ChatEndpoint}.

Lemma dispatch2_appends call st r :
  Loop2.dispatch call st = Normal r -> appends assistant_text st (iter_state r).
Proof.
  unfold Loop2.dispatch. intros H.
  repeat (outcome_inv || case_match); simplify_eq/=; appends_tac.
Qed.

Lemma iteration2_appends st : appends assistant_text st (iter_state (Loop2.iteration st)).
Proof.
  unfold Loop2.iteration. repeat case_match; simplify_eq/=; try appends_tac.
  match goal with H : Loop2.dispatch _ _ = Normal _ |- _ => apply dispatch2_appends in H end.
  eapply appends_trans; [|eassumption]. appends_tac.
Qed.
End Turns.

(** The log of [index2.js] at the end of a run: the system prompt alone
    at the prompt, else the system prompt, one typed line and assistant
    texts. *)
Lemma main2_log_shape `{cm : CaseMapping} `{nops : NumberOps} `{ep : ChatEndpoint} fuel qs :
  match Loop2.main fuel qs with
  | Idle st => messages st = [Msg RSystem (Some SYSTEM_PROMPT_2)]
  | r => exists q ms, q ∈ qs /\
      messages (run_state r) =
        [Msg RSystem (Some SYSTEM_PROMPT_2); Msg RUser (Some (user_envelope q))] ++ ms /\
      Forall assistant_text ms
  end.
Proof.
  unfold Loop2.main.
  assert (Hst0 : messages Loop2.initial_state = [Msg RSystem (Some SYSTEM_PROMPT_2)]) by reflexivity.
  revert Hst0. generalize Loop2.initial_state.
  induction qs as [|q qs IH]; intros st Hst; simpl; [done|].
  set (st1 := push (Msg RUser (Some (user_envelope q))) (emit EPrompt st)).
  destruct (exchange Loop2.iteration fuel st1) as [r|] eqn:Hex.
  - destruct (exchange_appends _ _ _ _ _ iteration2_appends Hex) as (ms & Hms & Hf).
    simpl in Hms. rewrite Hst in Hms.
    destruct r as [st2|st2|st2|e st2]; simpl in *;
      try (exists q, ms; split_and!; [by left | done | done]).
    assert (Hr : messages (Loop2.reset st2) = [Msg RSystem (Some SYSTEM_PROMPT_2)])
      by (unfold Loop2.reset; simpl; by rewrite Hms).
    specialize (IH _ Hr). revert IH.
    destruct (repl Loop2.iteration Loop2.reset fuel qs (Loop2.reset st2)); [done|..];
      (intros (q' & ms' & Hq' & Hm' & Hf');
       exists q', ms'; split_and!; [by right | done | done]).
  - exists q, []. split_and!; [by left | simpl; by rewrite Hst | done].
Qed.

(** C16: [index2.js] starts every exchange on a log that holds the system
    prompt and the line just typed, and nothing else: back at the prompt
    the log is the system prompt alone, and a run that stops in an
    exchange stops on the system prompt, the user envelope of one of the
    lines typed, and messages none of which is a user message. *)
Theorem index2_turn_log `{cm : CaseMapping} `{nops : NumberOps} `{ep : ChatEndpoint} fuel qs :
  match Loop2.main fuel qs with
  | Idle st => messages st = [Msg RSystem (Some SYSTEM_PROMPT_2)]
  | r => exists q ms, q ∈ qs /\
      messages (run_state r) =
        [Msg RSystem (Some SYSTEM_PROMPT_2); Msg RUser (Some (user_envelope q))] ++ ms /\
      Forall (fun m => msg_role m <> RUser) ms
  end.
Proof.
  pose proof (main2_log_shape fuel qs) as Hs. destruct (Loop2.main fuel qs); try done;
    destruct Hs as (q & ms & Hq & Hm & Hf); exists q, ms; split_and!; try done;
    (eapply Forall_mono; [exact Hf|]; intros m [Hr _]; by rewrite Hr).
Qed.

(** C17: the log of [index2.js] always has the type of spec section 3:
    every message has the role [system], [user] or [assistant] and a
    string content, whatever the endpoint answers and whatever is typed
    ([index.js] breaks it: see [LoopJs.null_content_crashes] and the
    [developer] observations). *)
Theorem index2_log_typed `{cm : CaseMapping} `{nops : NumberOps} `{ep : ChatEndpoint} fuel qs :
  Forall spec_message (messages (run_state (Loop2.main fuel qs))).
Proof.
  pose proof (main2_log_shape fuel qs) as Hs.
  assert (Hsys : forall q, Forall spec_message
            [Msg RSystem (Some SYSTEM_PROMPT_2); Msg RUser (Some (user_envelope q))]).
  { intros q. repeat (apply Forall_cons_2; [split; [repeat constructor | by eexists]|]).
    apply Forall_nil_2. }
  destruct (Loop2.main fuel qs); cbn [run_state] in *.
  1: rewrite Hs; apply Forall_cons_2; [split; [repeat constructor | by eexists] | apply Forall_nil_2].
  all: destruct Hs as (q & ms & _ & -> & Hf); apply Forall_app; split; [apply Hsys|];
    eapply Forall_mono; [exact Hf|]; intros m [Hr Hc]; split; [rewrite Hr; repeat constructor | done].
Qed.

(** ** Requests *)

Section Requests.
Context `{cm : CaseMapping} `{nops : NumberOps} `{ep : ChatEndpoint}.

Lemma dispatch2_calls call st r :
  Loop2.dispatch call st = Normal r -> calls (iter_state r) = calls st.
Proof.
  unfold Loop2.dispatch. intros H. by repeat (outcome_inv || case_match); simplify_eq/=.
Qed.

(** C20: spec section 5 says requests are made one at a time: every pass
    of the inner loop of [index2.js] sends exactly one request, so an
    exchange that ends within [fuel] passes has sent at least one and at
    most [fuel] requests. *)
Theorem requests_per_exchange fuel st r :
  exchange Loop2.iteration fuel st = Some r ->
  (calls st < calls (iter_state r) <= calls st + fuel)%nat.
Proof.
  apply exchange_calls. intros s. unfold Loop2.iteration.
  repeat case_match; simplify_eq/=; try done.
  match goal with H : Loop2.dispatch _ _ = Normal _ |- _ => apply dispatch2_calls in H end.
  done.
Qed.
(** A pass appends the answer and at most one observation. *)
Lemma dispatch2_length call st r :
  Loop2.dispatch call st = Normal r -> (length (messages (iter_state r)) <= S (length (messages st)))%nat.
Proof.
  unfold Loop2.dispatch. intros H.
  repeat (outcome_inv || case_match); simplify_eq/=; rewrite ?length_app; simpl; lia.
Qed.

Lemma iteration2_length st :
  (length (messages (iter_state (Loop2.iteration st))) <= length (messages st) + 2)%nat.
Proof.
  unfold Loop2.iteration. repeat case_match; simplify_eq/=; rewrite ?length_app; simpl; try lia.
  match goal with H : Loop2.dispatch _ _ = Normal _ |- _ => apply dispatch2_length in H end.
  simpl in *. rewrite length_app in *. simpl in *. lia.
Qed.

(** C21: spec section 5 leaves the size of a request open: [index2.js]
    bounds it, since [messages.splice] cuts the log after every
    exchange: whatever the endpoint answers and whatever is typed, the
    log of a run of [main] holds at most [2 + 2 * fuel] messages, the
    system prompt, one user line and two messages per pass. *)
Theorem index2_log_bound fuel qs :
  (length (messages (run_state (Loop2.main fuel qs))) <= 2 + 2 * fuel)%nat.
Proof.
  unfold Loop2.main. cut (forall st, (length (messages st) <= 1)%nat ->
    (length (messages (run_state (repl Loop2.iteration Loop2.reset fuel qs st))) <= 2 + 2 * fuel)%nat).
  { intros H. by apply H. }
  induction qs as [|q qs IH]; intros st Hst; simpl; [lia|].
  destruct (exchange Loop2.iteration fuel _) as [r|] eqn:Hex;
    [|simpl; rewrite length_app; simpl; lia].
  pose proof (exchange_length _ 2 _ _ _ iteration2_length Hex) as Hr.
  cbn [push emit messages] in Hr. rewrite length_app in Hr. cbn [length] in Hr.
  destruct r as [st2|st2|st2|e st2]; simpl in *; try lia.
  apply IH. unfold Loop2.reset. simpl. rewrite length_take. lia.
Qed.
End Requests.

Section Liveness.
Context `{cm : CaseMapping} `{nops : NumberOps}.

(** C18: the inner loop of [index2.js] has no bound: if the model keeps
    answering a plan, every exchange runs out of any fuel, and [main]
    never gets back to the prompt. *)
Theorem plans_forever_diverge p fuel st q qs :
  well_formed_string p ->
  @exchange (@Loop2.iteration cm nops (constant_reply (plan_reply p))) fuel st = None /\
  exists st', @Loop2.main cm nops (constant_reply (plan_reply p)) fuel (q :: qs) = Diverged st'.
Proof.
  intros Hp.
  assert (Hex : forall fuel st,
    @exchange (@Loop2.iteration cm nops (constant_reply (plan_reply p))) fuel st = None).
  { clear fuel st. induction fuel as [|fuel IH]; intros st; [done|].
    loop2_step (plan_reply p) (JObject (string_props [(‹"type"›, ‹"plan"›); (‹"plan"›, p)])).
    apply IH. }
  split; [apply Hex|]. unfold Loop2.main, repl. rewrite Hex. by eexists.
Qed.

(** C19: an exchange of [index2.js] ends as soon as the model answers an
    output: with plans before the [k]-th request and an output from then
    on, [k - calls st + 1] passes suffice, the exchange ends by [break],
    and the one line printed is [Bot: t]. *)
Theorem output_ends_exchange k p t st f :
  well_formed_string p -> well_formed_string t -> (calls st <= k)%nat ->
  exists st',
    @exchange (@Loop2.iteration cm nops (plans_then_output k p t)) (S (k - calls st) + f) st =
      Some (IBreak st') /\
    trace st' = trace st ++ [EPrint (‹"Bot: "› ++ t)] /\ calls st' = S k.
Proof.
  intros Hp Ht. remember (k - calls st)%nat as m eqn:Hm. revert st Hm.
  induction m as [|m IH]; intros st Hm Hle.
  - assert (calls st = k) as Hk by lia.
    rewrite exchange_step, (iteration_parsed _ (output_reply t)
      (JObject (string_props [(‹"type"›, ‹"output"›); (‹"output"›, t)])));
      [| unfold endpoint_reply, plans_then_output;
         destruct (Nat.ltb_spec (calls st) k); [lia|]; reflexivity
       | apply serialize_record_not_nil | apply parse_string_record; solve_record].
    cbn -[output_reply plan_reply]. eexists. split; [reflexivity|]. simpl. split; [done|lia].
  - change (S (S m) + f)%nat with (S (S m + f)).
    rewrite exchange_step, (iteration_parsed _ (plan_reply p)
      (JObject (string_props [(‹"type"›, ‹"plan"›); (‹"plan"›, p)])));
      [| unfold endpoint_reply, plans_then_output;
         destruct (Nat.ltb_spec (calls st) k); [reflexivity|lia]
       | apply serialize_record_not_nil | apply parse_string_record; solve_record].
    cbn -[output_reply plan_reply exchange].
    destruct (IH (push (Msg RAssistant (Some (plan_reply p))) (count_call st)))
      as (st' & Hex & Htr & Hc); simpl; try lia.
    exists st'. split; [exact Hex|]. simpl in Htr. done.
Qed.
End Liveness.

(** ** Error paths of [index2.js] *)

Section Errors.
Context `{cm : CaseMapping} `{nops : NumberOps}.

(** C4: the guard [typeof fn !== 'function'] of [index2.js]: when the
    model asks for a tool whose name resolves to nothing callable (a name
    that is neither the tool's nor an [Object.prototype] member's, or
    [__proto__]), the pass reports [Function <name> not found.] and
    [main] returns, after logging the answer and before any call. *)
Theorem tool_not_found `{ep : ChatEndpoint} st fname input :
  endpoint_reply (calls st) (Loop2.request_body (messages st)) =
    ApiSuccess [Choice (Some (action_reply fname input))] ->
  well_formed_string fname -> well_formed_string input ->
  fname ∉ registry_names \/ fname = ‹"__proto__"› ->
  Loop2.iteration st =
  IReturn (emit (EError (ErrNotFound fname))
             (push (Msg RAssistant (Some (action_reply fname input))) (count_call st))).
Proof.
  intros Hrep Hf Hi Hn.
  rewrite (iteration_parsed _ (action_reply fname input) (action_call fname input));
    [| done | apply serialize_record_not_nil | apply parse_string_record; solve_record].
  cbv zeta. unfold Loop2.dispatch. cbn -[tools_get].
  destruct Hn as [Hn | ->]; [by rewrite tools_get_not_registered | reflexivity].
Qed.

(** C9: the inherited [constructor] turns the registry of [index2.js]
    into an echo: for an action naming [constructor] whose [input] is a
    value that survives a round trip ([json_ok]: nested arrays and
    objects, strings, booleans, [null]), the pass logs an observation
    from which [JSON.parse] reads back [{type: "observation",
    observation: input}] with the input unchanged ([null] becomes
    [{}]): the model gets its own input back as a tool result. *)
Theorem constructor_echoes_input st ps j :
  assoc_lookup ‹"type"› ps = Some (JString ‹"action"›) ->
  assoc_lookup ‹"function"› ps = Some (JString ‹"constructor"›) ->
  assoc_lookup ‹"input"› ps = Some j -> json_ok j = true ->
  exists obs, Loop2.dispatch (JObject ps) st = Normal (IContinue (push (Msg RAssistant (Some obs)) st)) /\
    JSON_parse obs = Normal (JObject [(‹"type"›, JString ‹"observation"›);
                                      (‹"observation"›, match j with JNull => JObject [] | _ => j end)]).
Proof.
  intros Ht Hf Hi Hok. exists (observation_envelope (object_call (Some j))). split.
  - unfold Loop2.dispatch, get_field. cbn [field_name]. rewrite Ht, Hf, Hi. reflexivity.
  - assert (Hs : serialize_value (object_call (Some j)) =
                 Some (serialize_json (match j with JNull => JObject [] | _ => j end))) by (by destruct j).
    rewrite (observation_envelope_json _ _ Hs).
    unfold JSON_parse. rewrite parse_serialize_json; [done|].
    rewrite json_ok_observation. by destruct j.
Qed.

(** An array of strings converts to its elements joined with commas. *)
Lemma json_to_string_strings `{NumberOps} ss :
  json_to_string (JArray (map JString ss)) = Normal (join_with ‹","› ss).
Proof.
  enough (Hgo : (fix go (l : list json) : outcome (list (list N)) :=
                   match l with
                   | [] => Normal []
                   | x :: r =>
                       s ← (match x with JNull => Normal [] | _ => json_to_string x end);
                       ss ← go r; Normal (s :: ss)
                   end) (map JString ss) = Normal ss) by (cbn [json_to_string]; by rewrite Hgo).
  induction ss as [|s ss IH]; [done|]. cbn [map]. by rewrite IH.
Qed.

(** C10: the template literal [`Bot: ${call.output}`] of [index2.js] on
    an output envelope whose [output] is not a string: a missing output
    prints [Bot: undefined]; an object prints [Bot: [object Object]],
    unless it has an own [toString], which JSON cannot make callable,
    so the conversion throws and the [catch] reports a processing error
    and returns; an array of strings prints them joined with commas.  In
    every printing case the exchange ends by [break]. *)
Theorem output_value_printing `{ep : ChatEndpoint} st text ps :
  endpoint_reply (calls st) (Loop2.request_body (messages st)) = ApiSuccess [Choice (Some text)] ->
  text <> [] -> JSON_parse text = Normal (JObject ps) ->
  assoc_lookup ‹"type"› ps = Some (JString ‹"output"›) ->
  let st2 := push (Msg RAssistant (Some text)) (count_call st) in
  match assoc_lookup ‹"output"› ps with
  | None => Loop2.iteration st = IBreak (emit (EPrint (‹"Bot: "› ++ ‹"undefined"›)) st2)
  | Some (JObject qs) =>
      Loop2.iteration st =
      if has_own ‹"toString"› qs then IReturn (emit (EError ErrProcessing) st2)
      else IBreak (emit (EPrint (‹"Bot: "› ++ ‹"[object Object]"›)) st2)
  | Some (JArray xs) =>
      forall ss, xs = map JString ss ->
      Loop2.iteration st = IBreak (emit (EPrint (‹"Bot: "› ++ join_with ‹","› ss)) st2)
  | _ => True
  end.
Proof.
  intros Hrep Hne Hparse Ht. cbv zeta.
  rewrite (iteration_parsed _ _ _ Hrep Hne Hparse). cbv zeta.
  unfold Loop2.dispatch, get_field. cbn [field_name]. rewrite Ht.
  destruct (assoc_lookup ‹"output"› ps) as [[| | | |xs|qs]|]; try exact I; try reflexivity.
  - intros ss ->. cbn -[json_to_string join_with]. by rewrite json_to_string_strings.
  - cbn -[has_own]. by destruct (has_own _ qs).
Qed.

(** C5: an answer that is not JSON ends the program: with an endpoint
    that answers the same non-JSON text to every request, [main] reports
    the parse error on the first pass of the first exchange and returns,
    without reading another line. *)
Theorem non_json_stops text e f q qs :
  text <> [] -> JSON_parse text = Throw e ->
  @Loop2.main cm nops (constant_reply text) (S f) (q :: qs) =
  Stopped (St [Msg RSystem (Some SYSTEM_PROMPT_2); Msg RUser (Some (user_envelope q));
               Msg RAssistant (Some text)] 1 [EPrompt; EError ErrParse; EError (ErrRawResponse text)]).
Proof.
  intros Hne He. unfold Loop2.main. cbn [repl]. rewrite exchange_step.
  unfold Loop2.iteration. cbn -[JSON_parse user_envelope SYSTEM_PROMPT_2].
  destruct text as [|c text]; [done|]. by rewrite He.
Qed.
(** C8: the boundary inputs of the tool in [index2.js]: an action
    calling [getWeatherDetails] without an [input] gets the default
    parameter [''], which is no city, so the observation is the
    not-available sentence and the exchange goes on; an [input] that is
    not a string ([null], a number, a boolean, an array or an object) has
    no callable [toLowerCase], the call throws a TypeError, and the
    [catch] reports a processing error and returns. *)
Theorem tool_input_boundary `{ep : ChatEndpoint} st text ps :
  endpoint_reply (calls st) (Loop2.request_body (messages st)) = ApiSuccess [Choice (Some text)] ->
  text <> [] -> JSON_parse text = Normal (JObject ps) ->
  assoc_lookup ‹"type"› ps = Some (JString ‹"action"›) ->
  assoc_lookup ‹"function"› ps = Some (JString ‹"getWeatherDetails"›) ->
  let st2 := push (Msg RAssistant (Some text)) (count_call st) in
  match assoc_lookup ‹"input"› ps with
  | None => Loop2.iteration st =
      IContinue (push (Msg RAssistant (Some (observation_envelope (VJson (JString Index2Js.not_available))))) st2)
  | Some (JString _) => True
  | Some _ => Loop2.iteration st = IReturn (emit (EError ErrProcessing) st2)
  end.
Proof.
  intros Hrep Hne Hparse Ht Hf. cbv zeta.
  destruct (assoc_lookup ‹"input"› ps) as [[]|] eqn:Hi; try exact I;
    rewrite (iteration_parsed _ _ _ Hrep Hne Hparse); cbv zeta;
    unfold Loop2.dispatch, get_field; cbn [field_name]; rewrite Ht, Hf, ?Hi; reflexivity.
Qed.
End Errors.

(** ** Witnesses: the theorems at concrete inputs *)

Section Witnesses.
#[local] Existing Instances basic_case_mapping basic_case_mapping_laws literal_number_ops.

Lemma scenario_patiala_witness :
  well_formed_string ‹"x"› /\ well_formed_string ‹"y"› /\
  @Loop2.main _ _ (patiala_script ‹"x"› ‹"y"›) 3 [‹"hi"›] =
  Idle (St [Msg RSystem (Some SYSTEM_PROMPT_2)] 3 [EPrompt; EPrint (‹"Bot: "› ++ ‹"y"›)]).
Proof.
  split_and!; [apply lit_ascii_bound_wf .. |].
  exact (proj2 (scenario_patiala ‹"hi"› ‹"x"› ‹"y"› 0
                  (lit_ascii_bound_wf _) (lit_ascii_bound_wf _))).
Defined.

Lemma exchange_append_only_witness :
  @exchange (@Loop2.iteration _ _ (constant_reply (output_reply ‹"ok"›))) 1 (St [] 0 []) =
    Some (IBreak (St [Msg RAssistant (Some (output_reply ‹"ok"›))] 1 [EPrint (‹"Bot: "› ++ ‹"ok"›)])) /\
  [] `prefix_of` [Msg RAssistant (Some (output_reply ‹"ok"›))].
Proof.
  assert (Hex : @exchange (@Loop2.iteration _ _ (constant_reply (output_reply ‹"ok"›))) 1 (St [] 0 []) =
    Some (IBreak (St [Msg RAssistant (Some (output_reply ‹"ok"›))] 1 [EPrint (‹"Bot: "› ++ ‹"ok"›)])))
    by (vm_compute; reflexivity).
  split; [exact Hex | exact (proj1 (exchange_append_only _ _ _ Hex))].
Defined.

Lemma plans_forever_diverge_witness :
  well_formed_string ‹"think"› /\
  @exchange (@Loop2.iteration _ _ (constant_reply (plan_reply ‹"think"›))) 5 Loop2.initial_state = None.
Proof.
  split; [apply lit_ascii_bound_wf|].
  exact (proj1 (plans_forever_diverge ‹"think"› 5 Loop2.initial_state ‹"hi"› []
                  (lit_ascii_bound_wf _))).
Defined.

Lemma output_ends_exchange_witness :
  (0 <= 2)%nat /\
  exists st', @exchange (@Loop2.iteration _ _ (plans_then_output 2 ‹"p"› ‹"t"›)) 3 (St [] 0 []) =
    Some (IBreak st') /\ trace st' = [EPrint (‹"Bot: "› ++ ‹"t"›)] /\ calls st' = 3%nat.
Proof.
  split; [lia|].
  exact (output_ends_exchange 2 ‹"p"› ‹"t"› (St [] 0 []) 0
           (lit_ascii_bound_wf _) (lit_ascii_bound_wf _) (le_0_n 2)).
Defined.

Lemma tool_not_found_witness :
  ‹"getWeather"› ∉ registry_names /\
  @Loop2.iteration _ _ (constant_reply (action_reply ‹"getWeather"› ‹"Paris"›)) (St [] 0 []) =
  IReturn (emit (EError (ErrNotFound ‹"getWeather"›))
             (push (Msg RAssistant (Some (action_reply ‹"getWeather"› ‹"Paris"›))) (St [] 1 []))).
Proof.
  assert (Hn : ‹"getWeather"› ∉ registry_names)
    by (apply (bool_decide_unpack _); vm_compute; reflexivity).
  split; [exact Hn|].
  exact (@tool_not_found _ _ (constant_reply (action_reply ‹"getWeather"› ‹"Paris"›))
           (St [] 0 []) ‹"getWeather"› ‹"Paris"› eq_refl
           (lit_ascii_bound_wf _) (lit_ascii_bound_wf _) (or_introl Hn)).
Defined.

Lemma non_json_stops_witness :
  JSON_parse ‹"Hello"› = Throw SyntaxError /\
  @Loop2.main _ _ (constant_reply ‹"Hello"›) 4 [‹"hi"›; ‹"again"›] =
  Stopped (St [Msg RSystem (Some SYSTEM_PROMPT_2); Msg RUser (Some (user_envelope ‹"hi"›));
               Msg RAssistant (Some ‹"Hello"›)] 1
               [EPrompt; EError ErrParse; EError (ErrRawResponse ‹"Hello"›)]).
Proof.
  assert (He : JSON_parse ‹"Hello"› = Throw SyntaxError) by (vm_compute; reflexivity).
  split; [exact He|].
  exact (non_json_stops ‹"Hello"› SyntaxError 3 ‹"hi"› [‹"again"›] ltac:(discriminate) He).
Defined.
Lemma requests_per_exchange_witness :
  @exchange (@Loop2.iteration basic_case_mapping literal_number_ops
               (@plans_then_output literal_number_ops 2 ‹"p"› ‹"t"›)) 5 (St [] 0 []) <> None /\
  exists r, @exchange (@Loop2.iteration basic_case_mapping literal_number_ops
               (@plans_then_output literal_number_ops 2 ‹"p"› ‹"t"›)) 5 (St [] 0 []) = Some r /\
    (0 < calls (iter_state r) <= 5)%nat.
Proof.
  split; [vm_compute; discriminate|].
  let v := eval vm_compute in
    (@exchange (@Loop2.iteration basic_case_mapping literal_number_ops
                  (@plans_then_output literal_number_ops 2 ‹"p"› ‹"t"›)) 5 (St [] 0 [])) in
  lazymatch v with
  | Some ?r =>
      exists r; split; [vm_compute; reflexivity|];
      exact (@requests_per_exchange basic_case_mapping literal_number_ops
               (@plans_then_output literal_number_ops 2 ‹"p"› ‹"t"›) 5 (St [] 0 []) r
               ltac:(vm_compute; reflexivity))
  end.
Defined.
(** An action whose [input] is [null]. *)
Lemma tool_input_boundary_witness :
  let ps := [(‹"type"›, JString ‹"action"›); (‹"function"›, JString ‹"getWeatherDetails"›); (‹"input"›, JNull)] in
  let text := @serialize_json literal_number_ops (JObject ps) in
  JSON_parse text = Normal (JObject ps) /\
  @Loop2.iteration basic_case_mapping literal_number_ops (constant_reply text) (St [] 0 []) =
  IReturn (St [Msg RAssistant (Some text)] 1 [EError ErrProcessing]).
Proof.
  intros ps text.
  assert (Hp : JSON_parse text = Normal (JObject ps)) by (vm_compute; reflexivity).
  split; [exact Hp|].
  exact (@tool_input_boundary basic_case_mapping literal_number_ops (constant_reply text) (St [] 0 []) text ps
           eq_refl ltac:(discriminate) Hp eq_refl eq_refl).
Defined.
(** The model calls [constructor] on a nested value. *)
Lemma constructor_echoes_input_witness :
  let j := JArray [JBool true; JObject [(‹"k"›, JString ‹"v"›)]] in
  let ps := [(‹"type"›, JString ‹"action"›); (‹"function"›, JString ‹"constructor"›); (‹"input"›, j)] in
  json_ok j = true /\
  exists obs, @Loop2.dispatch basic_case_mapping literal_number_ops (JObject ps) (St [] 0 []) =
    Normal (IContinue (St [Msg RAssistant (Some obs)] 0 [])) /\
    JSON_parse obs = Normal (JObject [(‹"type"›, JString ‹"observation"›); (‹"observation"›, j)]).
Proof.
  intros j ps. split; [reflexivity|].
  exact (@constructor_echoes_input basic_case_mapping literal_number_ops (St [] 0 []) ps j
           eq_refl eq_refl eq_refl eq_refl).
Defined.
(** An output that is an object with its own [toString]. *)
Lemma output_value_printing_witness :
  let ps := [(‹"type"›, JString ‹"output"›); (‹"output"›, JObject [(‹"toString"›, JString ‹"x"›)])] in
  let text := @serialize_json literal_number_ops (JObject ps) in
  JSON_parse text = Normal (JObject ps) /\
  @Loop2.iteration basic_case_mapping literal_number_ops (constant_reply text) (St [] 0 []) =
  IReturn (St [Msg RAssistant (Some text)] 1 [EError ErrProcessing]).
Proof.
  intros ps text.
  assert (Hp : JSON_parse text = Normal (JObject ps)) by (vm_compute; reflexivity).
  split; [exact Hp|].
  exact (@output_value_printing basic_case_mapping literal_number_ops (constant_reply text) (St [] 0 []) text ps
           eq_refl ltac:(discriminate) Hp eq_refl).
Defined.
End Witnesses.
