(* ===== verification/LoopJs.v ===== *)
(** * The agent loop of [src/index.js]

    The top-level loop of [src/index.js:54-88] keeps the module-level log
    [messages].  Each pass of the inner loop sends a request to the
    endpoint, appends [chat.choices[0].message.content] to the log before
    parsing it, and dispatches on [call.type] with the loose [==]:
    ["output"] prints [bot: <output>] and ends the exchange, ["action"]
    calls the named entry of [tools] without checking that it is a
    function and appends the observation with the role [developer].
    Nothing is caught: any exception escapes the top-level [await] and
    ends the process.  The log is never cut back.

    The request object names the log [message] (line 69) where the
    endpoint's contract requires [messages]. *)

From stdpp Require Import base list numbers.
From Stdlib Require Import NArith Lia.
From S2P Require Import Prelude JsString JsValue Weather JsonPrint JsonParse JsonRoundtrip Tools Chat Loop2.

Module LoopJs.
Section LoopJs.
Context `{CaseMapping} `{NumberOps} `{ChatEndpoint}.

Definition model_id : list N := ‹"gpt-3.5-turbo"›.

(** [{ model, message: messages, response_format: {type: 'json_object'} }] *)
Definition request_body (ms : list message) : body :=
  [(‹"model"›, BVString model_id); (‹"message"›, BVMessages ms);
   (‹"response_format"›, BVObject [(‹"type"›, ‹"json_object"›)])].

Definition initial_state : state :=
  St [Msg RSystem (Some SYSTEM_PROMPT_js)] 0 [].

(** Lines 78-86. *)
Definition dispatch (call : json) (st : state) : outcome iter_result :=
  ty ← get_field call FType;
  loose_eq_word ty ‹"output"› ≫= fun is_output : bool =>
  if is_output then
    out ← get_field call FOutput;
    text ← value_to_string out;
    Normal (IBreak (emit (EPrint (‹"bot: "› ++ text)) st))
  else
    loose_eq_word ty ‹"action"› ≫= fun is_action : bool =>
    if is_action then
      fname ← get_field call FFunction;
      fn ← tools_index fname;
      input ← get_field call FInput;
      observation ← call_value IndexJs.getWeatherDetails fn input;
      Normal (IContinue (push (Msg RDeveloper (Some (observation_envelope observation))) st))
    else Normal (IContinue st).

(** One pass of the inner loop (lines 67-86).  [JSON.parse] converts its
    argument with ToString first, so a [null] content is parsed as the
    text [null]. *)
Definition iteration (st : state) : iter_result :=
  let st1 := count_call st in
  match endpoint_reply (calls st) (request_body (messages st)) with
  | ApiFailure => ICrash ApiError st1
  | ApiSuccess [] => ICrash TypeError st1
  | ApiSuccess (c :: _) =>
      let result := choice_content c in
      let st2 := push (Msg RAssistant result) st1 in
      match JSON_parse (default ‹"null"› result) with
      | Throw e => ICrash e st2
      | Normal call =>
          match dispatch call st2 with
          | Normal r => r
          | Throw e => ICrash e st2
          end
      end
  end.

(** The program on the given input lines, each exchange with [fuel]
    passes; the log keeps every turn. *)
Definition main (fuel : nat) (inputs : list (list N)) : run_result :=
  repl iteration (fun st => st) fuel inputs initial_state.
End LoopJs.
End LoopJs.

(** An endpoint that answers every request with the same text, whatever
    its body: the program of [index.js] as if the endpoint accepted its
    [message] field. *)
Definition any_body_reply (text : list N) : ChatEndpoint :=
  fun _ _ => ApiSuccess [Choice (Some text)].

(** ** Lemmas on one pass *)

Section Steps.
Context `{cm : CaseMapping} `{nops : NumberOps} `{ep : ChatEndpoint}.

(** The request of [index.js] has no [messages] field. *)
Lemma request_body_no_messages ms :
  body_field ‹"messages"› (LoopJs.request_body ms) = None.
Proof. reflexivity. Qed.

Lemma iteration_js_parsed st text call :
  endpoint_reply (calls st) (LoopJs.request_body (messages st)) = ApiSuccess [Choice (Some text)] ->
  JSON_parse text = Normal call ->
  LoopJs.iteration st =
  let st2 := push (Msg RAssistant (Some text)) (count_call st) in
  match LoopJs.dispatch call st2 with
  | Normal r => r
  | Throw e => ICrash e st2
  end.
Proof. intros Hrep Hparse. unfold LoopJs.iteration. rewrite Hrep. simpl. by rewrite Hparse. Qed.

(** An action call: [tools[call.function](call.input)], with no check
    that the value found is a function. *)
Lemma dispatch_js_action fname input st :
  LoopJs.dispatch (action_call fname input) st =
  observation ← call_value IndexJs.getWeatherDetails (tools_get fname) (Some (JString input));
  Normal (IContinue (push (Msg RDeveloper (Some (observation_envelope observation))) st)).
Proof. reflexivity. Qed.
End Steps.

(** ** What [index.js] does *)

Section Contract.
Context `{cm : CaseMapping} `{nops : NumberOps} `{ep : ChatEndpoint} `{!EndpointContract ep}.

(** C23: the request object of [index.js] names the log [message]
    (line 69) instead of [messages]: an endpoint that keeps the contract
    of the spec refuses the first request, nothing catches the rejection,
    and the program ends with an uncaught exception after the first line
    typed, whatever the line and whatever the fuel. *)
Theorem index_js_request_refused f q qs :
  LoopJs.main (S f) (q :: qs) =
  Crashed ApiError (St [Msg RSystem (Some SYSTEM_PROMPT_js); Msg RUser (Some (user_envelope q))]
                       1 [EPrompt]).
Proof.
  unfold LoopJs.main. cbn [repl exchange]. unfold LoopJs.iteration.
  rewrite reply_requires_messages by apply request_body_no_messages. reflexivity.
Qed.
End Contract.

Section Dispatch.
Context `{cm : CaseMapping} `{nops : NumberOps}.

(** C25: [index.js] compares [call.type] with [==] where [index2.js] uses
    [===]: for every call whose [type] is an array that converts to the
    string ["output"] (such as [["output"]] or [[["output"]]]) and whose
    [output] converts to a text [t], [index.js] ends the exchange and
    prints [bot: t], while [index2.js] takes neither branch and goes
    round again. *)
Theorem loose_output_divergence ps xs t st :
  assoc_lookup ‹"type"› ps = Some (JArray xs) ->
  json_to_string (JArray xs) = Normal ‹"output"› ->
  value_to_string (assoc_lookup ‹"output"› ps) = Normal t ->
  LoopJs.dispatch (JObject ps) st = Normal (IBreak (emit (EPrint (‹"bot: "› ++ t)) st)) /\
  Loop2.dispatch (JObject ps) st = Normal (IContinue st).
Proof.
  intros Ht Hs Hv. unfold LoopJs.dispatch, Loop2.dispatch, get_field. cbn [field_name].
  rewrite Ht. split; [|reflexivity].
  cbn -[json_to_string value_to_string assoc_lookup str_eqb lit]. rewrite Hs.
  cbn -[value_to_string assoc_lookup str_eqb lit]. rewrite str_eqb_refl. by rewrite Hv.
Qed.
End Dispatch.

Section Observations.
Context `{cm : CaseMapping} `{!CaseMappingLaws cm} `{nops : NumberOps} `{ep : ChatEndpoint}.

(** C26: when the model asks [index.js] for the weather of a city its
    table does not know, the tool returns [undefined], [JSON.stringify]
    drops the [observation] key, and the model is sent the message
    [{"type":"observation"}] (with the role [developer]) and no value:
    the exchange goes on. *)
Theorem unknown_city_observation st c :
  endpoint_reply (calls st) (LoopJs.request_body (messages st)) =
    ApiSuccess [Choice (Some (action_reply ‹"getWeatherDetails"› c))] ->
  well_formed_string c -> table_lookup table_js c = None ->
  LoopJs.iteration st =
    IContinue (push (Msg RDeveloper (Some (observation_envelope VUndefined)))
                 (push (Msg RAssistant (Some (action_reply ‹"getWeatherDetails"› c))) (count_call st))) /\
  JSON_parse (observation_envelope VUndefined) = Normal (JObject [(‹"type"›, JString ‹"observation"›)]).
Proof.
  intros Hrep Hc Hunk. split; [|vm_compute; reflexivity].
  rewrite (iteration_js_parsed _ (action_reply ‹"getWeatherDetails"› c) (action_call ‹"getWeatherDetails"› c));
    [| done | apply parse_string_record; solve_record].
  cbv zeta. rewrite dispatch_js_action.
  change (tools_get ‹"getWeatherDetails"›) with (VFunction BGetWeatherDetails).
  cbn [call_value call_builtin]. by rewrite index_weather_unknown.
Qed.

(** C27: [index.js] calls [tools[call.function]] without checking that it
    is a function: when the name resolves to nothing callable the call
    throws a TypeError that nothing catches, and the program ends. *)
Theorem unknown_tool_crashes st fname input :
  endpoint_reply (calls st) (LoopJs.request_body (messages st)) =
    ApiSuccess [Choice (Some (action_reply fname input))] ->
  well_formed_string fname -> well_formed_string input ->
  fname ∉ registry_names \/ fname = ‹"__proto__"› ->
  LoopJs.iteration st =
    ICrash TypeError (push (Msg RAssistant (Some (action_reply fname input))) (count_call st)).
Proof.
  intros Hrep Hf Hi Hn.
  rewrite (iteration_js_parsed _ (action_reply fname input) (action_call fname input));
    [| done | apply parse_string_record; solve_record].
  cbv zeta. rewrite dispatch_js_action.
  destruct Hn as [Hn | ->]; [by rewrite tools_get_not_registered | reflexivity].
Qed.
(** C28: the boundary inputs of the tool in [index.js]: an action
    calling [getWeatherDetails] without an [input] gets the default
    parameter [''], no city, so the tool returns [undefined] and the
    model is sent [{"type":"observation"}] with no value; an [input] that
    is not a string makes [city.toLowerCase()] throw a TypeError that
    nothing catches, and the program ends. *)
Theorem tool_input_boundary_js st text ps :
  endpoint_reply (calls st) (LoopJs.request_body (messages st)) = ApiSuccess [Choice (Some text)] ->
  JSON_parse text = Normal (JObject ps) ->
  assoc_lookup ‹"type"› ps = Some (JString ‹"action"›) ->
  assoc_lookup ‹"function"› ps = Some (JString ‹"getWeatherDetails"›) ->
  let st2 := push (Msg RAssistant (Some text)) (count_call st) in
  match assoc_lookup ‹"input"› ps with
  | None => LoopJs.iteration st = IContinue (push (Msg RDeveloper (Some (observation_envelope VUndefined))) st2)
  | Some (JString _) => True
  | Some _ => LoopJs.iteration st = ICrash TypeError st2
  end.
Proof.
  intros Hrep Hparse Ht Hf. cbv zeta.
  destruct (assoc_lookup ‹"input"› ps) as [[]|] eqn:Hi; try exact I;
    rewrite (iteration_js_parsed _ _ _ Hrep Hparse); cbv zeta;
    unfold LoopJs.dispatch, get_field; cbn [field_name]; rewrite Ht, Hf, ?Hi; reflexivity.
Qed.
End Observations.

(** ** The log across turns *)

Section Turns.
Context `{cm : CaseMapping} `{nops : NumberOps} `{ep : ChatEndpoint}.

Lemma dispatch_js_appends call st r :
  LoopJs.dispatch call st = Normal r -> appends not_user st (iter_state r).
Proof.
  unfold LoopJs.dispatch. intros H.
  repeat (outcome_inv || case_match); simplify_eq/=; appends_tac.
Qed.

Lemma iteration_js_appends st : appends not_user st (iter_state (LoopJs.iteration st)).
Proof.
  unfold LoopJs.iteration. repeat case_match; simplify_eq/=; try appends_tac.
  match goal with H : LoopJs.dispatch _ _ = Normal _ |- _ => apply dispatch_js_appends in H end.
  eapply appends_trans; [|eassumption]. appends_tac.
Qed.

Lemma repl_js_user_lines fuel qs st :
  exists k, (k <= length qs)%nat /\
    user_lines (messages (run_state (repl LoopJs.iteration (fun s => s) fuel qs st))) =
      user_lines (messages st) ++ map (fun q => Some (user_envelope q)) (take k qs) /\
    match repl LoopJs.iteration (fun s => s) fuel qs st with Idle _ => k = length qs | _ => True end.
Proof.
  revert st. induction qs as [|q qs IH]; intros st; simpl.
  { exists 0%nat. by rewrite app_nil_r. }
  set (st1 := push (Msg RUser (Some (user_envelope q))) (emit EPrompt st)).
  assert (H1 : user_lines (messages st1) = user_lines (messages st) ++ [Some (user_envelope q)])
    by (unfold st1; simpl; by rewrite user_lines_app).
  destruct (exchange LoopJs.iteration fuel st1) as [r|] eqn:Hex.
  - destruct (exchange_appends _ _ _ _ _ iteration_js_appends Hex) as (ms & Hms & Hf).
    assert (H2 : user_lines (messages (iter_state r)) = user_lines (messages st) ++ [Some (user_envelope q)])
      by (rewrite Hms, user_lines_app, (user_lines_no_user ms Hf), app_nil_r; exact H1).
    destruct r as [st2|st2|st2|e st2]; simpl in H2 |- *;
      try (exists 1%nat; simpl; split_and!; [lia | done | done]).
    destruct (IH st2) as (k & Hk & Hu & Hi). exists (S k).
    split_and!; [simpl; lia | by rewrite Hu, H2, <- app_assoc |].
    destruct (repl _ _ _ _ _); simpl; [lia|done..].
  - exists 1%nat. simpl. split_and!; [lia | done | done].
Qed.
End Turns.

(** C15: spec section 8 asks that the [n]-th user turn of the log carry
    the text typed at the [n]-th prompt.  [index.js] never cuts its log:
    however a run of [main] ends, the user messages of its log are the
    envelopes of the first [k] lines typed, in order, and all of them when
    the run is back at the prompt. *)
Theorem index_js_user_turns `{cm : CaseMapping} `{nops : NumberOps} `{ep : ChatEndpoint} fuel qs :
  exists k, (k <= length qs)%nat /\
    user_lines (messages (run_state (LoopJs.main fuel qs))) =
      map (fun q => Some (user_envelope q)) (take k qs) /\
    match LoopJs.main fuel qs with Idle _ => k = length qs | _ => True end.
Proof. apply repl_js_user_lines. Qed.

Section NullContent.
Context `{cm : CaseMapping} `{nops : NumberOps} `{ep : ChatEndpoint}.

(** C29: when the first choice has no content, [index.js] appends a
    message whose content is [null], which is not a message of the type
    of spec section 3; [JSON.parse(null)] reads the text [null], and
    [call.type] on [null] throws a TypeError that ends the program. *)
Theorem null_content_crashes st chs :
  endpoint_reply (calls st) (LoopJs.request_body (messages st)) = ApiSuccess (Choice None :: chs) ->
  LoopJs.iteration st = ICrash TypeError (push (Msg RAssistant None) (count_call st)) /\
  ~ spec_message (Msg RAssistant None).
Proof.
  intros Hr. split; [unfold LoopJs.iteration; rewrite Hr; reflexivity|].
  intros [_ [? Hc]]. discriminate.
Qed.
End NullContent.

(** ** Witnesses: the theorems at concrete inputs *)

Section Witnesses.
#[local] Existing Instances basic_case_mapping basic_case_mapping_laws literal_number_ops.

Lemma index_js_request_refused_witness :
  EndpointContract (constant_reply (output_reply ‹"ok"›)) /\
  @LoopJs.main _ _ (constant_reply (output_reply ‹"ok"›)) 10 [‹"hi"›] =
  Crashed ApiError (St [Msg RSystem (Some SYSTEM_PROMPT_js); Msg RUser (Some (user_envelope ‹"hi"›))]
                       1 [EPrompt]).
Proof.
  split; [apply constant_reply_contract|].
  exact (@index_js_request_refused _ _ (constant_reply (output_reply ‹"ok"›))
           (constant_reply_contract _) 9 ‹"hi"› []).
Defined.

Lemma unknown_city_observation_witness :
  table_lookup table_js ‹"Paris"› = None /\
  @LoopJs.iteration _ _ (any_body_reply (action_reply ‹"getWeatherDetails"› ‹"Paris"›)) (St [] 0 []) =
    IContinue (push (Msg RDeveloper (Some (observation_envelope VUndefined)))
                 (push (Msg RAssistant (Some (action_reply ‹"getWeatherDetails"› ‹"Paris"›))) (St [] 1 []))).
Proof.
  assert (Hu : table_lookup table_js ‹"Paris"› = None) by (vm_compute; reflexivity).
  split; [exact Hu|].
  exact (proj1 (@unknown_city_observation _ _ _
                  (any_body_reply (action_reply ‹"getWeatherDetails"› ‹"Paris"›))
                  (St [] 0 []) ‹"Paris"› eq_refl (lit_ascii_bound_wf _) Hu)).
Defined.

Lemma unknown_tool_crashes_witness :
  ‹"__proto__"› = ‹"__proto__"› /\
  @LoopJs.iteration _ _ (any_body_reply (action_reply ‹"__proto__"› ‹"Paris"›)) (St [] 0 []) =
    ICrash TypeError (push (Msg RAssistant (Some (action_reply ‹"__proto__"› ‹"Paris"›))) (St [] 1 [])).
Proof.
  split; [reflexivity|].
  exact (@unknown_tool_crashes _ _ (any_body_reply (action_reply ‹"__proto__"› ‹"Paris"›))
           (St [] 0 []) ‹"__proto__"› ‹"Paris"› eq_refl
           (lit_ascii_bound_wf _) (lit_ascii_bound_wf _) (or_intror eq_refl)).
Defined.
Lemma null_content_crashes_witness :
  @LoopJs.iteration basic_case_mapping literal_number_ops (fun _ _ => ApiSuccess [Choice None])
    (St [] 0 []) = ICrash TypeError (St [Msg RAssistant None] 1 []).
Proof.
  exact (proj1 (@null_content_crashes basic_case_mapping literal_number_ops
                  (fun _ _ => ApiSuccess [Choice None]) (St [] 0 []) [] eq_refl)).
Defined.
(** An action whose [input] is an array. *)
Lemma tool_input_boundary_js_witness :
  let ps := [(‹"type"›, JString ‹"action"›); (‹"function"›, JString ‹"getWeatherDetails"›); (‹"input"›, JArray [])] in
  let text := @serialize_json literal_number_ops (JObject ps) in
  JSON_parse text = Normal (JObject ps) /\
  @LoopJs.iteration basic_case_mapping literal_number_ops (fun _ _ => ApiSuccess [Choice (Some text)]) (St [] 0 []) =
  ICrash TypeError (St [Msg RAssistant (Some text)] 1 []).
Proof.
  intros ps text.
  assert (Hp : JSON_parse text = Normal (JObject ps)) by (vm_compute; reflexivity).
  split; [exact Hp|].
  exact (@tool_input_boundary_js basic_case_mapping literal_number_ops (fun _ _ => ApiSuccess [Choice (Some text)])
           (St [] 0 []) text ps eq_refl Hp eq_refl eq_refl).
Defined.
(** The type [[["output"]]], nested twice. *)
Lemma loose_output_divergence_witness :
  let ps := [(‹"type"›, JArray [JArray [JString ‹"output"›]]); (‹"output"›, JString ‹"hi"›)] in
  @LoopJs.dispatch basic_case_mapping literal_number_ops (JObject ps) (St [] 0 []) =
    Normal (IBreak (St [] 0 [EPrint (‹"bot: "› ++ ‹"hi"›)])) /\
  @Loop2.dispatch basic_case_mapping literal_number_ops (JObject ps) (St [] 0 []) = Normal (IContinue (St [] 0 [])).
Proof.
  intros ps.
  exact (@loose_output_divergence basic_case_mapping literal_number_ops ps [JArray [JString ‹"output"›]] ‹"hi"›
           (St [] 0 []) eq_refl eq_refl eq_refl).
Defined.
End Witnesses.
