(* ===== verification/Protocol.v ===== *)
(** * The exchange protocol of the spec and its refinement by the loops

    Spec section 3 describes the envelope carried by a message as a tagged
    union of five variants, and section 4.3 the exchange as a machine with
    the phases [Calling], [Interpreting] and [Done]: the answer is
    appended to the log, parsed, and an [output] ends the exchange, an
    [action] runs a registered tool and appends its observation, any other
    envelope goes back to [Calling].  Section 7 adds the four ways an
    exchange fails.  [Protocol] states this machine as a labelled step
    relation, parameterised by the registry and the role of the
    observation message; [decode] is the typed decode step of section 9.

    The sections after the module show that both loops implement the
    machine: every pass of [Loop2.iteration] and [LoopJs.iteration] on an
    answer that is an envelope (or not JSON at all) is a run of the
    machine on the same log, with the tool table of [Weather] as the
    registry, and what the pass prints is what the machine's labels say. *)

From stdpp Require Import base list numbers.
From Stdlib Require Import NArith Lia.
From S2P Require Import Prelude JsString JsValue Weather JsonPrint JsonParse JsonRoundtrip Tools Chat Loop2 LoopJs.

Module Protocol.

(** The envelope union of spec section 3. *)
Inductive envelope :=
  | EnvUser (user : list N)
  | EnvPlan (plan : list N)
  | EnvAction (function input : list N)
  | EnvObservation (observation : list N)
  | EnvOutput (output : list N).

(** The members of an envelope as the system prompt writes them: the tag
    first, then the string fields. *)
Definition env_fields (e : envelope) : list (list N * list N) :=
  match e with
  | EnvUser u => [(‹"type"›, ‹"user"›); (‹"user"›, u)]
  | EnvPlan p => [(‹"type"›, ‹"plan"›); (‹"plan"›, p)]
  | EnvAction f i => [(‹"type"›, ‹"action"›); (‹"function"›, f); (‹"input"›, i)]
  | EnvObservation o => [(‹"type"›, ‹"observation"›); (‹"observation"›, o)]
  | EnvOutput o => [(‹"type"›, ‹"output"›); (‹"output"›, o)]
  end.

Definition string_field (k : list N) (ps : list (list N * json)) : option (list N) :=
  match assoc_lookup k ps with Some (JString s) => Some s | _ => None end.

(** The decode step: an object whose [type] is one of the five tags and
    whose fields for that tag are strings. *)
Definition decode (j : json) : option envelope :=
  match j with
  | JObject ps =>
      t ← string_field ‹"type"› ps;
      if str_eqb t ‹"user"› then EnvUser <$> string_field ‹"user"› ps
      else if str_eqb t ‹"plan"› then EnvPlan <$> string_field ‹"plan"› ps
      else if str_eqb t ‹"action"› then
        f ← string_field ‹"function"› ps;
        i ← string_field ‹"input"› ps;
        Some (EnvAction f i)
      else if str_eqb t ‹"observation"› then EnvObservation <$> string_field ‹"observation"› ps
      else if str_eqb t ‹"output"› then EnvOutput <$> string_field ‹"output"› ps
      else None
  | _ => None
  end.

Definition decode_answer (a : list N) : option envelope :=
  match JSON_parse a with Normal j => decode j | Throw _ => None end.

(** The phases of an exchange (spec section 4.3), each with the log. *)
Inductive phase :=
  | Calling (log : list message)
  | Interpreting (log : list message) (answer : list N)
  | Done (log : list message) (output : list N)
  | Failed (log : list message).

(** The failures of spec section 7: (a) the call fails, (d) no content,
    (b) an answer that is not JSON, (c) an unregistered tool. *)
Inductive failure := FApi | FEmpty | FMalformed (a : list N) | FUnknownTool (f : list N).

Inductive label :=
  | LAnswer (a : list N)
  | LTool (f i : list N)
  | LPrint (o : list N)
  | LSkip
  | LFail (k : failure).

#[export] Instance envelope_eq_dec : EqDecision envelope.
Proof. solve_decision. Defined.
#[export] Instance failure_eq_dec : EqDecision failure.
Proof. solve_decision. Defined.
#[export] Instance label_eq_dec : EqDecision label.
Proof. solve_decision. Defined.

Definition terminal (p : phase) : bool :=
  match p with Done _ _ | Failed _ => true | _ => false end.

Section Machine.
Context `{NumberOps}.
(** A registered tool answers a string, or nothing ([undefined]). *)
Variable registry : list N -> option (list N -> option (list N)).
Variable obs_role : role.

Definition observation_text (r : option (list N)) : list N :=
  observation_envelope (match r with Some s => VJson (JString s) | None => VUndefined end).

Reserved Notation "p --[ l ]--> q" (at level 70, l at next level).

Inductive step : phase -> label -> phase -> Prop :=
  | step_api_failure log :
      Calling log --[LFail FApi]--> Failed log
  | step_empty log :
      Calling log --[LFail FEmpty]--> Failed log
  | step_answer log a :
      Calling log --[LAnswer a]--> Interpreting (log ++ [Msg RAssistant (Some a)]) a
  | step_malformed log a e :
      JSON_parse a = Throw e ->
      Interpreting log a --[LFail (FMalformed a)]--> Failed log
  | step_output log a o :
      decode_answer a = Some (EnvOutput o) ->
      Interpreting log a --[LPrint o]--> Done log o
  | step_action log a f i tool :
      decode_answer a = Some (EnvAction f i) -> registry f = Some tool ->
      Interpreting log a --[LTool f i]-->
        Calling (log ++ [Msg obs_role (Some (observation_text (tool i)))])
  | step_unknown_tool log a f i :
      decode_answer a = Some (EnvAction f i) -> registry f = None ->
      Interpreting log a --[LFail (FUnknownTool f)]--> Failed log
  | step_other log a e :
      decode_answer a = Some e ->
      (match e with EnvOutput _ | EnvAction _ _ => False | _ => True end) ->
      Interpreting log a --[LSkip]--> Calling log
where "p --[ l ]--> q" := (step p l q).

Inductive steps : phase -> list label -> phase -> Prop :=
  | steps_refl p : steps p [] p
  | steps_cons p l q ls r : step p l q -> steps q ls r -> steps p (l :: ls) r.
End Machine.
End Protocol.

Import Protocol.

(** ** The loops seen through the machine *)

(** An action names no method inherited from [Object.prototype]: its
    name is unknown to [tools], the tool's own, or [__proto__]. *)
Definition names_no_method (e : envelope) : Prop :=
  match e with
  | EnvAction f _ => f ∉ registry_names \/ f = ‹"getWeatherDetails"› \/ f = ‹"__proto__"›
  | _ => True
  end.

(** An answer the machine covers: not JSON, or an envelope. *)
Definition protocol_answer (a : list N) : Prop :=
  (exists e, JSON_parse a = Throw e) \/
  (exists env, decode_answer a = Some env /\ names_no_method env).

(** The two tests as boolean functions, to run on concrete answers. *)
Definition names_no_methodb (e : envelope) : bool :=
  match e with
  | EnvAction f _ =>
      bool_decide (f ∉ registry_names) || str_eqb f ‹"getWeatherDetails"› || str_eqb f ‹"__proto__"›
  | _ => true
  end.

Definition is_protocol_answer (a : list N) : bool :=
  match JSON_parse a with
  | Throw _ => true
  | Normal j => match decode j with Some e => names_no_methodb e | None => false end
  end.

(** How a pass ends, in terms of the machine's phases. *)
Inductive corresponds : iter_result -> phase -> Prop :=
  | corr_continue st : corresponds (IContinue st) (Calling (messages st))
  | corr_break st o : corresponds (IBreak st) (Done (messages st) o)
  | corr_return st : corresponds (IReturn st) (Failed (messages st))
  | corr_crash e st : corresponds (ICrash e st) (Failed (messages st)).

(** The registry of [index2.js] with the tool of spec section 4.1: the
    table of [Weather] and the not-available sentence. *)
Definition registry2 (f : list N) : option (list N -> option (list N)) :=
  if str_eqb f ‹"getWeatherDetails"›
  then Some (fun i => Some (default Index2Js.not_available (table_lookup table_2 i)))
  else None.

(** What [index2.js] writes on the console for a step of the machine. *)
Definition console2 (l : label) : list event :=
  match l with
  | LPrint o => [EPrint (‹"Bot: "› ++ o)]
  | LFail FApi => [EError ErrApiCall; EError ErrProcessing]
  | LFail FEmpty => [EError ErrNoContent]
  | LFail (FMalformed a) => [EError ErrParse; EError (ErrRawResponse a)]
  | LFail (FUnknownTool f) => [EError (ErrNotFound f)]
  | _ => []
  end.

(** The answers of [index2.js]'s endpoint that the machine covers: a
    failure, no content, or a protocol answer. *)
Definition reply_ok2 (r : api_reply) : Prop :=
  match r with
  | ApiFailure => True
  | ApiSuccess chs =>
      match first_content chs with
      | None | Some [] => True
      | Some a => protocol_answer a
      end
  end.

(** The registry of [index.js]: its table, and [undefined] for an unknown
    city. *)
Definition registry_js (f : list N) : option (list N -> option (list N)) :=
  if str_eqb f ‹"getWeatherDetails"› then Some (table_lookup table_js) else None.

(** [index.js] prints the outputs and nothing else. *)
Definition console_js (l : label) : list event :=
  match l with LPrint o => [EPrint (‹"bot: "› ++ o)] | _ => [] end.

(** [index.js] reads [chat.choices[0].message.content] and parses it
    even when it is [null]: the machine covers a text content. *)
Definition reply_ok_js (r : api_reply) : Prop :=
  match r with
  | ApiFailure | ApiSuccess [] => True
  | ApiSuccess (c :: _) =>
      match choice_content c with Some a => protocol_answer a | None => False end
  end.

(** A pass [it] refines the machine from [st] when some run of the
    machine from [Calling] on the same log ends in the phase the pass ends
    in and writes what the pass writes. *)
Definition pass_refines `{NumberOps} (registry : list N -> option (list N -> option (list N)))
    (obs_role : role) (console : label -> list event) (it : state -> iter_result)
    (st : state) : Prop :=
  exists ls p, steps registry obs_role (Calling (messages st)) ls p /\
    corresponds (it st) p /\
    trace (iter_state (it st)) = trace st ++ flat_map console ls.

(** ** Lemmas on the machine and on decoding *)

Section MachineLemmas.
Context `{NumberOps} (registry : list N -> option (list N -> option (list N))) (obs_role : role).

Lemma steps_app p ls q ls' r :
  steps registry obs_role p ls q -> steps registry obs_role q ls' r ->
  steps registry obs_role p (ls ++ ls') r.
Proof. induction 1; simpl; [done|]. intros. econstructor; eauto. Qed.

Lemma steps_two p l1 q l2 r :
  step registry obs_role p l1 q -> step registry obs_role q l2 r ->
  steps registry obs_role p [l1; l2] r.
Proof. intros. repeat econstructor; eauto. Qed.
End MachineLemmas.

#[export] Hint Resolve steps_refl steps_two : js.

Lemma string_field_Some k ps s :
  string_field k ps = Some s <-> assoc_lookup k ps = Some (JString s).
Proof. unfold string_field. destruct (assoc_lookup k ps) as [[]|]; naive_solver. Qed.

(** A decoded envelope is an object with its members. *)
Lemma decode_Some j e :
  decode j = Some e ->
  exists ps, j = JObject ps /\
    Forall (fun kv => assoc_lookup kv.1 ps = Some (JString kv.2)) (env_fields e).
Proof.
  intros Hd. destruct j as [| | | | |ps]; try discriminate. cbn [decode] in Hd.
  destruct (string_field ‹"type"› ps) as [t|] eqn:Ht; cbn [mbind option_bind] in Hd;
    [|discriminate].
  apply string_field_Some in Ht. exists ps. split; [done|].
  repeat match type of Hd with
  | context [str_eqb t ?w] =>
      let E := fresh "E" in
      destruct (str_eqb t w) eqn:E; [apply str_eqb_eq in E; subst t|]
  end; try discriminate.
  all: repeat match type of Hd with
       | context [string_field ?k ?qs] =>
           let F := fresh "F" in
           destruct (string_field k qs) eqn:F;
             cbn [mbind option_bind fmap option_fmap option_map] in Hd;
             [apply string_field_Some in F|discriminate]
       end.
  all: injection Hd as <-; repeat constructor; done.
Qed.

Lemma get_field_object ps f : get_field (JObject ps) f = Normal (assoc_lookup (field_name f) ps).
Proof. reflexivity. Qed.

(** The registry is consulted for the tool's own name only. *)
Lemma registry_cases f :
  names_no_method (EnvAction f []) ->
  (f = ‹"getWeatherDetails"› /\ tools_get f = VFunction BGetWeatherDetails) \/
  (f <> ‹"getWeatherDetails"› /\ is_callable (tools_get f) = false).
Proof.
  intros Hf. hnf in Hf. destruct Hf as [Hn | [-> | ->]]; [right | left; done | right; done].
  split; [|by rewrite tools_get_not_registered].
  intros ->. apply Hn. by left.
Qed.

Lemma registry2_None f : f <> ‹"getWeatherDetails"› -> registry2 f = None.
Proof. intros Hf. unfold registry2. by rewrite str_eqb_neq. Qed.

Lemma registry_js_None f : f <> ‹"getWeatherDetails"› -> registry_js f = None.
Proof. intros Hf. unfold registry_js. by rewrite str_eqb_neq. Qed.

(** [open_envelope] turns a decoded envelope into the object it is, with
    the lookups of its members as hypotheses, and rewrites the property
    reads of a dispatch with them. *)
Ltac open_envelope Hd :=
  apply decode_Some in Hd as (? & -> & Hf);
  cbn [env_fields] in Hf;
  repeat (apply Forall_cons_1 in Hf as [? Hf]); clear Hf;
  cbn [fst snd] in *.

Ltac read_fields :=
  rewrite ?get_field_object; cbn [field_name];
  repeat match goal with H : assoc_lookup _ _ = Some _ |- _ => rewrite H end.

Section Dispatch.
Context `{cm : CaseMapping} `{!CaseMappingLaws cm} `{nops : NumberOps}.

(** [Loop2.dispatch] on an envelope does what the machine says. *)
Lemma dispatch2_envelope call env st :
  decode call = Some env -> names_no_method env ->
  Loop2.dispatch call st =
  Normal (match env with
          | EnvOutput o => IBreak (emit (EPrint (‹"Bot: "› ++ o)) st)
          | EnvAction f i =>
              match registry2 f with
              | Some tool => IContinue (push (Msg RAssistant (Some (observation_text (tool i)))) st)
              | None => IReturn (emit (EError (ErrNotFound f)) st)
              end
          | _ => IContinue st
          end).
Proof.
  intros Hd Hn. destruct env as [u|p|f i|o|o]; open_envelope Hd;
    try (unfold Loop2.dispatch; read_fields; reflexivity).
  destruct (registry_cases f Hn) as [[-> Ht] | [Hne Hc]].
  - unfold Loop2.dispatch; read_fields.
    cbn -[Index2Js.getWeatherDetails observation_envelope table_lookup].
    rewrite index2_weather_table. reflexivity.
  - rewrite registry2_None by done. unfold Loop2.dispatch; read_fields.
    cbn -[tools_get]. by rewrite Hc.
Qed.

(** [LoopJs.dispatch] on an envelope does what the machine says. *)
Lemma dispatch_js_envelope call env st :
  decode call = Some env -> names_no_method env ->
  LoopJs.dispatch call st =
  match env with
  | EnvOutput o => Normal (IBreak (emit (EPrint (‹"bot: "› ++ o)) st))
  | EnvAction f i =>
      match registry_js f with
      | Some tool => Normal (IContinue (push (Msg RDeveloper (Some (observation_text (tool i)))) st))
      | None => Throw TypeError
      end
  | _ => Normal (IContinue st)
  end.
Proof.
  intros Hd Hn. destruct env as [u|p|f i|o|o]; open_envelope Hd;
    try (unfold LoopJs.dispatch; read_fields; reflexivity).
  destruct (registry_cases f Hn) as [[-> Ht] | [Hne Hc]].
  - unfold LoopJs.dispatch; read_fields.
    cbn -[IndexJs.getWeatherDetails observation_envelope table_lookup].
    rewrite index_weather_table. by destruct (table_lookup table_js i).
  - rewrite registry_js_None by done. unfold LoopJs.dispatch; read_fields.
    cbn -[tools_get]. destruct (tools_get f); done.
Qed.
End Dispatch.

(** ** From passes to exchanges *)

Section Lift.
Context `{NumberOps} (registry : list N -> option (list N -> option (list N))) (obs_role : role).
Context (console : label -> list event) (it : state -> iter_result).

(** If every pass refines the machine, so does every exchange that ends,
    and it ends in a terminal phase. *)
Lemma exchange_refines_passes fuel st r :
  (forall s, pass_refines registry obs_role console it s) ->
  exchange it fuel st = Some r ->
  exists ls p, steps registry obs_role (Calling (messages st)) ls p /\ terminal p = true /\
    corresponds r p /\ trace (iter_state r) = trace st ++ flat_map console ls.
Proof.
  intros Hpass. revert st. induction fuel as [|fuel IH]; intros st Hex; [done|].
  destruct (Hpass st) as (ls & p & Hs & Hc & Ht). simpl in Hex.
  destruct (it st) as [st'|st'|st'|e st']; inversion Hc; subst; simplify_eq/=.
  - destruct (IH st' Hex) as (ls' & p' & Hs' & Hterm & Hc' & Ht').
    exists (ls ++ ls'), p'. split_and!; [by eapply steps_app | done | done |].
    by rewrite Ht', Ht, flat_map_app, app_assoc.
  - by exists ls, (Done (messages st') o).
  - by exists ls, (Failed (messages st')).
  - by exists ls, (Failed (messages st')).
Qed.
End Lift.

(** [machine_run] proves a run of the machine of one or two steps from
    the hypotheses in the context. *)
Ltac machine_run :=
  first
    [ eapply steps_cons; [constructor | apply steps_refl]
    | eapply steps_two; [apply step_answer | econstructor; solve [eauto | exact I]] ].

Ltac corr_tac :=
  match goal with
  | |- corresponds (IContinue ?s) _ => apply (corr_continue s)
  | |- corresponds (IBreak ?s) _ => apply (corr_break s)
  | |- corresponds (IReturn ?s) _ => apply (corr_return s)
  | |- corresponds (ICrash ?e ?s) _ => apply (corr_crash e s)
  end.

Ltac trace_tac := simpl; rewrite ?app_nil_r, <- ?app_assoc; reflexivity.

Section Refine.
Context `{cm : CaseMapping} `{!CaseMappingLaws cm} `{nops : NumberOps} `{ep : ChatEndpoint}.

Lemma decode_answer_parsed a j env :
  JSON_parse a = Normal j -> decode j = Some env -> decode_answer a = Some env.
Proof. intros Hj Hd. unfold decode_answer. by rewrite Hj. Qed.

End Refine.

(** ** The refinement theorems *)

(** C2: the exchange loop of [index2.js] implements the machine of the
    spec (sections 3, 4.3 and 7) with the weather table as its registry:
    as long as every answer of the endpoint is an envelope or not JSON
    at all, an exchange that ends is a run of the machine from
    [Calling] on the log it starts with, ending in [Done] or [Failed] on
    the log it ends with, and the console gets exactly the lines the
    machine's steps call for ([Bot: o] for the output [o], one error
    line per failure). *)
Theorem exchange2_refines_protocol `{cm : CaseMapping} `{!CaseMappingLaws cm} `{nops : NumberOps}
    `{ep : ChatEndpoint} fuel st r :
  (forall n b, reply_ok2 (endpoint_reply n b)) ->
  exchange Loop2.iteration fuel st = Some r ->
  exists ls p, steps registry2 RAssistant (Calling (messages st)) ls p /\ terminal p = true /\
    corresponds r p /\ trace (iter_state r) = trace st ++ flat_map console2 ls.
Proof.
  intros Hok. apply exchange_refines_passes. clear fuel st r. intros st.
  specialize (Hok (calls st) (Loop2.request_body (messages st))).
  unfold pass_refines, Loop2.iteration.
  destruct (endpoint_reply _ _) as [|chs]; cbn [reply_ok2] in Hok.
  { exists [LFail FApi], (Failed (messages st)). split_and!; [machine_run | corr_tac | trace_tac]. }
  destruct (first_content chs) as [[|c a]|];
    try (exists [LFail FEmpty], (Failed (messages st));
         split_and!; [machine_run | corr_tac | trace_tac]).
  set (log := messages st ++ [Msg RAssistant (Some (c :: a))]).
  destruct Hok as [[e He] | [env [Hd Hn]]].
  { rewrite He. exists [LAnswer (c :: a); LFail (FMalformed (c :: a))], (Failed log).
    split_and!; [machine_run | corr_tac | trace_tac]. }
  unfold decode_answer in Hd. destruct (JSON_parse (c :: a)) as [j|] eqn:Hj; [|done].
  pose proof (decode_answer_parsed _ _ _ Hj Hd) as Ha.
  rewrite (dispatch2_envelope j env _ Hd Hn).
  destruct env as [u|p|f i|o|o]; cbv beta iota;
    try (exists [LAnswer (c :: a); LSkip], (Calling log);
         split_and!; [machine_run | corr_tac | trace_tac]).
  - destruct (registry2 f) as [tool|] eqn:Hr.
    + exists [LAnswer (c :: a); LTool f i],
        (Calling (log ++ [Msg RAssistant (Some (observation_text (tool i)))])).
      split_and!; [machine_run | corr_tac | trace_tac].
    + exists [LAnswer (c :: a); LFail (FUnknownTool f)], (Failed log).
      split_and!; [machine_run | corr_tac | trace_tac].
  - exists [LAnswer (c :: a); LPrint o], (Done log o).
    split_and!; [machine_run | corr_tac | trace_tac].
Qed.

(** C24: the exchange loop of [index.js] implements the same machine with
    its own table (an unknown city gives no value), observations with
    the role [developer], and a console that only gets the outputs: an
    exception that escapes is the machine's [Failed] phase. *)
Theorem exchange_js_refines_protocol `{cm : CaseMapping} `{!CaseMappingLaws cm} `{nops : NumberOps}
    `{ep : ChatEndpoint} fuel st r :
  (forall n b, reply_ok_js (endpoint_reply n b)) ->
  exchange LoopJs.iteration fuel st = Some r ->
  exists ls p, steps registry_js RDeveloper (Calling (messages st)) ls p /\ terminal p = true /\
    corresponds r p /\ trace (iter_state r) = trace st ++ flat_map console_js ls.
Proof.
  intros Hok. apply exchange_refines_passes. clear fuel st r. intros st.
  specialize (Hok (calls st) (LoopJs.request_body (messages st))).
  unfold pass_refines, LoopJs.iteration.
  destruct (endpoint_reply _ _) as [|[|ch chs]]; cbn [reply_ok_js] in Hok.
  { exists [LFail FApi], (Failed (messages st)). split_and!; [machine_run | corr_tac | trace_tac]. }
  { exists [LFail FEmpty], (Failed (messages st)). split_and!; [machine_run | corr_tac | trace_tac]. }
  destruct (choice_content ch) as [a|]; [cbn [default id]|done].
  set (log := messages st ++ [Msg RAssistant (Some a)]).
  destruct Hok as [[e He] | [env [Hd Hn]]].
  { rewrite He. exists [LAnswer a; LFail (FMalformed a)], (Failed log).
    split_and!; [machine_run | corr_tac | trace_tac]. }
  unfold decode_answer in Hd. destruct (JSON_parse a) as [j|] eqn:Hj; [|done].
  pose proof (decode_answer_parsed _ _ _ Hj Hd) as Ha.
  rewrite (dispatch_js_envelope j env _ Hd Hn).
  destruct env as [u|p|f i|o|o]; cbv beta iota;
    try (exists [LAnswer a; LSkip], (Calling log);
         split_and!; [machine_run | corr_tac | trace_tac]).
  - destruct (registry_js f) as [tool|] eqn:Hr; cbv beta iota.
    + exists [LAnswer a; LTool f i],
        (Calling (log ++ [Msg RDeveloper (Some (observation_text (tool i)))])).
      split_and!; [machine_run | corr_tac | trace_tac].
    + exists [LAnswer a; LFail (FUnknownTool f)], (Failed log).
      split_and!; [machine_run | corr_tac | trace_tac].
  - exists [LAnswer a; LPrint o], (Done log o).
    split_and!; [machine_run | corr_tac | trace_tac].
Qed.

(** A scripted endpoint whose texts are protocol answers answers only
    what the machine covers. *)
Lemma scripted_reply_ok2 replies :
  Forall protocol_answer replies -> forall n b, reply_ok2 (scripted replies n b).
Proof.
  intros Hall n b. unfold scripted.
  destruct (body_field _ b); [|exact I]. destruct (replies !! n) as [[|c a]|] eqn:Hn; try exact I.
  exact (Forall_lookup_1 _ _ _ _ Hall Hn).
Qed.

Lemma names_no_methodb_sound e : names_no_methodb e = true -> names_no_method e.
Proof.
  destruct e as [| |f i| |]; simpl; try done.
  intros H. apply orb_prop in H as [H|H]; [apply orb_prop in H as [H|H]|].
  - left. by apply bool_decide_eq_true in H.
  - right; left. by apply str_eqb_eq.
  - right; right. by apply str_eqb_eq.
Qed.

Lemma is_protocol_answer_sound a : is_protocol_answer a = true -> protocol_answer a.
Proof.
  unfold is_protocol_answer, protocol_answer, decode_answer.
  destruct (JSON_parse a) as [j|e]; [|by eauto].
  destruct (decode j) as [env|] eqn:Hd; [|done].
  intros H. right. exists env. split; [done|]. by apply names_no_methodb_sound.
Qed.

(** [protocol_answer_tac] proves that a concrete text is a protocol
    answer by running the boolean test. *)
Ltac protocol_answer_tac := apply is_protocol_answer_sound; vm_compute; reflexivity.

(** ** Witnesses: the theorems at concrete inputs *)

Section Witnesses.
#[local] Existing Instances basic_case_mapping basic_case_mapping_laws literal_number_ops.

Lemma exchange2_refines_protocol_witness :
  (forall n b, reply_ok2 (patiala_script ‹"x"› ‹"y"› n b)) /\
  exists ls p, steps registry2 RAssistant (Calling []) ls p /\ terminal p = true /\
    [EPrint (‹"Bot: "› ++ ‹"y"›)] = flat_map console2 ls.
Proof.
  assert (Hok : forall n b, reply_ok2 (patiala_script ‹"x"› ‹"y"› n b)).
  { apply scripted_reply_ok2.
    repeat (apply Forall_cons_2; [protocol_answer_tac|]); apply Forall_nil_2. }
  split; [exact Hok|].
  let v := eval vm_compute in
    (@exchange (@Loop2.iteration basic_case_mapping literal_number_ops
                  (@patiala_script literal_number_ops ‹"x"› ‹"y"›)) 3 (St [] 0 [])) in
  lazymatch v with
  | Some ?r =>
      destruct (@exchange2_refines_protocol basic_case_mapping basic_case_mapping_laws literal_number_ops
                  (@patiala_script literal_number_ops ‹"x"› ‹"y"›) 3 (St [] 0 []) r Hok
                  ltac:(vm_compute; reflexivity)) as (ls & p & Hs & Ht & Hc & Htr)
  end.
  exists ls, p. split_and!; [exact Hs | exact Ht |].
  cbn [trace] in Htr. rewrite app_nil_l in Htr. rewrite <- Htr. vm_compute. reflexivity.
Defined.

Lemma exchange_js_refines_protocol_witness :
  (forall n b, reply_ok_js (any_body_reply (output_reply ‹"ok"›) n b)) /\
  exists ls p, steps registry_js RDeveloper (Calling []) ls p /\ terminal p = true /\
    [EPrint (‹"bot: "› ++ ‹"ok"›)] = flat_map console_js ls.
Proof.
  assert (Hok : forall n b, reply_ok_js (any_body_reply (output_reply ‹"ok"›) n b)).
  { intros n b. protocol_answer_tac. }
  split; [exact Hok|].
  let v := eval vm_compute in
    (@exchange (@LoopJs.iteration basic_case_mapping literal_number_ops
                  (any_body_reply (@output_reply literal_number_ops ‹"ok"›))) 1 (St [] 0 [])) in
  lazymatch v with
  | Some ?r =>
      destruct (@exchange_js_refines_protocol basic_case_mapping basic_case_mapping_laws literal_number_ops
                  (any_body_reply (@output_reply literal_number_ops ‹"ok"›)) 1 (St [] 0 []) r Hok
                  ltac:(vm_compute; reflexivity)) as (ls & p & Hs & Ht & Hc & Htr)
  end.
  exists ls, p. split_and!; [exact Hs | exact Ht |].
  cbn [trace] in Htr. rewrite app_nil_l in Htr. rewrite <- Htr. vm_compute. reflexivity.
Defined.

End Witnesses.
