(* ===== verification/ProtocolRuns.v ===== *)
(** * Runs of the exchange machine and the loops that realise them

    The exchange machine of [Protocol] chooses only where the model
    answers: from [Calling] the label is the endpoint's answer, from
    [Interpreting] the answer fixes the step.  [interpret] computes that
    step and [interpret_step] shows that it is the relation.

    The converse of the refinement theorems of [Protocol]: an endpoint
    that gives back, request after request, the answers a terminal run of
    the machine records ([answers], e.g. [replay]) makes the inner loop of
    [index2.js] ([exchange2_realizes_run]) and of [index.js]
    ([exchange_js_realizes_run]) produce that run, with its phase and its
    console lines.  Both follow from [exchange_realizes_passes], which
    lifts a statement about one pass of a loop to whole exchanges. *)

From stdpp Require Import base list numbers.
From Stdlib Require Import NArith Lia.
From S2P Require Import Prelude JsString JsValue Weather JsonPrint JsonParse Tools Chat Loop2 LoopJs Protocol.
Import Protocol.

(** ** The step from [Interpreting], computed *)

Section Interpret.
Context `{NumberOps} (registry : list N -> option (list N -> option (list N))) (obs_role : role).

(** What the machine does with a decoded envelope. *)
Definition react (log : list message) (e : envelope) : label * phase :=
  match e with
  | EnvOutput o => (LPrint o, Done log o)
  | EnvAction f i =>
      match registry f with
      | Some tool => (LTool f i, Calling (log ++ [Msg obs_role (Some (observation_text (tool i)))]))
      | None => (LFail (FUnknownTool f), Failed log)
      end
  | _ => (LSkip, Calling log)
  end.

(** The step from [Interpreting log a]: none when [a] is JSON but no
    envelope. *)
Definition interpret (log : list message) (a : list N) : option (label * phase) :=
  match JSON_parse a with
  | Throw _ => Some (LFail (FMalformed a), Failed log)
  | Normal j => react log <$> decode j
  end.

(** One pass of a loop, as a run of the machine from [Calling log]: a
    failed request, no content, or an answer and the step it causes. *)
Inductive one_pass (log : list message) : list label -> phase -> Prop :=
  | pass_api : one_pass log [LFail FApi] (Failed log)
  | pass_empty : one_pass log [LFail FEmpty] (Failed log)
  | pass_answer a l q :
      step registry obs_role (Interpreting (log ++ [Msg RAssistant (Some a)]) a) l q ->
      one_pass log [LAnswer a; l] q.
End Interpret.

(** The answer the endpoint gives for a label of a run. *)
Definition label_reply (l : label) : list api_reply :=
  match l with
  | LFail FApi => [ApiFailure]
  | LFail FEmpty => [ApiSuccess []]
  | LAnswer a => [ApiSuccess [Choice (Some a)]]
  | _ => []
  end.

(** The answers a run receives, in order. *)
Definition replies (ls : list label) : list api_reply := flat_map label_reply ls.

(** The endpoint gives the answers [rs] to the requests from the [n]-th
    on, whatever their bodies. *)
Definition answers `{ep : ChatEndpoint} (n : nat) (rs : list api_reply) : Prop :=
  forall k r b, rs !! k = Some r -> endpoint_reply (n + k) b = r.

(** An endpoint that replays the answers [rs] from the request [base]
    on. *)
Definition replay (base : nat) (rs : list api_reply) : ChatEndpoint :=
  fun n _ => default ApiFailure (rs !! (n - base)).

(** The runs the loops can realise: the loop of [index2.js] reports an
    empty answer as missing content, and an unknown name is one that
    [tools] does not resolve to an inherited method. *)
Definition answer_nonempty (l : label) : Prop :=
  match l with LAnswer a => a <> [] | _ => True end.

Definition names_ok (l : label) : Prop :=
  match l with LFail (FUnknownTool f) => names_no_method (EnvAction f []) | _ => True end.

(** A run of the scenario of spec section 8 without its plan: the
    action [getWeatherDetails("patiala")], its observation, an output. *)
Definition weather_run `{NumberOps} : list label :=
  [LAnswer (action_reply ‹"getWeatherDetails"› ‹"patiala"›); LTool ‹"getWeatherDetails"› ‹"patiala"›;
   LAnswer (output_reply ‹"ok"›); LPrint ‹"ok"›].

(** ** Lemmas on runs *)

Section RunLemmas.
Context `{NumberOps} (registry : list N -> option (list N -> option (list N))) (obs_role : role).

Lemma interpret_step log a l q :
  step registry obs_role (Interpreting log a) l q <-> interpret registry obs_role log a = Some (l, q).
Proof.
  unfold interpret. split.
  - inversion 1; subst;
      match goal with
      | Hj : JSON_parse a = Throw _ |- _ => by rewrite Hj
      | Hd : decode_answer a = Some ?e |- _ =>
          unfold decode_answer in Hd; destruct (JSON_parse a); [|done]; rewrite Hd
      end; cbn [fmap option_fmap option_map react];
      repeat match goal with Hr : registry _ = _ |- _ => rewrite Hr end; try done.
    match goal with He : match ?e with _ => _ end |- _ => by destruct e end.
  - destruct (JSON_parse a) as [j|e] eqn:Hj; [|intros [= <- <-]; by econstructor].
    destruct (decode j) as [e|] eqn:Hd; [|done]. cbn [fmap option_fmap option_map].
    pose proof (decode_answer_parsed a j e Hj Hd) as Ha.
    destruct e as [u|p|f i|o|o]; cbn [react];
      try (intros [= <- <-]; eapply step_other; [exact Ha | exact I]).
    + destruct (registry f) as [tool|] eqn:Hr; intros [= <- <-].
      * by eapply step_action.
      * by eapply step_unknown_tool.
    + intros [= <- <-]. by apply step_output.
Qed.

Lemma terminal_no_step p l q : terminal p = true -> ~ step registry obs_role p l q.
Proof. destruct p; intros ? Hs; inversion Hs; done. Qed.

Lemma steps_terminal p ls q :
  terminal p = true -> steps registry obs_role p ls q -> ls = [] /\ q = p.
Proof. intros Ht Hs. inversion Hs as [|? ? ? ? ? Hs1]; [done|]. by apply terminal_no_step in Hs1. Qed.

(** A step from [Interpreting] receives no answer. *)
Lemma interpreting_label_reply log a l q :
  step registry obs_role (Interpreting log a) l q -> label_reply l = [].
Proof. by inversion 1. Qed.

Lemma one_pass_replies log ls q :
  one_pass registry obs_role log ls q -> exists r, replies ls = [r] /\ (1 <= length ls)%nat.
Proof.
  destruct 1 as [| |a l q Hs]; [by eexists | by eexists |].
  exists (ApiSuccess [Choice (Some a)]). unfold replies. cbn [flat_map label_reply].
  rewrite (interpreting_label_reply _ _ _ _ Hs). simpl. split; [done | lia].
Qed.

(** A terminal run from [Calling] is a pass followed by a run. *)
Lemma steps_passes log ls p :
  steps registry obs_role (Calling log) ls p -> terminal p = true ->
  exists ls1 q ls2, ls = ls1 ++ ls2 /\ one_pass registry obs_role log ls1 q /\
    steps registry obs_role q ls2 p.
Proof.
  intros Hs Ht. inversion Hs as [|? l q ls' ? Hs1 Hs']; subst; [done|].
  inversion Hs1; subst.
  - exists [LFail FApi], (Failed log), ls'. split_and!; [done | constructor | done].
  - exists [LFail FEmpty], (Failed log), ls'. split_and!; [done | constructor | done].
  - inversion Hs' as [|? l2 q2 ls2 ? Hs2 Hs2']; subst; [done|].
    exists [LAnswer a; l2], q2, ls2. split_and!; [done | by constructor | done].
Qed.
End RunLemmas.

Section Answers.
Context `{ep : ChatEndpoint}.

Lemma answers_app n rs rs' :
  answers n (rs ++ rs') -> answers n rs /\ answers (n + length rs) rs'.
Proof.
  intros Ha. split; intros k r b Hk.
  - apply Ha. rewrite lookup_app_l; [done|]. by eapply lookup_lt_Some.
  - rewrite <- Nat.add_assoc. apply Ha. rewrite lookup_app_r by lia.
    by replace (length rs + k - length rs)%nat with k by lia.
Qed.

Lemma answers_single n r b : answers n [r] -> endpoint_reply n b = r.
Proof. intros Ha. rewrite <- (Nat.add_0_r n). by apply Ha. Qed.
End Answers.

Lemma replay_answers base rs : @answers (replay base rs) base rs.
Proof.
  intros k r b Hk. unfold endpoint_reply, replay.
  replace (base + k - base)%nat with k by lia. by rewrite Hk.
Qed.

(** ** From passes to exchanges *)

Section Realize.
Context `{NumberOps} `{ep : ChatEndpoint}.
Context (registry : list N -> option (list N -> option (list N))) (obs_role : role).
Context (console : label -> list event) (it : state -> iter_result) (ok : label -> Prop).

(** Every pass of the machine whose answer the endpoint gives is what
    the loop's pass does. *)
Hypothesis pass_realized : forall st ls q,
  one_pass registry obs_role (messages st) ls q -> Forall ok ls -> answers (calls st) (replies ls) ->
  corresponds (it st) q /\ trace (iter_state (it st)) = trace st ++ flat_map console ls /\
  calls (iter_state (it st)) = S (calls st).

Lemma exchange_realizes_passes fuel st ls p :
  steps registry obs_role (Calling (messages st)) ls p -> terminal p = true ->
  Forall ok ls -> answers (calls st) (replies ls) -> (length ls <= fuel)%nat ->
  exists r, exchange it fuel st = Some r /\ corresponds r p /\
    trace (iter_state r) = trace st ++ flat_map console ls.
Proof.
  revert st ls. induction fuel as [|fuel IH]; intros st ls Hs Ht Hok Hans Hlen.
  { destruct ls; [|simpl in Hlen; lia]. inversion Hs; subst. done. }
  destruct (steps_passes _ _ _ _ _ Hs Ht) as (ls1 & q & ls2 & -> & Hp & Hs2).
  apply Forall_app in Hok as [Hok1 Hok2].
  unfold replies in Hans. rewrite flat_map_app in Hans.
  apply answers_app in Hans as [Hans1 Hans2].
  destruct (one_pass_replies _ _ _ _ _ Hp) as (r1 & Hr1 & Hl1).
  destruct (pass_realized _ _ _ Hp Hok1 Hans1) as (Hc & Htr & Hcalls).
  rewrite length_app in Hlen. cbn [exchange].
  destruct (it st) as [s|s|s|e s]; inversion Hc; subst; cbn [iter_state] in *.
  - unfold replies in Hr1. rewrite Hr1 in Hans2. cbn [length] in Hans2.
    replace (calls st + 1)%nat with (calls s) in Hans2 by lia.
    destruct (IH s ls2 Hs2 Ht Hok2 Hans2 ltac:(lia)) as (r & Hex & Hcr & Htr2).
    exists r. split_and!; [done | done |]. by rewrite Htr2, Htr, flat_map_app, app_assoc.
  - apply steps_terminal in Hs2 as [-> ->]; [|done].
    eexists. split_and!; [done | constructor | by rewrite app_nil_r].
  - apply steps_terminal in Hs2 as [-> ->]; [|done].
    eexists. split_and!; [done | constructor | by rewrite app_nil_r].
  - apply steps_terminal in Hs2 as [-> ->]; [|done].
    eexists. split_and!; [done | constructor | by rewrite app_nil_r].
Qed.
End Realize.

(** ** One pass of each loop *)

Lemma registry2_Some f t : registry2 f = Some t -> f = ‹"getWeatherDetails"›.
Proof. unfold registry2. destruct (str_eqb f _) eqn:E; [by apply str_eqb_eq in E | done]. Qed.

Lemma registry_js_Some f t : registry_js f = Some t -> f = ‹"getWeatherDetails"›.
Proof. unfold registry_js. destruct (str_eqb f _) eqn:E; [by apply str_eqb_eq in E | done]. Qed.

(** An envelope the machine reacts to with a label the loops realise
    names no inherited method, when the registry knows only the tool. *)
Lemma react_names `{NumberOps} registry obs_role log env l q :
  (forall f t, registry f = Some t -> f = ‹"getWeatherDetails"›) ->
  react registry obs_role log env = (l, q) -> names_ok l -> names_no_method env.
Proof.
  intros Hreg Hr Hn. destruct env as [| |f i| |]; try exact I. cbn [react] in Hr.
  destruct (registry f) as [t|] eqn:E; injection Hr as <- <-; [|exact Hn].
  apply Hreg in E as ->. right. by left.
Qed.

(** [pass_tac] closes the three goals of a pass whose result is
    computed. *)
Ltac pass_tac :=
  cbn [first_content]; cbv beta iota zeta; split_and!; [corr_tac | trace_tac | reflexivity].

(** [open_pass] reads the answer of the pass from [answers], and turns
    the machine's step into the computed [interpret]. *)
Ltac open_pass Hans Hs :=
  unfold replies in Hans; cbn [flat_map label_reply] in Hans;
  rewrite (interpreting_label_reply _ _ _ _ _ _ Hs) in Hans;
  apply interpret_step in Hs; unfold interpret in Hs.

Section Passes.
Context `{cm : CaseMapping} `{!CaseMappingLaws cm} `{nops : NumberOps} `{ep : ChatEndpoint}.

Lemma pass2_realized st ls q :
  one_pass registry2 RAssistant (messages st) ls q ->
  Forall (fun l => answer_nonempty l /\ names_ok l) ls -> answers (calls st) (replies ls) ->
  corresponds (Loop2.iteration st) q /\
  trace (iter_state (Loop2.iteration st)) = trace st ++ flat_map console2 ls /\
  calls (iter_state (Loop2.iteration st)) = S (calls st).
Proof.
  intros Hp Hok Hans. unfold Loop2.iteration.
  destruct Hp as [| |a l q Hs]; [rewrite (answers_single _ _ _ Hans); pass_tac ..|].
  apply Forall_cons_1 in Hok as [[Hne _] Hok]. apply Forall_cons_1 in Hok as [[_ Hn] _].
  open_pass Hans Hs. rewrite (answers_single _ _ _ Hans). cbn [first_content choice_content].
  destruct a as [|c a]; [done|].
  destruct (JSON_parse (c :: a)) as [j|e] eqn:Hj; [|injection Hs as <- <-; pass_tac].
  destruct (decode j) as [env|] eqn:Hd; [|done]. injection Hs as Hs.
  rewrite (dispatch2_envelope j env _ Hd (react_names _ _ _ _ _ _ registry2_Some Hs Hn)).
  destruct env as [u|p|f i|o|o]; cbn [react] in Hs; try (injection Hs as <- <-; pass_tac).
  destruct (registry2 f); injection Hs as <- <-; pass_tac.
Qed.

Lemma pass_js_realized st ls q :
  one_pass registry_js RDeveloper (messages st) ls q ->
  Forall names_ok ls -> answers (calls st) (replies ls) ->
  corresponds (LoopJs.iteration st) q /\
  trace (iter_state (LoopJs.iteration st)) = trace st ++ flat_map console_js ls /\
  calls (iter_state (LoopJs.iteration st)) = S (calls st).
Proof.
  intros Hp Hok Hans. unfold LoopJs.iteration.
  destruct Hp as [| |a l q Hs]; [rewrite (answers_single _ _ _ Hans); pass_tac ..|].
  apply Forall_cons_1 in Hok as [_ Hok]. apply Forall_cons_1 in Hok as [Hn _].
  open_pass Hans Hs. rewrite (answers_single _ _ _ Hans). cbn [choice_content default from_option id].
  destruct (JSON_parse a) as [j|e] eqn:Hj; [|injection Hs as <- <-; pass_tac].
  destruct (decode j) as [env|] eqn:Hd; [|done]. injection Hs as Hs.
  rewrite (dispatch_js_envelope j env _ Hd (react_names _ _ _ _ _ _ registry_js_Some Hs Hn)).
  destruct env as [u|p|f i|o|o]; cbn [react] in Hs; try (injection Hs as <- <-; pass_tac).
  destruct (registry_js f); injection Hs as <- <-; pass_tac.
Qed.
End Passes.

(** ** Every terminal run of the machine is an exchange *)

Section Realized.
Context `{cm : CaseMapping} `{!CaseMappingLaws cm} `{nops : NumberOps} `{ep : ChatEndpoint}.

(** C11: the converse of [Protocol.exchange2_refines_protocol]: every
    run of the machine of spec sections 4.3 and 7 with the registry of
    [index2.js] that ends in [Done] or [Failed] is what the inner loop of
    [index2.js] does when the endpoint gives the run's answers one
    request after the other, provided the answers are not empty (the
    loop reports those as missing content) and an unknown tool is not an
    inherited method of [tools]: the exchange ends within as many passes
    as the run has steps, in the run's phase, and prints the lines of
    the run's steps. *)
Theorem exchange2_realizes_run fuel st ls p :
  steps registry2 RAssistant (Calling (messages st)) ls p -> terminal p = true ->
  Forall (fun l => answer_nonempty l /\ names_ok l) ls -> answers (calls st) (replies ls) ->
  (length ls <= fuel)%nat ->
  exists r, exchange Loop2.iteration fuel st = Some r /\ corresponds r p /\
    trace (iter_state r) = trace st ++ flat_map console2 ls.
Proof. intros. eapply exchange_realizes_passes; eauto. intros. by apply pass2_realized. Qed.

(** C12: the same for [index.js], with its registry, observations with
    the role [developer] and the console of the outputs only; an empty
    answer is a text that does not parse, so only unknown tools must not
    be inherited methods. *)
Theorem exchange_js_realizes_run fuel st ls p :
  steps registry_js RDeveloper (Calling (messages st)) ls p -> terminal p = true ->
  Forall names_ok ls -> answers (calls st) (replies ls) -> (length ls <= fuel)%nat ->
  exists r, exchange LoopJs.iteration fuel st = Some r /\ corresponds r p /\
    trace (iter_state r) = trace st ++ flat_map console_js ls.
Proof. intros. eapply exchange_realizes_passes; eauto. intros. by apply pass_js_realized. Qed.
End Realized.

(** ** Witnesses *)

(** [weather_run] is a terminal run of both machines. *)
Ltac weather_run_steps :=
  eapply steps_cons; [apply step_answer|];
  eapply steps_cons; [eapply step_action; [vm_compute; reflexivity | reflexivity]|];
  eapply steps_cons; [apply step_answer|];
  eapply steps_cons; [apply step_output; vm_compute; reflexivity|];
  apply steps_refl.

Lemma exchange2_realizes_run_witness :
  exists p, @steps literal_number_ops registry2 RAssistant (Calling []) (@weather_run literal_number_ops) p /\
    exists r, @exchange (@Loop2.iteration basic_case_mapping literal_number_ops
                           (replay 0 (replies (@weather_run literal_number_ops)))) 4 (St [] 0 []) = Some r /\
      corresponds r p /\ trace (iter_state r) = [EPrint (‹"Bot: "› ++ ‹"ok"›)].
Proof.
  eexists. split; [weather_run_steps|].
  destruct (@exchange2_realizes_run basic_case_mapping basic_case_mapping_laws literal_number_ops
              (replay 0 (replies (@weather_run literal_number_ops))) 4 (St [] 0 [])
              (@weather_run literal_number_ops) _ ltac:(weather_run_steps) eq_refl
              ltac:(repeat constructor; discriminate) (replay_answers 0 _) ltac:(simpl; lia))
    as (r & Hex & Hc & Htr).
  exists r. split_and!; [exact Hex | exact Hc | rewrite Htr; vm_compute; reflexivity].
Defined.

Lemma exchange_js_realizes_run_witness :
  exists p, @steps literal_number_ops registry_js RDeveloper (Calling []) (@weather_run literal_number_ops) p /\
    exists r, @exchange (@LoopJs.iteration basic_case_mapping literal_number_ops
                           (replay 0 (replies (@weather_run literal_number_ops)))) 4 (St [] 0 []) = Some r /\
      corresponds r p /\ trace (iter_state r) = [EPrint (‹"bot: "› ++ ‹"ok"›)].
Proof.
  eexists. split; [weather_run_steps|].
  destruct (@exchange_js_realizes_run basic_case_mapping basic_case_mapping_laws literal_number_ops
              (replay 0 (replies (@weather_run literal_number_ops))) 4 (St [] 0 [])
              (@weather_run literal_number_ops) _ ltac:(weather_run_steps) eq_refl
              ltac:(repeat constructor) (replay_answers 0 _) ltac:(simpl; lia))
    as (r & Hex & Hc & Htr).
  exists r. split_and!; [exact Hex | exact Hc | rewrite Htr; vm_compute; reflexivity].
Defined.
